(** * Taboo card pipeline: validation and normalisation core

    A shallow embedding of the card-curation scripts (clean_cards.py,
    review_cards.py, add_cards.py, add_more_cards.py, generate_cards.py)
    and the properties their specification states about them.

    Text is modelled as [list ascii].  The case and whitespace tables are
    Python's for the ASCII range; the codes 128-255 of [ascii] are kept
    as caseless, non-space characters.  Where a statement depends on
    characters beyond ASCII it is made over code points, in the module
    [Unicode], or for ASCII text ([Py.isascii]).  Python sets and dicts
    used as accumulators are stdpp [gset] and [gmap]. *)

From Stdlib Require Import Ascii String.
From stdpp Require Import gmap strings list.

#[local] Set Warnings "-clear-no-such-hyp,-abstract-large-number".

Open Scope string_scope.
Open Scope nat_scope.
Open Scope list_scope.

(** ** Python [str] *)

Definition str := list ascii.

Definition lit (s : string) : str := list_ascii_of_string s.
Coercion lit : string >-> str.

Module Py.

Definition code (c : ascii) : nat := nat_of_ascii c.

Definition isupper (c : ascii) : bool := (65 <=? code c) && (code c <=? 90).
Definition islower (c : ascii) : bool := (97 <=? code c) && (code c <=? 122).

(** [str.isspace] on the ASCII range: TAB, LF, VT, FF, CR, FS, GS, RS, US
    and the space character. *)
Definition isspace (c : ascii) : bool :=
  ((9 <=? code c) && (code c <=? 13)) || ((28 <=? code c) && (code c <=? 32)).

Definition char_lower (c : ascii) : ascii :=
  if isupper c then ascii_of_nat (code c + 32) else c.
Definition char_upper (c : ascii) : ascii :=
  if islower c then ascii_of_nat (code c - 32) else c.

(** [s.lower()] *)
Definition lower (s : str) : str := map char_lower s.

(** [s.capitalize()]: first character upper-cased, the rest lower-cased. *)
Definition capitalize (s : str) : str :=
  match s with
  | [] => []
  | c :: r => char_upper c :: lower r
  end.

(** [a == b] *)
Definition eqb (a b : str) : bool := bool_decide (a = b).

(** [s.startswith(p)] *)
Fixpoint startswith (s p : str) : bool :=
  match p, s with
  | [], _ => true
  | _ :: _, [] => false
  | a :: p', b :: s' => bool_decide (a = b) && startswith s' p'
  end.

(** [sub in s] *)
Fixpoint contains (sub s : str) : bool :=
  startswith s sub ||
  match s with
  | [] => false
  | _ :: s' => contains sub s'
  end.

(** [c in s] for a single character [c]. *)
Definition contains_char (c : ascii) (s : str) : bool := contains [c] s.

(** [w.endswith(suffix)] *)
Definition endswith (w suffix : str) : bool :=
  (length suffix <=? length w) && eqb (drop (length w - length suffix) w) suffix.

(** [w[:-k]]; for [k = 0] Python reads the slice as [w[:0]]. *)
Definition slice_to_neg (w : str) (k : nat) : str :=
  if k =? 0 then [] else take (length w - k) w.

(** [s.replace(old, new)] for a one-character [old]. *)
Definition replace (old : ascii) (new : str) (s : str) : str :=
  flat_map (fun c => if bool_decide (c = old) then new else [c]) s.

(** [s.lstrip()], [s.rstrip()], [s.strip()] *)
Fixpoint lstrip (s : str) : str :=
  match s with
  | [] => []
  | c :: r => if isspace c then lstrip r else s
  end.
Definition rstrip (s : str) : str := rev (lstrip (rev s)).
Definition strip (s : str) : str := rstrip (lstrip s).

(** [s.split()]: maximal runs of non-space characters, in order.  [cur]
    is the token being read; it is empty between tokens. *)
Fixpoint split_from (cur : str) (s : str) : list str :=
  match s with
  | [] => match cur with [] => [] | _ => [cur] end
  | c :: r =>
      if isspace c
      then match cur with [] => split_from [] r | _ => cur :: split_from [] r end
      else split_from (cur ++ [c]) r
  end.
Definition split (s : str) : list str := split_from [] s.

(** [sep.join(parts)] *)
Fixpoint join (sep : str) (parts : list str) : str :=
  match parts with
  | [] => []
  | [x] => x
  | x :: rest => x ++ sep ++ join sep rest
  end.

(** [x in xs] for a Python set or list literal of strings. *)
Definition mem (x : str) (xs : list str) : bool := bool_decide (x ∈ xs).

(** [s.isascii()] *)
Definition isascii (s : str) : bool := forallb (fun c => code c <? 128) s.

(** [c.isdigit()] on the ASCII range. *)
Definition isdigit (c : ascii) : bool := (48 <=? code c) && (code c <=? 57).

(** [s.split(sep, 1)[1]] for a one-character [sep] that occurs in [s]:
    what follows its first occurrence. *)
Fixpoint after_first (sep : ascii) (s : str) : str :=
  match s with
  | [] => []
  | c :: r => if bool_decide (c = sep) then r else after_first sep r
  end.

End Py.

Definition SPACE : ascii := " "%char.
Definition TAB : ascii := ascii_of_nat 9.
Definition LF : ascii := ascii_of_nat 10.

(** ** Cards *)

Record card := Card {
  word : str;
  taboo : list str;
  difficulty : str;
  category : option str
}.

Definition set_word (w : str) (c : card) : card :=
  {| word := w; taboo := taboo c; difficulty := difficulty c; category := category c |}.
Definition set_taboo (t : list str) (c : card) : card :=
  {| word := word c; taboo := t; difficulty := difficulty c; category := category c |}.
Definition set_category (k : str) (c : card) : card :=
  {| word := word c; taboo := taboo c; difficulty := difficulty c; category := Some k |}.

(** The loop [for suffix in suffixes: if w.endswith(suffix) and
    len(w) > len(suffix) + 2: return w[:-len(suffix)]] followed by
    [return w], shared by every copy of [get_stem]. *)
Fixpoint strip_first_suffix (w : str) (suffixes : list str) : str :=
  match suffixes with
  | [] => w
  | suffix :: rest =>
      if Py.endswith w suffix && (length suffix + 2 <? length w)
      then Py.slice_to_neg w (length suffix)
      else strip_first_suffix w rest
  end.

(** ** review_cards.py *)

Module review_cards.

Definition suffixes : list str :=
  [lit "ing"; lit "ed"; lit "er"; lit "est"; lit "ly"; lit "s"; lit "es";
   lit "ies"; lit "tion"; lit "ness"; lit "ment"].

Definition get_stem (word : str) : str :=
  let w := Py.lower word in
  strip_first_suffix w suffixes.

(** One iteration of the loop of [dedupe_taboo_words] on the state
    [(seen_stems, result)]. *)
Definition dedupe_step (st : gmap str str * list str) (t : str) : gmap str str * list str :=
  let '(seen_stems, result) := st in
  let stem := get_stem t in
  match seen_stems !! stem with
  | None => (<[stem := t]> seen_stems, result ++ [t])
  | Some _ => st
  end.

Definition dedupe_taboo_words (taboo_list : list str) : list str :=
  snd (foldl dedupe_step (∅, []) taboo_list).

(** [capitalization_map.get(t.lower(), t)] *)
Definition recapitalize (capitalization_map : gmap str str) (t : str) : str :=
  default t (capitalization_map !! Py.lower t).

(** One iteration of [for new_t in new_taboos[card['word']]] on the state
    [(existing, card['taboo'])]. *)
Definition add_new_taboo (capitalization_map : gmap str str)
    (st : gset str * list str) (new_t : str) : gset str * list str :=
  let '(existing, taboo) := st in
  if negb (bool_decide (Py.lower new_t ∈ existing)) && (length taboo <? 5)
  then ({[Py.lower new_t]} ∪ existing, taboo ++ [recapitalize capitalization_map new_t])
  else st.

(** The body of [for card in cards] in step 5, for one reply
    [new_taboos] of the service. *)
Definition supplement (capitalization_map : gmap str str)
    (new_taboos : gmap str (list str)) (c : card) : card :=
  match new_taboos !! word c with
  | Some news =>
      let existing : gset str := list_to_set (map Py.lower (taboo c)) in
      set_taboo (snd (foldl (add_new_taboo capitalization_map) (existing, taboo c) news)) c
  | None => c
  end.

(** One batch of step 5: [None] is a call or a parse that raised, which
    the [except] clause reports and skips. *)
Definition supplement_batch (capitalization_map : gmap str str)
    (cards : list card) (reply : option (gmap str (list str))) : list card :=
  match reply with
  | Some new_taboos => map (supplement capitalization_map new_taboos) cards
  | None => cards
  end.

Definition is_short (c : card) : bool := length (taboo c) <? 5.

(** The number of batches of [batch_size = 30] over [n] items. *)
Definition batches (n : nat) : nat := (n + 29) / 30.

Record report := Report {
  saved : list card;
  cards_needing_taboos : list card;
  still_short : list card
}.

(** The script, from the loaded [cards] to what it saves and reports.
    [capitalization_map] is the dict built in step 4 and [replies] the
    outcome of the call of each batch of step 5. *)
Definition run (capitalization_map : gmap str str)
    (replies : nat -> option (gmap str (list str))) (cards : list card) : report :=
  let cards1 := map (fun c => set_taboo (dedupe_taboo_words (taboo c)) c) cards in
  let cards_needing_taboos := List.filter is_short cards1 in
  let cards2 :=
    map (fun c => set_taboo (map (recapitalize capitalization_map) (taboo c)) c) cards1 in
  let cards3 :=
    foldl (fun cs i => supplement_batch capitalization_map cs (replies i)) cards2
      (seq 0 (batches (length cards_needing_taboos))) in
  {| saved := cards3;
     cards_needing_taboos := cards_needing_taboos;
     still_short := List.filter is_short cards3 |}.

(** One iteration of the loop of [find_duplicate_forms] on the state
    [(stems, duplicates)]. *)
Definition duplicates_step (st : gmap str str * list (str * str)) (t : str) :
    gmap str str * list (str * str) :=
  let '(stems, duplicates) := st in
  let stem := get_stem t in
  match stems !! stem with
  | Some first => (stems, duplicates ++ [(first, t)])
  | None => (<[stem := t]> stems, duplicates)
  end.

Definition find_duplicate_forms (taboo_list : list str) : list (str * str) :=
  snd (foldl duplicates_step (∅, []) taboo_list).

(** Step 1: the cards that have duplicate forms, each with its pairs. *)
Definition cards_with_dupes (cards : list card) : list (card * list (str * str)) :=
  omap (fun c => match find_duplicate_forms (taboo c) with
                 | [] => None
                 | dupes => Some (c, dupes)
                 end) cards.

(** What the prints after the last pass show: the four counts of the
    summary and, for [still_short[:5]], the word of the card, its taboo
    words and their number. *)
Record summary := Summary {
  total_cards : nat;
  fixed_duplicate_forms : nat;
  needed_more_taboos : nat;
  still_short_count : nat;
  examples : list (str * list str * nat)
}.

Definition summary_of (cards : list card) (r : report) : summary :=
  {| total_cards := length (saved r);
     fixed_duplicate_forms := length (cards_with_dupes cards);
     needed_more_taboos := length (cards_needing_taboos r);
     still_short_count := length (still_short r);
     examples :=
       map (fun c => (word c, taboo c, length (taboo c))) (take 5 (still_short r)) |}.

End review_cards.

(** ** clean_cards.py *)

Module clean_cards.

Inductive reason :=
  | multi_word | exact_match | substring_of_main | main_is_substring | same_stem.

(** The stemmer nested in [is_problematic_taboo]. *)
Definition suffixes : list str :=
  [lit "ing"; lit "ed"; lit "er"; lit "est"; lit "ly"; lit "s"; lit "es";
   lit "tion"; lit "ness"].

Definition get_stem (word : str) : str :=
  let w := Py.lower word in
  strip_first_suffix w suffixes.

Definition is_problematic_taboo (main_word taboo : str) : bool * option reason :=
  let main_lower := Py.replace SPACE [] (Py.lower main_word) in
  let taboo_lower := Py.lower taboo in
  if Py.contains_char SPACE (Py.strip taboo) then (true, Some multi_word)
  else if Py.eqb taboo_lower main_lower then (true, Some exact_match)
  else if (3 <=? length taboo_lower) && Py.contains taboo_lower main_lower
  then (true, Some substring_of_main)
  else if (3 <=? length main_lower) && Py.contains main_lower taboo_lower
  then (true, Some main_is_substring)
  else if Py.eqb (get_stem main_lower) (get_stem taboo_lower) then (true, Some same_stem)
  else (false, None).

Definition is_bad (main_word taboo : str) : bool :=
  fst (is_problematic_taboo main_word taboo).

(** Step 2 of [main], for one card: the [bad_taboos] and [good_taboos]
    lists. *)
Definition bad_taboos (c : card) : list str :=
  List.filter (is_bad (word c)) (taboo c).
Definition good_taboos (c : card) : list str :=
  List.filter (fun t => negb (is_bad (word c) t)) (taboo c).

Definition needs_fix (c : card) : bool :=
  match bad_taboos c with [] => false | _ => true end.

(** [while len(card['taboo']) < 5: card['taboo'].append("clue")] *)
Definition pad_with_clue (ts : list str) : list str :=
  ts ++ replicate (5 - length ts) (lit "clue").

(** Step 4 of [main], for one card.  [all_replacements] is the dict
    accumulated from the replies of the generation service; a batch that
    failed contributes no key. *)
Definition apply_fix (all_replacements : gmap str (list str)) (c : card) : card :=
  if needs_fix c then
    match all_replacements !! word c with
    | Some new_taboos =>
        set_taboo
          (pad_with_clue (take 5 (good_taboos c ++ take (length (bad_taboos c)) new_taboos)))
          c
    | None => c
    end
  else c.

(** What a run of [main] leaves behind: the final value of the variable
    [cards], and what was written to cards.json ([None] when the run
    returns before step 5). *)
Record outcome := Outcome {
  cards : list card;
  saved : option (list card)
}.

Definition main (all_replacements : gmap str (list str)) (file : list card) : outcome :=
  let cards := List.filter (fun c => length (Py.split (word c)) <=? 2) file in
  let cards_needing_fixes := List.filter needs_fix cards in
  match cards_needing_fixes with
  | [] => {| cards := cards; saved := None |}
  | _ =>
      let fixed := map (apply_fix all_replacements) cards in
      {| cards := fixed; saved := Some fixed |}
  end.

(** The content of cards.json after the run. *)
Definition file_after (file : list card) (o : outcome) : list card :=
  match saved o with
  | Some cs => cs
  | None => file
  end.

End clean_cards.

(** ** add_cards.py *)

Module add_cards.

Definition lowercase_words : list str :=
  [lit "a"; lit "an"; lit "the"; lit "and"; lit "or"; lit "but"; lit "in"; lit "on";
   lit "at"; lit "to"; lit "for";
   lit "of"; lit "with"; lit "by"; lit "from"; lit "up"; lit "about"; lit "into";
   lit "over"; lit "after";
   lit "party"; lit "cake"; lit "ball"; lit "game"; lit "house"; lit "tree"; lit "car";
   lit "day";
   lit "night"; lit "room"; lit "box"; lit "bag"; lit "cup"; lit "glass"; lit "plate";
   lit "bowl";
   lit "machine"; lit "station"; lit "shop"; lit "store"; lit "bar"; lit "club";
   lit "ring";
   lit "dance"; lit "song"; lit "show"; lit "trip"; lit "ride"; lit "race"; lit "fight";
   lit "match";
   lit "cream"; lit "sauce"; lit "juice"; lit "bread"; lit "meat"; lit "fish";
   lit "chicken";
   lit "salad"; lit "soup"; lit "pie"; lit "cookie"; lit "candy"; lit "chips";
   lit "fries";
   lit "burger"; lit "sandwich"; lit "pizza"; lit "taco"; lit "sushi"; lit "pasta";
   lit "rice";
   lit "beans"; lit "corn"; lit "potato"; lit "tomato"; lit "cheese"; lit "butter";
   lit "oil";
   lit "salt"; lit "pepper"; lit "sugar"; lit "flour"; lit "egg"; lit "milk";
   lit "water";
   lit "wine"; lit "beer"; lit "coffee"; lit "tea"; lit "soda"; lit "pop";
   lit "cocktail"].

(** The body of the [enumerate] loop for the token [w] at index [i]. *)
Definition fix_token (i : nat) (w : str) : str :=
  if i =? 0 then Py.capitalize w
  else
    let w_lower := Py.lower w in
    if Py.mem w_lower lowercase_words then w_lower else w.

Definition fix_capitalization (word : str) : str :=
  let words := Py.split word in
  match words with
  | [w] => Py.capitalize w
  | _ => Py.join (lit " ") (imap fix_token words)
  end.

Definition suffixes : list str :=
  [lit "ing"; lit "ed"; lit "er"; lit "est"; lit "ly"; lit "s"; lit "es";
   lit "tion"; lit "ness"].

Definition get_stem (word : str) : str :=
  let w := Py.lower word in
  strip_first_suffix w suffixes.

Definition is_problematic_taboo (main_word taboo : str) : bool :=
  let main_lower := Py.replace SPACE [] (Py.lower main_word) in
  let taboo_lower := Py.lower taboo in
  if Py.contains_char SPACE (Py.strip taboo) then true
  else if Py.eqb taboo_lower main_lower then true
  else if (3 <=? length taboo_lower) && Py.contains taboo_lower main_lower then true
  else if (3 <=? length main_lower) && Py.contains main_lower taboo_lower then true
  else if Py.eqb (get_stem main_lower) (get_stem taboo_lower) then true
  else false.

(** The body of the validation loop of [generate_cards_batch] for one
    card of the parsed reply: [None] when the card is skipped. *)
Definition validate_card (c : card) : option card :=
  if 2 <? length (Py.split (word c)) then None
  else
    let c1 := set_word (fix_capitalization (word c)) c in
    let good_taboos :=
      map Py.lower
        (List.filter (fun t => negb (is_problematic_taboo (word c1) t)) (taboo c1)) in
    if 3 <=? length good_taboos
    then Some (set_taboo (take 5 good_taboos) c1)
    else None.

(** [generate_cards_batch] after the call to the service: [reply] is the
    parsed list of cards, or [None] when the call or the parse raised. *)
Definition generate_cards_batch (reply : option (list card)) : list card :=
  match reply with
  | Some cards => omap validate_card cards
  | None => []
  end.

Definition common_words : list str :=
  [lit "party"; lit "cake"; lit "ball"; lit "game"; lit "house"; lit "tree";
   lit "car"; lit "book"; lit "phone"; lit "computer"; lit "table"; lit "chair";
   lit "door"; lit "window"; lit "water"; lit "food"; lit "music"; lit "movie";
   lit "show"; lit "day"; lit "night"; lit "morning"; lit "evening"; lit "summer";
   lit "winter"; lit "spring"; lit "fall"; lit "autumn"; lit "birthday";
   lit "wedding"; lit "holiday"; lit "vacation"; lit "dinner"; lit "lunch";
   lit "breakfast"; lit "coffee"; lit "tea"; lit "beer"; lit "wine"; lit "dance";
   lit "song"; lit "story"; lit "letter"; lit "card"; lit "gift"; lit "present";
   lit "surprise"; lit "secret"].

(** [None] is the [IndexError] that [word[0]] raises on an empty string.
    The right operand of [and] is evaluated only when the left one is
    true. *)
Definition is_proper_noun (word : str) : option bool :=
  let words := Py.split word in
  if length words =? 1 then
    if negb (Py.mem (Py.lower word) common_words)
    then match word with
         | [] => None
         | c :: _ => Some (Py.isupper c)
         end
    else Some false
  else Some false.

End add_cards.

(** ** add_more_cards.py *)

Module add_more_cards.

Definition lowercases : list str :=
  [lit "a"; lit "an"; lit "the"; lit "and"; lit "or"; lit "but"; lit "in"; lit "on";
   lit "at"; lit "to"; lit "for"; lit "of"; lit "with"; lit "by"; lit "from";
   lit "party"; lit "cake"; lit "ball"; lit "game"; lit "day"; lit "night";
   lit "cream"; lit "sauce"].

(** [None] is the [IndexError] of [words[0]] on a phrase without token. *)
Definition fix_cap (word : str) : option str :=
  let words := Py.split word in
  match words with
  | [w] => Some (Py.capitalize w)
  | [] => None
  | w0 :: rest =>
      Some (Py.join (lit " ")
              (Py.capitalize w0 ::
               map (fun w => if Py.mem (Py.lower w) lowercases then Py.lower w else w) rest))
  end.

Definition is_bad_taboo (main taboo : str) : bool :=
  let m := Py.replace SPACE [] (Py.lower main) in
  let t := Py.lower taboo in
  if Py.contains_char SPACE (Py.strip taboo) then true
  else if Py.eqb t m then true
  else if (3 <=? length t) && Py.contains t m then true
  else if (3 <=? length m) && Py.contains m t then true
  else false.

(** What the body of [for card in new_cards] does to one card before it
    looks at [existing_words]: the card is skipped, or it is ready to be
    appended, or [fix_cap] raises and the [except] clause ends the
    batch. *)
Inductive prepared := Skip | Ready (c : card) | Raise.

Definition prepare (c : card) : prepared :=
  if 2 <? length (Py.split (word c)) then Skip
  else
    match fix_cap (word c) with
    | None => Raise
    | Some w =>
        let c1 := set_word w c in
        let good_taboos :=
          map Py.lower (List.filter (fun t => negb (is_bad_taboo (word c1) t)) (taboo c1)) in
        if 3 <=? length good_taboos then Ready (set_taboo (take 5 good_taboos) c1)
        else Skip
    end.

(** The loop over one parsed reply, on the state [(cards, existing_words)]. *)
Fixpoint add_loop (category_name : str) (st : list card * gset str)
    (new_cards : list card) : list card * gset str :=
  match new_cards with
  | [] => st
  | c :: rest =>
      match prepare c with
      | Raise => st
      | Skip => add_loop category_name st rest
      | Ready c' =>
          if bool_decide (Py.lower (word c') ∈ snd st)
          then add_loop category_name st rest
          else
            add_loop category_name
              (fst st ++ [set_category category_name c'],
               {[Py.lower (word c')]} ∪ snd st)
              rest
      end
  end.

(** The cards of a reply that reach the test on [existing_words]. *)
Fixpoint ready_cards (new_cards : list card) : list card :=
  match new_cards with
  | [] => []
  | c :: rest =>
      match prepare c with
      | Raise => []
      | Skip => ready_cards rest
      | Ready c' => c' :: ready_cards rest
      end
  end.

End add_more_cards.

(** ** generate_cards.py *)

Module generate_cards.

(** One iteration of the deduplication loop of [main] on the state
    [(existing_words, new_cards)]. *)
Definition merge_step (category_name : str)
    (st : gset str * list card) (c : card) : gset str * list card :=
  let '(existing_words, new_cards) := st in
  let word_lower := Py.lower (word c) in
  if bool_decide (word_lower ∈ existing_words) then st
  else ({[word_lower]} ∪ existing_words, new_cards ++ [set_category category_name c]).

(** [existing_words = set(card['word'].lower() for card in all_cards)] *)
Definition words_of (all_cards : list card) : gset str :=
  list_to_set (map (fun c => Py.lower (word c)) all_cards).

(** One pass of the [while] loop after the call to the service, on the
    state [(all_cards, existing_words)]: deduplicate the batch [cards],
    then [all_cards.extend(new_cards)]. *)
Definition add_batch (category_name : str)
    (st : list card * gset str) (cards : list card) : list card * gset str :=
  let '(all_cards, existing_words) := st in
  let '(existing_words', new_cards) :=
    foldl (merge_step category_name) (existing_words, []) cards in
  (all_cards ++ new_cards, existing_words').

(** Merging one batch of candidates into the loaded collection. *)
Definition Merge (category_name : str) (base candidates : list card) : list card :=
  fst (add_batch category_name (base, words_of base) candidates).

(** The text handed to [json.loads] by [generate_cards_batch]: the reply
    stripped, without its opening fence line and its closing fence. *)
Definition unfence (reply : str) : str :=
  let text := Py.strip reply in
  let text :=
    if Py.startswith text (lit "```")
    then if Py.contains_char LF text then Py.after_first LF text else drop 3 text
    else text in
  let text := if Py.endswith text (lit "```") then Py.slice_to_neg text 3 else text in
  Py.strip text.

(** The [while generated < needed] loop of [main] for one category.
    [replies i] is what [generate_cards_batch] returns at the [i]-th
    pass (the empty list when the call failed).  [None] is the loop still
    running when [fuel] passes are spent. *)
Record progress := Progress {
  all_cards : list card;
  existing_words : gset str;
  generated : nat;
  zero_count : nat
}.

Definition max_zero_batches : nat := 3.

Fixpoint category_loop (fuel : nat) (category_name : str) (needed : nat)
    (replies : nat -> list card) (i : nat) (st : progress) : option progress :=
  if generated st <? needed then
    match fuel with
    | 0 => None
    | S fuel' =>
        let cards := replies i in
        let '(existing_words', new_cards) :=
          foldl (merge_step category_name) (existing_words st, []) cards in
        let all_cards' := all_cards st ++ new_cards in
        let generated' := generated st + length new_cards in
        if length new_cards =? 0 then
          let zero_count' := zero_count st + 1 in
          let st' := {| all_cards := all_cards'; existing_words := existing_words';
                        generated := generated'; zero_count := zero_count' |} in
          if max_zero_batches <=? zero_count' then Some st'
          else category_loop fuel' category_name needed replies (S i) st'
        else
          category_loop fuel' category_name needed replies (S i)
            {| all_cards := all_cards'; existing_words := existing_words';
               generated := generated'; zero_count := 0 |}
    end
  else Some st.

End generate_cards.

(** ** generate_from_wordlist.py *)

Module generate_from_wordlist.

Definition FIRST_NAMES : list str :=
  [lit "james"; lit "john"; lit "robert"; lit "michael"; lit "david"; lit "richard";
   lit "charles"; lit "joseph"; lit "thomas"; lit "christopher"; lit "daniel";
   lit "matthew"; lit "anthony"; lit "mark"; lit "donald"; lit "steven"; lit "paul";
   lit "andrew"; lit "joshua"; lit "kenneth"; lit "kevin"; lit "brian"; lit "george";
   lit "timothy"; lit "ronald"; lit "edward"; lit "jason"; lit "jeffrey"; lit "ryan";
   lit "jacob"; lit "gary"; lit "nicholas"; lit "eric"; lit "jonathan"; lit "stephen";
   lit "larry"; lit "justin"; lit "scott"; lit "brandon"; lit "benjamin";
   lit "samuel"; lit "raymond"; lit "gregory"; lit "frank"; lit "alexander";
   lit "patrick"; lit "jack"; lit "dennis"; lit "jerry"; lit "tyler"; lit "aaron";
   lit "jose"; lit "adam"; lit "nathan"; lit "henry"; lit "peter"; lit "mary";
   lit "patricia"; lit "jennifer"; lit "linda"; lit "barbara"; lit "elizabeth";
   lit "susan"; lit "jessica"; lit "sarah"; lit "karen"; lit "lisa"; lit "nancy";
   lit "betty"; lit "margaret"; lit "sandra"; lit "ashley"; lit "dorothy";
   lit "kimberly"; lit "emily"; lit "donna"; lit "michelle"; lit "carol";
   lit "amanda"; lit "melissa"; lit "deborah"; lit "stephanie"; lit "rebecca";
   lit "sharon"; lit "laura"; lit "cynthia"; lit "kathleen"; lit "amy"; lit "angela";
   lit "shirley"; lit "anna"; lit "brenda"; lit "pamela"; lit "emma"; lit "nicole";
   lit "helen"; lit "samantha"; lit "katherine"; lit "christine"; lit "debra";
   lit "rachel"; lit "carolyn"; lit "janet"; lit "catherine"; lit "maria";
   lit "heather"; lit "diane"; lit "ruth"; lit "julie"; lit "olivia"; lit "joyce";
   lit "virginia"; lit "mike"; lit "bob"; lit "bill"; lit "jim"; lit "joe"; lit "tom";
   lit "steve"; lit "chris"; lit "dan"; lit "matt"; lit "tony"; lit "dave";
   lit "rick"; lit "nick"; lit "jeff"; lit "ben"; lit "sam"; lit "alex"; lit "max";
   lit "jake"; lit "luke"; lit "kate"; lit "jane"; lit "sue"; lit "ann"; lit "jen";
   lit "meg"; lit "kim"; lit "amy"; lit "ray"; lit "ted"; lit "fred"; lit "carl";
   lit "phil"; lit "alan"; lit "dean"; lit "doug"; lit "earl"; lit "gene"; lit "glen";
   lit "greg"; lit "hal"; lit "hank"; lit "harry"; lit "howard"; lit "ian";
   lit "ivan"; lit "jimmy"; lit "johnny"; lit "kenny"; lit "leo"; lit "lenny";
   lit "lloyd"; lit "lou"; lit "marty"; lit "mick"; lit "neil"; lit "norm";
   lit "oscar"; lit "otto"; lit "pete"; lit "ralph"; lit "roger"; lit "ron";
   lit "roy"; lit "russ"; lit "sean"; lit "seth"; lit "sid"; lit "stan"; lit "terry";
   lit "todd"; lit "troy"; lit "vince"; lit "wade"; lit "walt"; lit "wayne";
   lit "will"; lit "woody"; lit "zach"; lit "abby"; lit "becky"; lit "bonnie";
   lit "carla"; lit "cindy"; lit "claire"; lit "dawn"; lit "donna"; lit "edna";
   lit "faye"; lit "gail"; lit "gloria"; lit "grace"; lit "holly"; lit "irene";
   lit "ivy"; lit "jean"; lit "jill"; lit "joan"; lit "judy"; lit "julia";
   lit "kelly"; lit "liz"; lit "lucy"; lit "lynn"; lit "maggie"; lit "martha";
   lit "megan"; lit "molly"; lit "nora"; lit "pam"; lit "penny"; lit "rita";
   lit "rosa"; lit "rose"; lit "ruby"; lit "sally"; lit "sara"; lit "tina";
   lit "vera"; lit "wendy"; lit "ricky"; lit "joey"; lit "ross"; lit "chandler";
   lit "phoebe"; lit "monica"; lit "homer"; lit "bart"; lit "marge"; lit "lisa";
   lit "sheldon"; lit "leonard"; lit "dexter"; lit "walter"; lit "jesse";
   lit "skyler"; lit "hank"; lit "saul"; lit "arya"; lit "sansa"; lit "tyrion";
   lit "cersei"; lit "jaime"; lit "daenerys"; lit "derek"; lit "meredith";
   lit "cristina"; lit "izzie"; lit "alex"; lit "george"; lit "lily"; lit "marshall";
   lit "barney"; lit "robin"; lit "ted"].

Definition STOPWORDS : list str :=
  [lit "the"; lit "and"; lit "that"; lit "have"; lit "for"; lit "not"; lit "with";
   lit "you"; lit "this"; lit "but"; lit "his"; lit "from"; lit "they"; lit "been";
   lit "has"; lit "her"; lit "she"; lit "him"; lit "had"; lit "its"; lit "who";
   lit "will"; lit "more"; lit "when"; lit "can"; lit "said"; lit "there"; lit "each";
   lit "which"; lit "their"; lit "them"; lit "than"; lit "other"; lit "into";
   lit "could"; lit "may"; lit "did"; lit "these"; lit "some"; lit "would";
   lit "make"; lit "like"; lit "time"; lit "very"; lit "your"; lit "just"; lit "know";
   lit "take"; lit "come"; lit "get"; lit "about"; lit "was"; lit "were"; lit "are";
   lit "been"; lit "being"; lit "also"; lit "how"; lit "our"; lit "out"; lit "what";
   lit "all"; lit "were"; lit "then"; lit "because"; lit "any"; lit "those";
   lit "well"; lit "back"; lit "going"; lit "way"; lit "over"; lit "too"; lit "here";
   lit "where"; lit "after"; lit "yes"; lit "does"; lit "got"; lit "let"; lit "why";
   lit "see"; lit "say"; lit "now"; lit "should"; lit "tell"; lit "think"; lit "went";
   lit "want"; lit "really"; lit "right"; lit "look"; lit "only"; lit "still";
   lit "thing"; lit "things"; lit "much"; lit "before"; lit "good"; lit "own";
   lit "through"; lit "same"; lit "down"; lit "long"; lit "off"; lit "put";
   lit "even"; lit "made"; lit "sure"; lit "okay"; lit "something"; lit "never";
   lit "need"; lit "someone"; lit "every"; lit "little"; lit "always"; lit "nothing";
   lit "everything"; lit "anything"; lit "maybe"; lit "gonna"; lit "gotta"; lit "lot";
   lit "done"; lit "give"; lit "keep"; lit "help"; lit "thought"; lit "another";
   lit "though"; lit "enough"; lit "might"; lit "must"; lit "shall"; lit "most";
   lit "such"; lit "many"; lit "both"; lit "already"; lit "between"; lit "again";
   lit "once"; lit "quite"; lit "rather"; lit "upon"; lit "without"; lit "within";
   lit "toward"; lit "towards"; lit "whether"; lit "whose"; lit "whom"; lit "else";
   lit "since"; lit "until"; lit "while"; lit "during"; lit "along"; lit "against";
   lit "among"; lit "throughout"; lit "despite"; lit "beyond"; lit "above";
   lit "below"; lit "behind"; lit "beside"; lit "besides"; lit "however";
   lit "therefore"; lit "otherwise"; lit "moreover"; lit "furthermore";
   lit "nevertheless"; lit "nonetheless"; lit "meanwhile"; lit "instead";
   lit "indeed"; lit "perhaps"; lit "actually"; lit "apparently"; lit "basically";
   lit "certainly"; lit "definitely"; lit "especially"; lit "essentially";
   lit "eventually"; lit "obviously"; lit "probably"; lit "seriously"; lit "simply";
   lit "suddenly"; lit "supposed"; lit "truly"; lit "absolutely"; lit "anymore";
   lit "anyway"; lit "couldn"; lit "didn"; lit "doesn"; lit "hadn"; lit "hasn";
   lit "haven"; lit "isn"; lit "mustn"; lit "shouldn"; lit "wasn"; lit "weren";
   lit "won"; lit "wouldn"; lit "aren"; lit "ain"; lit "shan"; lit "needn"].

(** The body of the loop of [filter_candidates] for one word: [false]
    is a [continue], [true] reaches [candidates.append]. *)
Definition keep_candidate (existing_words : gset str) (word : str) : bool :=
  let w := Py.lower word in
  if length w <? 3 then false
  else if Py.contains_char "'"%char w || Py.contains_char "-"%char w
          || existsb Py.isdigit w then false
  else if Py.mem w STOPWORDS then false
  else if Py.mem w FIRST_NAMES then false
  else if bool_decide (w ∈ existing_words) then false
  else if Py.endswith w (lit "ed") && (5 <? length w)
          && (let root :=
                if negb (Py.endswith w (lit "ied")) then Py.slice_to_neg w 2
                else Py.slice_to_neg w 3 ++ lit "y" in
              Py.mem root STOPWORDS || (length root <=? 3)) then false
  else if Py.endswith w (lit "ing") && Py.mem (Py.slice_to_neg w 3) STOPWORDS then false
  else if Py.endswith w (lit "ly") && (5 <? length w) then false
  else true.

Definition filter_candidates (freq_words : list (str * Z)) (existing_words : gset str) :
    list (str * Z) :=
  List.filter (fun '(word, freq) => keep_candidate existing_words word) freq_words.

Record tiers := Tiers {
  easy : list str;
  medium : list str;
  hard : list str;
  expert : list str
}.

(** The body of the [enumerate] loop of [assign_difficulty_tier]. *)
Definition assign_one (t : tiers) (i : nat) (word : str) : tiers :=
  if i <? 2000 then
    {| easy := easy t ++ [word]; medium := medium t; hard := hard t; expert := expert t |}
  else if i <? 6000 then
    {| easy := easy t; medium := medium t ++ [word]; hard := hard t; expert := expert t |}
  else if i <? 15000 then
    {| easy := easy t; medium := medium t; hard := hard t ++ [word]; expert := expert t |}
  else
    {| easy := easy t; medium := medium t; hard := hard t; expert := expert t ++ [word] |}.

Fixpoint assign_from (i : nat) (t : tiers) (candidates : list (str * Z)) : tiers :=
  match candidates with
  | [] => t
  | (word, freq) :: rest => assign_from (S i) (assign_one t i word) rest
  end.

Definition assign_difficulty_tier (candidates : list (str * Z)) : tiers :=
  assign_from 0 {| easy := []; medium := []; hard := []; expert := [] |} candidates.

(** One iteration of the deduplication loop of [main] on the state
    [(all_existing, new_cards, added)]. *)
Definition add_card (difficulty : str) (st : gset str * list card * nat) (c : card) :
    gset str * list card * nat :=
  let '(all_existing, new_cards, added) := st in
  let w := Py.lower (word c) in
  if bool_decide (w ∈ all_existing) then st
  else
    ({[w]} ∪ all_existing,
     new_cards ++ [{| word := word c; taboo := taboo c; difficulty := difficulty;
                      category := category c |}],
     added + 1).

Record tier_progress := TierProgress {
  new_cards : list card;
  all_existing : gset str;
  tier_generated : nat;
  offset : nat
}.

Definition batch_size : nat := 150.

(** The [while tier_generated < target and offset < len(tier_words)]
    loop of [main] for one tier.  [replies i] is what
    [generate_taboo_batch] returns at the [i]-th pass.  The result is the
    final state with the batches of words sent to the service, in order;
    [None] is the loop still running when [fuel] passes are spent. *)
Fixpoint tier_loop (fuel : nat) (difficulty : str) (target : nat) (tier_words : list str)
    (replies : nat -> list card) (i : nat) (st : tier_progress) :
    option (tier_progress * list (list str)) :=
  if (tier_generated st <? target) && (offset st <? length tier_words) then
    match fuel with
    | 0 => None
    | S fuel' =>
        let batch := take batch_size (drop (offset st) tier_words) in
        let offset' := offset st + batch_size in
        match batch with
        | [] =>
            Some ({| new_cards := new_cards st; all_existing := all_existing st;
                     tier_generated := tier_generated st; offset := offset' |}, [])
        | _ =>
            let '(all_existing', new_cards', added) :=
              foldl (add_card difficulty) (all_existing st, new_cards st, 0) (replies i) in
            match
              tier_loop fuel' difficulty target tier_words replies (S i)
                {| new_cards := new_cards'; all_existing := all_existing';
                   tier_generated := tier_generated st + added; offset := offset' |}
            with
            | Some (st', sent) => Some (st', batch :: sent)
            | None => None
            end
        end
    end
  else Some (st, []).

End generate_from_wordlist.

(** ** reclassify_hard_expert.py *)

Module reclassify_hard_expert.

Definition set_difficulty (d : str) (c : card) : card :=
  {| word := word c; taboo := taboo c; difficulty := d; category := category c |}.

(** [classifications] is a dict in insertion order: a list of pairs with
    pairwise distinct keys. *)
Definition lookup (classifications : list (str * str)) (w : str) : option str :=
  snd <$> List.find (fun kv => bool_decide (kv.1 = w)) classifications.

(** The first item [(k, v)] of [classifications.items()] with
    [k.lower() == w.lower()]. *)
Definition lookup_lower (classifications : list (str * str)) (w : str) : option str :=
  snd <$> List.find (fun kv => bool_decide (Py.lower kv.1 = Py.lower w)) classifications.

(** The body of the loop that applies the classifications, for a card
    that carries a difficulty: the card afterwards and what is added to
    [changed]. *)
Definition reclassify (classifications : list (str * str)) (c : card) : card * nat :=
  match lookup classifications (word c) with
  | Some new =>
      if bool_decide (difficulty c <> new) then (set_difficulty new c, 1) else (c, 0)
  | None =>
      match lookup_lower classifications (word c) with
      | Some v =>
          if bool_decide (difficulty c <> v) then (set_difficulty v c, 1) else (c, 0)
      | None => (c, 0)
      end
  end.

(** The cards written to the output file and the count [changed]. *)
Definition apply_classifications (classifications : list (str * str)) (cards : list card) :
    list card * nat :=
  (map (fun c => fst (reclassify classifications c)) cards,
   foldr (fun c n => snd (reclassify classifications c) + n) 0 cards).

End reclassify_hard_expert.

(** ** Python [str] beyond ASCII *)

(** Python strings are sequences of Unicode code points, and
    [str.lower] and [str.capitalize] map one character to up to three.
    This module has the code points as numbers, the whitespace table of
    Python in full, and its case tables on U+0000-U+00FF and on the code
    points U+0130, U+0149, U+0178, U+02BC, U+0307, U+039C and U+03BC,
    which the former reach; the other code points are kept as they
    are. *)
Module Unicode.

Definition ustr := list N.

(** The code points of a string literal of the scripts. *)
Definition encode (s : str) : ustr := map N_of_ascii s.

Definition between (lo hi c : N) : bool := (lo <=? c)%N && (c <=? hi)%N.

(** [c.isspace()], which is also what [split] and [strip] test. *)
Definition isspace (c : N) : bool :=
  between 0x09 0x0D c || between 0x1C 0x20 c || (c =? 0x85)%N || (c =? 0xA0)%N
  || (c =? 0x1680)%N || between 0x2000 0x200A c || (c =? 0x2028)%N || (c =? 0x2029)%N
  || (c =? 0x202F)%N || (c =? 0x205F)%N || (c =? 0x3000)%N.

(** The lowercase mapping of one character: U+0130 gives two. *)
Definition lower_full (c : N) : list N :=
  if between 0x41 0x5A c then [(c + 32)%N]
  else if between 0xC0 0xDE c && negb (c =? 0xD7)%N then [(c + 32)%N]
  else if (c =? 0x130)%N then [0x69%N; 0x307%N]
  else if (c =? 0x178)%N then [0xFF%N]
  else if (c =? 0x39C)%N then [0x3BC%N]
  else [c].

(** The titlecase mapping of one character, which [capitalize] applies
    to the first: U+00DF gives "Ss" and U+0149 gives U+02BC "N". *)
Definition title_full (c : N) : list N :=
  if between 0x61 0x7A c then [(c - 32)%N]
  else if (c =? 0xB5)%N then [0x39C%N]
  else if (c =? 0xDF)%N then [0x53%N; 0x73%N]
  else if between 0xE0 0xFE c && negb (c =? 0xF7)%N then [(c - 32)%N]
  else if (c =? 0xFF)%N then [0x178%N]
  else if (c =? 0x149)%N then [0x2BC%N; 0x4E%N]
  else if (c =? 0x3BC)%N then [0x39C%N]
  else [c].

(** [s.lower()] *)
Definition lower (s : ustr) : ustr := flat_map lower_full s.

(** [s.capitalize()]: the first character in titlecase, the rest
    lowercased. *)
Definition capitalize (s : ustr) : ustr :=
  match s with
  | [] => []
  | c :: r => title_full c ++ lower r
  end.

(** [s.split()] *)
Fixpoint split_from (cur : ustr) (s : ustr) : list ustr :=
  match s with
  | [] => match cur with [] => [] | _ => [cur] end
  | c :: r =>
      if isspace c
      then match cur with [] => split_from [] r | _ => cur :: split_from [] r end
      else split_from (cur ++ [c]) r
  end.
Definition split (s : ustr) : list ustr := split_from [] s.

(** [sep.join(parts)] *)
Fixpoint join (sep : ustr) (parts : list ustr) : ustr :=
  match parts with
  | [] => []
  | [x] => x
  | x :: rest => x ++ sep ++ join sep rest
  end.

Definition mem (x : ustr) (xs : list ustr) : bool := bool_decide (x ∈ xs).

(** add_cards.py *)
Definition lowercase_words : list ustr := map encode add_cards.lowercase_words.

Definition fix_token (i : nat) (w : ustr) : ustr :=
  if i =? 0 then capitalize w
  else
    let w_lower := lower w in
    if mem w_lower lowercase_words then w_lower else w.

Definition fix_capitalization (word : ustr) : ustr :=
  let words := split word in
  match words with
  | [w] => capitalize w
  | _ => join (encode (lit " ")) (imap fix_token words)
  end.

(** add_more_cards.py *)
Definition lowercases : list ustr := map encode add_more_cards.lowercases.

Definition fix_cap (word : ustr) : option ustr :=
  let words := split word in
  match words with
  | [w] => Some (capitalize w)
  | [] => None
  | w0 :: rest =>
      Some (join (encode (lit " "))
              (capitalize w0 ::
               map (fun w => if mem (lower w) lowercases then lower w else w) rest))
  end.

(** What both normalisers do to the token [w] at index [i]. *)
Definition normalize_token (listed : list ustr) (i : nat) (w : ustr) : ustr :=
  if i =? 0 then capitalize w
  else if mem (lower w) listed then lower w else w.

(** A token of [split]. *)
Definition token (t : ustr) : Prop := t <> [] /\ Forall (fun c => isspace c = false) t.

End Unicode.

(** ** The specification's stemmer *)

Module Spec.

(** The suffix table in the priority order the specification gives. *)
Definition suffixes : list str :=
  [lit "tion"; lit "ness"; lit "ies"; lit "ment"; lit "ing"; lit "ed";
   lit "er"; lit "est"; lit "ly"; lit "es"; lit "s"].

(** Lowercase, then strip the first suffix of the table for which
    [len(w) > len(suffix) + 2]. *)
Definition Stem (w : str) : str :=
  strip_first_suffix (Py.lower w) suffixes.

(** [sub] occurs in [s] as a contiguous run of characters. *)
Definition substring (sub s : str) : Prop := exists pre post, s = pre ++ sub ++ post.

Definition remove_whitespace (s : str) : str :=
  List.filter (fun c => negb (Py.isspace c)) s.

(** A whitespace character between the first and the last non-space
    character of [c]. *)
Definition has_internal_whitespace (c : str) : Prop :=
  exists ch, ch ∈ Py.strip c /\ Py.isspace ch = true.

(** The five conditions of the validator, in the specification's words,
    for the target [t] and the candidate [c]. *)
Definition rule1 (c : str) : Prop := has_internal_whitespace c.
Definition rule2 (t c : str) : Prop := Py.lower c = remove_whitespace (Py.lower t).
Definition rule3 (t c : str) : Prop :=
  3 <= length (Py.lower c) /\ substring (Py.lower c) (remove_whitespace (Py.lower t)).
Definition rule4 (t c : str) : Prop :=
  3 <= length (remove_whitespace (Py.lower t)) /\
  substring (remove_whitespace (Py.lower t)) (Py.lower c).
Definition rule5 (t c : str) : Prop := Stem (remove_whitespace t) = Stem c.

End Spec.

(** The validator's reading of the same conditions: it looks for the
    space character only, and stems with its own [get_stem]. *)
Definition remove_spaces (s : str) : str := List.filter (fun c => negb (bool_decide (c = SPACE))) s.

Definition has_internal_space (c : str) : Prop := SPACE ∈ Py.strip c.

(** What both normalisers do to the token [w] at index [i], each with its
    own list of words to lower. *)
Definition normalize_token (listed : list str) (i : nat) (w : str) : str :=
  if i =? 0 then Py.capitalize w
  else if Py.mem (Py.lower w) listed then Py.lower w else w.

(** A token of [split]: not empty and without whitespace. *)
Definition token (t : str) : Prop := t <> [] /\ Forall (fun c => Py.isspace c = false) t.

(** A two-word clue whose words are separated by a TAB. *)
Definition hot_tab_lava : str := lit "hot" ++ TAB :: lit "lava".

(** [c'] is the card [c] with taboo words appended, up to five in all
    (or as many as [c] had). *)
Definition extends (c c' : card) : Prop :=
  word c' = word c /\ difficulty c' = difficulty c /\ category c' = category c /\
  taboo c `prefix_of` taboo c' /\
  length (taboo c') <= max 5 (length (taboo c)).

(** The cards and replies used in the examples below. *)
Definition football : card :=
  {| word := lit "Football";
     taboo := [lit "ball"; lit "kick"; lit "soccer"; lit "goal"; lit "field"];
     difficulty := lit "easy"; category := None |}.

Definition football_weak : card :=
  {| word := lit "Football";
     taboo := [lit "ball"; lit "foot"; lit "football"; lit "kick"; lit "goal"];
     difficulty := lit "easy"; category := None |}.

Definition birthday_party_cake : card :=
  {| word := lit "Birthday party cake";
     taboo := [lit "candles"; lit "frosting"; lit "celebrate"; lit "sweet"; lit "slice"];
     difficulty := lit "easy"; category := None |}.

(** A card without any problematic taboo word. *)
Definition volcano : card :=
  {| word := lit "Volcano";
     taboo := [lit "lava"; lit "eruption"; lit "magma"; lit "mountain"; lit "ash"];
     difficulty := lit "medium"; category := None |}.

(** A card whose word is the empty string. *)
Definition nameless : card :=
  {| word := lit "";
     taboo := [lit "blank"; lit "nothing"; lit "void"; lit "empty"; lit "missing"];
     difficulty := lit "hard"; category := None |}.

(** The state in which [main] enters the loop of a category, for a
    collection that holds the card "Football". *)
Definition football_only : generate_cards.progress :=
  {| generate_cards.all_cards := [football];
     generate_cards.existing_words := generate_cards.words_of [football];
     generate_cards.generated := 0;
     generate_cards.zero_count := 0 |}.

(** A reply of the service that proposes "foot" for "Football". *)
Definition foot_for_football : gmap str (list str) :=
  {[ lit "Football" := [lit "foot"] ]}.

(** * Properties *)

(** ** Characters and strings *)

Ltac by_cases_on_char c :=
  destruct c as [[] [] [] [] [] [] [] []]; vm_compute; try reflexivity; try congruence.

Lemma char_lower_idem c : Py.char_lower (Py.char_lower c) = Py.char_lower c.
Proof. by_cases_on_char c. Qed.

Lemma char_upper_idem c : Py.char_upper (Py.char_upper c) = Py.char_upper c.
Proof. by_cases_on_char c. Qed.

Lemma isspace_char_lower c : Py.isspace (Py.char_lower c) = Py.isspace c.
Proof. by_cases_on_char c. Qed.

Lemma isspace_char_upper c : Py.isspace (Py.char_upper c) = Py.isspace c.
Proof. by_cases_on_char c. Qed.

Lemma char_lower_space c : Py.char_lower c = SPACE <-> c = SPACE.
Proof. split; by_cases_on_char c. Qed.

Lemma lower_idem s : Py.lower (Py.lower s) = Py.lower s.
Proof.
  unfold Py.lower. rewrite <- list_fmap_compose.
  apply list_fmap_ext. intros _ c _. apply char_lower_idem.
Qed.

(** An identity of the ASCII tables; beyond ASCII [capitalize] is not
    idempotent, see [Unicode]. *)
Lemma capitalize_idem s : Py.capitalize (Py.capitalize s) = Py.capitalize s.
Proof.
  destruct s as [|c r]; [reflexivity|]. simpl.
  by rewrite char_upper_idem, lower_idem.
Qed.

(** ** Tokens, [split] and [join] *)

Lemma split_from_run t : forall cur s,
  Forall (fun c => Py.isspace c = false) t ->
  Py.split_from cur (t ++ s) = Py.split_from (cur ++ t) s.
Proof.
  induction t as [|c t IH]; intros cur s Ht; simpl.
  - by rewrite app_nil_r.
  - inversion Ht as [|? ? Hc Ht']; subst. rewrite Hc, IH by done.
    by rewrite <- app_assoc.
Qed.

Lemma split_from_space cur c s :
  cur <> [] -> Py.isspace c = true ->
  Py.split_from cur (c :: s) = cur :: Py.split_from [] s.
Proof. intros Hcur Hc. simpl. rewrite Hc. by destruct cur. Qed.

Lemma split_token t : token t -> Py.split t = [t].
Proof.
  intros [Hne Hns]. unfold Py.split.
  rewrite <- (app_nil_r t) at 1. rewrite split_from_run by done.
  simpl. by destruct t.
Qed.

Lemma split_join ts :
  Forall token ts -> Py.split (Py.join (lit " ") ts) = ts.
Proof.
  induction ts as [|x [|y r] IH]; intros Hts.
  - reflexivity.
  - simpl. apply split_token. by inversion Hts.
  - inversion Hts as [|? ? [Hne Hns] Hr]; subst.
    change (Py.join (lit " ") (x :: y :: r))
      with (x ++ SPACE :: Py.join (lit " ") (y :: r)).
    unfold Py.split. rewrite split_from_run by done. simpl app.
    rewrite split_from_space by done. f_equal. by apply IH.
Qed.

Lemma split_from_tokens s : forall cur,
  Forall (fun c => Py.isspace c = false) cur ->
  Forall token (Py.split_from cur s).
Proof.
  induction s as [|c s IH]; intros cur Hcur; simpl.
  - destruct cur; constructor; [by split|constructor].
  - destruct (Py.isspace c) eqn:Hc.
    + destruct cur; [by apply IH|].
      constructor; [by split|]. by apply IH.
    + apply IH. apply Forall_app. split; [done|]. by constructor.
Qed.

Lemma split_tokens s : Forall token (Py.split s).
Proof. apply split_from_tokens. constructor. Qed.

Lemma nospace_lower t :
  Forall (fun c => Py.isspace c = false) t ->
  Forall (fun c => Py.isspace c = false) (Py.lower t).
Proof.
  intros Hns. unfold Py.lower. apply Forall_fmap. eapply Forall_impl; [exact Hns|].
  intros c Hc. simpl. by rewrite isspace_char_lower.
Qed.

Lemma token_lower t : token t -> token (Py.lower t).
Proof.
  intros [Hne Hns]. split; [|by apply nospace_lower].
  destruct t; [done|]. discriminate.
Qed.

Lemma token_capitalize t : token t -> token (Py.capitalize t).
Proof.
  intros [Hne Hns]. destruct t as [|c r]; [done|].
  inversion Hns as [|? ? Hc Hr]; subst. split; [discriminate|]. simpl.
  constructor; [by rewrite isspace_char_upper|]. by apply nospace_lower.
Qed.

(** ** The normalisers *)

Section Normalizer.

Variable listed : list str.

Lemma token_normalize_token i w : token w -> token (normalize_token listed i w).
Proof.
  intros Hw. unfold normalize_token.
  destruct (i =? 0); [by apply token_capitalize|].
  destruct (Py.mem _ _); [by apply token_lower|done].
Qed.

Lemma normalize_token_idem i w :
  normalize_token listed i (normalize_token listed i w) = normalize_token listed i w.
Proof.
  unfold normalize_token. destruct (i =? 0); [apply capitalize_idem|].
  destruct (Py.mem (Py.lower w) _) eqn:Hm.
  - by rewrite lower_idem, Hm.
  - by rewrite Hm.
Qed.

Lemma tokens_imap_normalize ws :
  Forall token ws -> Forall token (imap (normalize_token listed) ws).
Proof.
  intros Hws. apply Forall_lookup. intros i t Hi.
  rewrite list_lookup_imap in Hi.
  destruct (ws !! i) as [w|] eqn:Hw; simplify_eq/=.
  apply token_normalize_token. eapply Forall_lookup_1; eauto.
Qed.

Lemma imap_normalize_idem ws :
  imap (normalize_token listed) (imap (normalize_token listed) ws) =
  imap (normalize_token listed) ws.
Proof.
  apply list_eq. intros i. rewrite !list_lookup_imap.
  destruct (ws !! i) as [w|]; simpl; [|done]. by rewrite normalize_token_idem.
Qed.

Lemma split_join_normalize p :
  Py.split (Py.join (lit " ") (imap (normalize_token listed) (Py.split p))) =
  imap (normalize_token listed) (Py.split p).
Proof. apply split_join, tokens_imap_normalize, split_tokens. Qed.

End Normalizer.

Lemma fix_capitalization_tokens p :
  add_cards.fix_capitalization p =
  Py.join (lit " ") (imap (normalize_token add_cards.lowercase_words) (Py.split p)).
Proof.
  unfold add_cards.fix_capitalization.
  destruct (Py.split p) as [|w [|w' ws]]; reflexivity.
Qed.

Lemma split_fix_capitalization p :
  Py.split (add_cards.fix_capitalization p) =
  imap (normalize_token add_cards.lowercase_words) (Py.split p).
Proof. rewrite fix_capitalization_tokens. apply split_join_normalize. Qed.

Lemma fix_cap_tokens p :
  add_more_cards.fix_cap p =
  match Py.split p with
  | [] => None
  | ws => Some (Py.join (lit " ") (imap (normalize_token add_more_cards.lowercases) ws))
  end.
Proof.
  unfold add_more_cards.fix_cap.
  destruct (Py.split p) as [|w [|w' ws]]; try reflexivity.
  do 2 f_equal. rewrite imap_cons. f_equal.
  symmetry. apply (imap_const _ (w' :: ws)).
Qed.

Lemma fix_cap_some p :
  Py.split p <> [] ->
  add_more_cards.fix_cap p =
  Some (Py.join (lit " ") (imap (normalize_token add_more_cards.lowercases) (Py.split p))).
Proof. intros Hp. rewrite fix_cap_tokens. by destruct (Py.split p). Qed.

Lemma imap_normalize_cons listed w0 ws :
  imap (normalize_token listed) (w0 :: ws) =
  Py.capitalize w0 ::
  map (fun w => if Py.mem (Py.lower w) listed then Py.lower w else w) ws.
Proof. rewrite imap_cons. f_equal. apply (imap_const _ ws). Qed.

(** C5.  Normalize works on the tokens of the whitespace-split phrase: a
    single token is capitalised (first letter upper, rest lower, so
    "BIRTHDAY" becomes "Birthday"); in a longer phrase the first token is
    capitalised the same way and every later token is lowered when its
    lowercase is in the fixed word list and kept as it is otherwise, so
    each interior token of the result is the input token or its
    lowercase.  [fix_cap] does the same with its own list. *)
Theorem Normalize_token_by_token p w0 ws (Hp : Py.split p = w0 :: ws) :
  let lowered listed w := if Py.mem (Py.lower w) listed then Py.lower w else w in
  add_cards.fix_capitalization p =
    match ws with
    | [] => Py.capitalize w0
    | _ => Py.join (lit " ")
             (Py.capitalize w0 :: map (lowered add_cards.lowercase_words) ws)
    end /\
  add_more_cards.fix_cap p =
    Some match ws with
         | [] => Py.capitalize w0
         | _ => Py.join (lit " ")
                  (Py.capitalize w0 :: map (lowered add_more_cards.lowercases) ws)
         end /\
  Py.split (add_cards.fix_capitalization p) =
    Py.capitalize w0 :: map (lowered add_cards.lowercase_words) ws /\
  Forall2 (fun w w' => w' = w \/ w' = Py.lower w) ws
    (tail (Py.split (add_cards.fix_capitalization p))) /\
  (forall c r, w0 = c :: r -> Py.capitalize w0 = Py.char_upper c :: Py.lower r) /\
  add_cards.fix_capitalization (lit "BIRTHDAY") = lit "Birthday".
Proof.
  intros lowered.
  assert (Hsplit : Py.split (add_cards.fix_capitalization p) =
            Py.capitalize w0 :: map (lowered add_cards.lowercase_words) ws).
  { by rewrite split_fix_capitalization, Hp, imap_normalize_cons. }
  repeat split.
  - rewrite fix_capitalization_tokens, Hp, imap_normalize_cons. by destruct ws.
  - rewrite fix_cap_some, Hp, imap_normalize_cons by (by rewrite Hp). by destruct ws.
  - exact Hsplit.
  - rewrite Hsplit. simpl. clear. induction ws as [|w ws IH]; simpl; constructor; [|done].
    unfold lowered. destruct (Py.mem _ _); auto.
  - by intros c r ->.
Qed.

Lemma Normalize_token_by_token_witness :
  add_cards.fix_capitalization (lit "new York CAKE") = lit "New York cake" /\
  add_more_cards.fix_cap (lit "new York CAKE") = Some (lit "New York cake").
Proof.
  pose proof (Normalize_token_by_token (lit "new York CAKE") (lit "new")
                [lit "York"; lit "CAKE"] eq_refl) as (H1 & H2 & _).
  split; [rewrite H1|rewrite H2]; vm_compute; reflexivity.
Defined.

(** C10.  A phrase with at least one token keeps its number of tokens
    under Normalize, and the result is its own tokens joined by exactly
    one space each: runs of spaces or tabs of the input are collapsed to
    single spaces. *)
Theorem Normalize_collapses_whitespace p (Hp : Py.split p <> []) :
  let q := add_cards.fix_capitalization p in
  length (Py.split q) = length (Py.split p) /\
  q = Py.join (lit " ") (Py.split q) /\
  Forall token (Py.split q) /\
  exists q', add_more_cards.fix_cap p = Some q' /\
    length (Py.split q') = length (Py.split p) /\
    q' = Py.join (lit " ") (Py.split q') /\
    Forall token (Py.split q').
Proof.
  intros q. unfold q. repeat split.
  - by rewrite split_fix_capitalization, length_imap.
  - rewrite split_fix_capitalization. apply fix_capitalization_tokens.
  - apply split_tokens.
  - eexists. split; [by apply fix_cap_some|]. rewrite split_join_normalize.
    repeat split; [by rewrite length_imap|apply tokens_imap_normalize, split_tokens].
Qed.

Lemma Normalize_collapses_whitespace_witness :
  add_cards.fix_capitalization (lit "  ice  " ++ TAB :: lit " Cream ") = lit "Ice cream".
Proof.
  assert (Hp : Py.split (lit "  ice  " ++ TAB :: lit " Cream ") <> []) by (vm_compute; congruence).
  destruct (Normalize_collapses_whitespace _ Hp) as (_ & H & _).
  rewrite H. vm_compute. reflexivity.
Defined.

(** ** Normalising beyond ASCII *)

(** The case tables differ from the identity below U+0400 only, where a
    property of every code point can be checked one by one. *)
Lemma below_1024 (P : N -> bool) :
  forallb P (map N.of_nat (seq 0 1024)) = true ->
  forall c, (c < 1024)%N -> P c = true.
Proof.
  intros H c Hc. rewrite forallb_forall in H. apply H.
  apply in_map_iff. exists (N.to_nat c). split; [apply N2Nat.id|].
  apply in_seq. lia.
Qed.

Ltac decide_comparisons :=
  repeat match goal with
         | |- context [(?a <=? ?b)%N] => destruct (N.leb_spec a b); try lia
         | |- context [(?a =? ?b)%N] => destruct (N.eqb_spec a b); try lia
         end.

Lemma lower_full_above c : (1024 <= c)%N -> Unicode.lower_full c = [c].
Proof.
  intros Hc. unfold Unicode.lower_full, Unicode.between.
  decide_comparisons; reflexivity.
Qed.

Lemma title_full_above c : (1024 <= c)%N -> Unicode.title_full c = [c].
Proof.
  intros Hc. unfold Unicode.title_full, Unicode.between.
  decide_comparisons; reflexivity.
Qed.

Lemma forallb_Forall_nospace l :
  forallb (fun d => negb (Unicode.isspace d)) l = true ->
  Forall (fun d => Unicode.isspace d = false) l.
Proof.
  rewrite forallb_forall. intros H. apply Forall_forall. intros d Hd.
  apply negb_true_iff, H. by apply list_elem_of_In.
Qed.

Lemma lower_full_token c :
  Unicode.isspace c = false -> Unicode.token (Unicode.lower_full c).
Proof.
  intros Hc. destruct (N.lt_ge_cases c 1024) as [Hlt|Hge].
  - assert (Hall : forallb
        (fun c => Unicode.isspace c
                || (negb (bool_decide (Unicode.lower_full c = []))
                    && forallb (fun d => negb (Unicode.isspace d)) (Unicode.lower_full c)))
        (map N.of_nat (seq 0 1024)) = true) by (vm_compute; reflexivity).
    pose proof (below_1024 _ Hall c Hlt) as H. clear Hall.
    cbv beta in H. rewrite Hc in H. rewrite orb_false_l in H.
    apply andb_true_iff in H as [Hne Hns]. split.
    + by apply negb_true_iff, bool_decide_eq_false in Hne.
    + by apply forallb_Forall_nospace.
  - rewrite lower_full_above by done. split; [done|]. by constructor.
Qed.

Lemma title_full_token c :
  Unicode.isspace c = false -> Unicode.token (Unicode.title_full c).
Proof.
  intros Hc. destruct (N.lt_ge_cases c 1024) as [Hlt|Hge].
  - assert (Hall : forallb
        (fun c => Unicode.isspace c
                || (negb (bool_decide (Unicode.title_full c = []))
                    && forallb (fun d => negb (Unicode.isspace d)) (Unicode.title_full c)))
        (map N.of_nat (seq 0 1024)) = true) by (vm_compute; reflexivity).
    pose proof (below_1024 _ Hall c Hlt) as H. clear Hall.
    cbv beta in H. rewrite Hc in H. rewrite orb_false_l in H.
    apply andb_true_iff in H as [Hne Hns]. split.
    + by apply negb_true_iff, bool_decide_eq_false in Hne.
    + by apply forallb_Forall_nospace.
  - rewrite title_full_above by done. split; [done|]. by constructor.
Qed.

(** Lowercasing reaches lowercase: every character that [lower_full]
    gives is kept by it. *)
Lemma lower_full_fixed c :
  Forall (fun d => Unicode.lower_full d = [d]) (Unicode.lower_full c).
Proof.
  destruct (N.lt_ge_cases c 1024) as [Hlt|Hge].
  - assert (Hall : forallb
        (fun c => forallb (fun d => bool_decide (Unicode.lower_full d = [d]))
                  (Unicode.lower_full c))
        (map N.of_nat (seq 0 1024)) = true) by (vm_compute; reflexivity).
    pose proof (below_1024 _ Hall c Hlt) as H. clear Hall.
    cbv beta in H. rewrite forallb_forall in H. apply Forall_forall. intros d Hd.
    apply list_elem_of_In, H in Hd. by apply bool_decide_eq_true in Hd.
  - rewrite lower_full_above by done. constructor; [|constructor].
    by apply lower_full_above.
Qed.

Lemma ulower_app s1 s2 : Unicode.lower (s1 ++ s2) = Unicode.lower s1 ++ Unicode.lower s2.
Proof. apply flat_map_app. Qed.

Lemma ulower_fixed l :
  Forall (fun d => Unicode.lower_full d = [d]) l -> Unicode.lower l = l.
Proof.
  induction 1 as [|d l Hd _ IH]; [done|].
  change (Unicode.lower (d :: l)) with (Unicode.lower_full d ++ Unicode.lower l).
  by rewrite Hd, IH.
Qed.

Lemma ulower_idem s : Unicode.lower (Unicode.lower s) = Unicode.lower s.
Proof.
  induction s as [|c s IH]; [done|].
  change (Unicode.lower (c :: s)) with (Unicode.lower_full c ++ Unicode.lower s).
  rewrite ulower_app, IH. f_equal. apply ulower_fixed, lower_full_fixed.
Qed.

(** Capitalising once is capitalising twice for every first character
    but U+0149. *)
Lemma title_full_stable c :
  c <> 0x149%N ->
  exists d ds, Unicode.title_full c = d :: ds /\
               Unicode.title_full d ++ Unicode.lower ds = d :: ds.
Proof.
  intros Hc. destruct (N.lt_ge_cases c 1024) as [Hlt|Hge].
  - assert (Hall : forallb
        (fun c => (c =? 0x149)%N
                || match Unicode.title_full c with
                   | d :: ds =>
                       bool_decide (Unicode.title_full d ++ Unicode.lower ds = d :: ds)
                   | [] => false
                   end)
        (map N.of_nat (seq 0 1024)) = true) by (vm_compute; reflexivity).
    pose proof (below_1024 _ Hall c Hlt) as H. clear Hall.
    cbv beta in H. apply orb_true_iff in H as [H|H].
    + apply N.eqb_eq in H. contradiction.
    + destruct (Unicode.title_full c) as [|d ds]; [done|].
      apply bool_decide_eq_true in H. eauto.
  - exists c, []. by rewrite title_full_above.
Qed.

Lemma ucapitalize_stable c r :
  c <> 0x149%N ->
  Unicode.capitalize (Unicode.capitalize (c :: r)) = Unicode.capitalize (c :: r).
Proof.
  intros Hc. destruct (title_full_stable c Hc) as (d & ds & Ht & Hd).
  change (Unicode.capitalize (c :: r)) with (Unicode.title_full c ++ Unicode.lower r).
  rewrite Ht.
  change (Unicode.capitalize ((d :: ds) ++ Unicode.lower r))
    with (Unicode.title_full d ++ Unicode.lower (ds ++ Unicode.lower r)).
  by rewrite ulower_app, ulower_idem, app_assoc, Hd.
Qed.

Lemma ucapitalize_unstable r :
  Unicode.capitalize (Unicode.capitalize (0x149%N :: r)) <>
  Unicode.capitalize (0x149%N :: r).
Proof.
  change (Unicode.capitalize (0x149%N :: r))
    with (0x2BC%N :: 0x4E%N :: Unicode.lower r).
  change (Unicode.capitalize (0x2BC%N :: 0x4E%N :: Unicode.lower r))
    with (0x2BC%N :: 0x6E%N :: Unicode.lower (Unicode.lower r)).
  congruence.
Qed.

Lemma ucapitalize_stable_iff w :
  w <> [] ->
  Unicode.capitalize (Unicode.capitalize w) = Unicode.capitalize w <->
  ~ exists r, w = 0x149%N :: r.
Proof.
  intros Hw. destruct w as [|c r]; [done|]. split.
  - intros H [r' [= -> ->]]. by apply (ucapitalize_unstable r').
  - intros H. apply ucapitalize_stable. intros ->. apply H. eauto.
Qed.

Lemma utoken_lower t : Unicode.token t -> Unicode.token (Unicode.lower t).
Proof.
  intros [Hne Hns]. split.
  - destruct t as [|c r]; [done|]. inversion Hns as [|? ? Hc _]; subst.
    destruct (lower_full_token c Hc) as [Hc' _].
    change (Unicode.lower (c :: r)) with (Unicode.lower_full c ++ Unicode.lower r).
    by destruct (Unicode.lower_full c).
  - clear Hne. induction Hns as [|c r Hc _ IH]; [constructor|].
    change (Unicode.lower (c :: r)) with (Unicode.lower_full c ++ Unicode.lower r).
    apply Forall_app. split; [apply (lower_full_token c Hc)|done].
Qed.

Lemma utoken_capitalize t : Unicode.token t -> Unicode.token (Unicode.capitalize t).
Proof.
  intros [Hne Hns]. destruct t as [|c r]; [done|].
  inversion Hns as [|? ? Hc Hr]; subst.
  destruct (title_full_token c Hc) as [Hne' Hns']. split.
  - simpl. by destruct (Unicode.title_full c).
  - simpl. apply Forall_app. split; [done|].
    destruct r as [|c' r']; [constructor|]. by apply utoken_lower.
Qed.

Lemma usplit_from_run t : forall cur s,
  Forall (fun c => Unicode.isspace c = false) t ->
  Unicode.split_from cur (t ++ s) = Unicode.split_from (cur ++ t) s.
Proof.
  induction t as [|c t IH]; intros cur s Ht; simpl.
  - by rewrite app_nil_r.
  - inversion Ht as [|? ? Hc Ht']; subst. rewrite Hc, IH by done.
    by rewrite <- app_assoc.
Qed.

Lemma usplit_token t : Unicode.token t -> Unicode.split t = [t].
Proof.
  intros [Hne Hns]. unfold Unicode.split.
  rewrite <- (app_nil_r t) at 1. rewrite usplit_from_run by done.
  simpl. by destruct t.
Qed.

Lemma usplit_join ts :
  Forall Unicode.token ts ->
  Unicode.split (Unicode.join (Unicode.encode (lit " ")) ts) = ts.
Proof.
  induction ts as [|x [|y r] IH]; intros Hts.
  - reflexivity.
  - simpl. apply usplit_token. by inversion Hts.
  - inversion Hts as [|? ? [Hne Hns] Hr]; subst.
    change (Unicode.join (Unicode.encode (lit " ")) (x :: y :: r))
      with (x ++ 0x20%N :: Unicode.join (Unicode.encode (lit " ")) (y :: r)).
    unfold Unicode.split. rewrite usplit_from_run by done. simpl app.
    change (Unicode.split_from x (0x20%N :: ?s))
      with (match x with [] => Unicode.split_from [] s
                    | _ => x :: Unicode.split_from [] s end).
    destruct x; [done|]. f_equal. by apply IH.
Qed.

Lemma usplit_from_tokens s : forall cur,
  Forall (fun c => Unicode.isspace c = false) cur ->
  Forall Unicode.token (Unicode.split_from cur s) /\
  forall t c, t ∈ Unicode.split_from cur s -> c ∈ t -> c ∈ cur ++ s.
Proof.
  induction s as [|c s IH]; intros cur Hcur; simpl.
  - destruct cur as [|c0 cur0].
    + split; [constructor|]. by intros t c ?%elem_of_nil.
    + split; [constructor; [by split|constructor]|].
      intros t c ->%list_elem_of_singleton. by rewrite app_nil_r.
  - destruct (Unicode.isspace c) eqn:Hc.
    + destruct (IH [] ltac:(constructor)) as [Htok Hin].
      destruct cur as [|c0 cur0].
      * split; [done|]. intros t d Ht Hd. specialize (Hin t d Ht Hd). set_solver.
      * split; [constructor; [by split|done]|].
        intros t d [->|Ht]%elem_of_cons Hd; [set_solver|].
        specialize (Hin t d Ht Hd). set_solver.
    + destruct (IH (cur ++ [c])) as [Htok Hin].
      { apply Forall_app. split; [done|]. by constructor. }
      split; [done|]. intros t d Ht Hd. specialize (Hin t d Ht Hd).
      by rewrite <- app_assoc in Hin.
Qed.

Lemma usplit_tokens s : Forall Unicode.token (Unicode.split s).
Proof. apply usplit_from_tokens. constructor. Qed.

Lemma usplit_chars s t c : t ∈ Unicode.split s -> c ∈ t -> c ∈ s.
Proof.
  intros Ht Hc. destruct (usplit_from_tokens s [] ltac:(constructor)) as [_ H].
  exact (H t c Ht Hc).
Qed.

Section UnicodeNormalizer.

Variable listed : list Unicode.ustr.

Lemma unormalize_cons w0 ws :
  imap (Unicode.normalize_token listed) (w0 :: ws) =
  Unicode.capitalize w0 ::
  map (fun w => if Unicode.mem (Unicode.lower w) listed then Unicode.lower w else w) ws.
Proof. rewrite imap_cons. f_equal. apply (imap_const _ ws). Qed.

Lemma lowered_twice w :
  let lowered :=
    fun w => if Unicode.mem (Unicode.lower w) listed then Unicode.lower w else w in
  lowered (lowered w) = lowered w.
Proof.
  cbv zeta beta. destruct (Unicode.mem (Unicode.lower w) listed) eqn:Hm.
  - by rewrite ulower_idem, Hm.
  - by rewrite Hm.
Qed.

Lemma utokens_normalize ws :
  Forall Unicode.token ws -> Forall Unicode.token (imap (Unicode.normalize_token listed) ws).
Proof.
  intros Hws. destruct ws as [|w0 ws]; [constructor|].
  rewrite unormalize_cons. inversion Hws as [|? ? Hw0 Hr]; subst.
  constructor; [by apply utoken_capitalize|].
  apply Forall_fmap. eapply Forall_impl; [exact Hr|]. intros w Hw. simpl.
  destruct (Unicode.mem _ _); [by apply utoken_lower|done].
Qed.

(** Normalising the tokens a second time changes the first one at most,
    and changes it when it begins with U+0149. *)
Lemma unormalize_twice ws :
  Forall Unicode.token ws ->
  imap (Unicode.normalize_token listed) (imap (Unicode.normalize_token listed) ws) =
    imap (Unicode.normalize_token listed) ws <->
  ~ exists r ws', ws = (0x149%N :: r) :: ws'.
Proof.
  intros Hws. destruct ws as [|w0 ws].
  - split; [|done]. by intros _ (r & ws' & ?).
  - inversion Hws as [|? ? [Hne _] _]; subst.
    rewrite !unormalize_cons. rewrite <- list_fmap_compose.
    assert (Htail :
      forall f : Unicode.ustr -> Unicode.ustr,
        (forall w, f (f w) = f w) -> (f ∘ f) <$> ws = map f ws).
    { intros f Hf. apply list_fmap_ext. intros _ w _. apply Hf. }
    rewrite Htail by (intros w; apply (lowered_twice w)).
    split.
    + intros [= H] (r & ws' & [= -> ->]).
      by apply (ucapitalize_unstable r).
    + intros H. f_equal. apply ucapitalize_stable_iff; [done|].
      intros [r ->]. apply H. eauto.
Qed.

Lemma ujoin_normalize_twice p :
  let q := Unicode.join (Unicode.encode (lit " "))
             (imap (Unicode.normalize_token listed) (Unicode.split p)) in
  Unicode.split q = imap (Unicode.normalize_token listed) (Unicode.split p) /\
  (Unicode.join (Unicode.encode (lit " "))
     (imap (Unicode.normalize_token listed) (Unicode.split q)) = q <->
   ~ exists r ws, Unicode.split p = (0x149%N :: r) :: ws).
Proof.
  intros q.
  assert (Hq : Unicode.split q = imap (Unicode.normalize_token listed) (Unicode.split p)).
  { apply usplit_join, utokens_normalize, usplit_tokens. }
  split; [done|]. rewrite Hq, <- unormalize_twice by apply usplit_tokens. split.
  - intros H. apply (f_equal Unicode.split) in H. rewrite Hq in H.
    by rewrite usplit_join in H
      by apply utokens_normalize, utokens_normalize, usplit_tokens.
  - intros H. by rewrite H.
Qed.

End UnicodeNormalizer.

Lemma ufix_capitalization_tokens p :
  Unicode.fix_capitalization p =
  Unicode.join (Unicode.encode (lit " "))
    (imap (Unicode.normalize_token Unicode.lowercase_words) (Unicode.split p)).
Proof.
  unfold Unicode.fix_capitalization.
  destruct (Unicode.split p) as [|w [|w' ws]]; reflexivity.
Qed.

Lemma ufix_cap_tokens p :
  Unicode.fix_cap p =
  match Unicode.split p with
  | [] => None
  | ws => Some (Unicode.join (Unicode.encode (lit " "))
                  (imap (Unicode.normalize_token Unicode.lowercases) ws))
  end.
Proof.
  unfold Unicode.fix_cap.
  destruct (Unicode.split p) as [|w [|w' ws]]; try reflexivity.
  do 2 f_equal. rewrite imap_cons. f_equal.
  symmetry. apply (imap_const _ (w' :: ws)).
Qed.

Lemma ufix_cap_some p :
  Unicode.split p <> [] ->
  Unicode.fix_cap p =
  Some (Unicode.join (Unicode.encode (lit " "))
          (imap (Unicode.normalize_token Unicode.lowercases) (Unicode.split p))).
Proof. intros Hp. rewrite ufix_cap_tokens. by destruct (Unicode.split p). Qed.

(** On ASCII characters the tables above are those of [Py], and the
    normalisers over code points are the normalisers over [str]. *)
Lemma ascii_char_tables c :
  (Py.code c <? 128) = true ->
  Unicode.isspace (N_of_ascii c) = Py.isspace c /\
  Unicode.lower_full (N_of_ascii c) = [N_of_ascii (Py.char_lower c)] /\
  Unicode.title_full (N_of_ascii c) = [N_of_ascii (Py.char_upper c)] /\
  (Py.code (Py.char_lower c) <? 128) = true /\
  (Py.code (Py.char_upper c) <? 128) = true.
Proof.
  destruct c as [[] [] [] [] [] [] [] []]; intros H; vm_compute in H;
    try discriminate H; vm_compute; repeat split.
Qed.

Lemma encode_inj s1 s2 : Unicode.encode s1 = Unicode.encode s2 -> s1 = s2.
Proof.
  revert s2. induction s1 as [|c s1 IH]; intros [|d s2]; simpl; try done.
  intros [= Hc Hs]. f_equal; [|by apply IH].
  by rewrite <- (ascii_N_embedding c), <- (ascii_N_embedding d), Hc.
Qed.

Lemma encode_app s1 s2 : Unicode.encode (s1 ++ s2) = Unicode.encode s1 ++ Unicode.encode s2.
Proof. apply map_app. Qed.

Lemma isascii_cons c s :
  Py.isascii (c :: s) = true <-> (Py.code c <? 128) = true /\ Py.isascii s = true.
Proof. unfold Py.isascii. simpl. apply andb_true_iff. Qed.

Lemma isascii_app s1 s2 :
  Py.isascii (s1 ++ s2) = true <-> Py.isascii s1 = true /\ Py.isascii s2 = true.
Proof. unfold Py.isascii. rewrite forallb_app. apply andb_true_iff. Qed.

Lemma encode_lower s :
  Py.isascii s = true ->
  Unicode.lower (Unicode.encode s) = Unicode.encode (Py.lower s) /\
  Py.isascii (Py.lower s) = true.
Proof.
  induction s as [|c s IH]; [done|]. intros [Hc Hs]%isascii_cons.
  destruct (IH Hs) as [IH1 IH2].
  destruct (ascii_char_tables c Hc) as (_ & Hl & _ & Hl' & _). split.
  - change (Unicode.lower (Unicode.encode (c :: s)))
      with (Unicode.lower_full (N_of_ascii c) ++ Unicode.lower (Unicode.encode s)).
    by rewrite Hl, IH1.
  - change (Py.lower (c :: s)) with (Py.char_lower c :: Py.lower s).
    by apply isascii_cons.
Qed.

Lemma encode_capitalize s :
  Py.isascii s = true ->
  Unicode.capitalize (Unicode.encode s) = Unicode.encode (Py.capitalize s) /\
  Py.isascii (Py.capitalize s) = true.
Proof.
  destruct s as [|c s]; [done|]. intros [Hc Hs]%isascii_cons.
  destruct (encode_lower s Hs) as [Hl1 Hl2].
  destruct (ascii_char_tables c Hc) as (_ & _ & Ht & _ & Ht'). split.
  - change (Unicode.capitalize (Unicode.encode (c :: s)))
      with (Unicode.title_full (N_of_ascii c) ++ Unicode.lower (Unicode.encode s)).
    by rewrite Ht, Hl1.
  - change (Py.capitalize (c :: s)) with (Py.char_upper c :: Py.lower s).
    by apply isascii_cons.
Qed.

Lemma encode_split_from s : forall cur,
  Py.isascii s = true ->
  Unicode.split_from (Unicode.encode cur) (Unicode.encode s) =
  map Unicode.encode (Py.split_from cur s).
Proof.
  induction s as [|c s IH]; intros cur Hs.
  - by destruct cur.
  - apply isascii_cons in Hs as [Hc Hs].
    destruct (ascii_char_tables c Hc) as (Hsp & _).
    change (Unicode.encode (c :: s)) with (N_of_ascii c :: Unicode.encode s).
    cbn [Unicode.split_from Py.split_from]. rewrite Hsp.
    destruct (Py.isspace c).
    + destruct cur as [|c0 cur0].
      * apply (IH [] Hs).
      * change (Unicode.encode (c0 :: cur0)) with (N_of_ascii c0 :: Unicode.encode cur0).
        cbn [map]. f_equal. apply (IH [] Hs).
    + rewrite <- (IH (cur ++ [c]) Hs). by rewrite encode_app.
Qed.

Lemma encode_split s :
  Py.isascii s = true ->
  Unicode.split (Unicode.encode s) = map Unicode.encode (Py.split s).
Proof. apply (encode_split_from s []). Qed.

Lemma isascii_split_from s : forall cur,
  Py.isascii cur = true -> Py.isascii s = true ->
  Forall (fun t => Py.isascii t = true) (Py.split_from cur s).
Proof.
  induction s as [|c s IH]; intros cur Hcur Hs; simpl.
  - destruct cur; constructor; [done|constructor].
  - apply isascii_cons in Hs as [Hc Hs]. destruct (Py.isspace c).
    + destruct cur; [by apply IH|]. constructor; [done|by apply IH].
    + apply IH; [|done]. apply isascii_app. split; [done|]. by apply isascii_cons.
Qed.

Lemma encode_join ts :
  Unicode.join (Unicode.encode (lit " ")) (map Unicode.encode ts) =
  Unicode.encode (Py.join (lit " ") ts).
Proof.
  induction ts as [|x [|y r] IH]; [done|done|].
  change (Py.join (lit " ") (x :: y :: r)) with (x ++ lit " " ++ Py.join (lit " ") (y :: r)).
  rewrite !encode_app, <- IH. reflexivity.
Qed.

Lemma encode_mem x l : Unicode.mem (Unicode.encode x) (map Unicode.encode l) = Py.mem x l.
Proof.
  unfold Unicode.mem, Py.mem. apply bool_decide_ext. rewrite list_elem_of_fmap. split.
  - by intros (y & ->%encode_inj & Hy).
  - intros Hx. by exists x.
Qed.

Lemma encode_normalize_token listed i w :
  Py.isascii w = true ->
  Unicode.normalize_token (map Unicode.encode listed) i (Unicode.encode w) =
  Unicode.encode (normalize_token listed i w).
Proof.
  intros Hw. unfold Unicode.normalize_token, normalize_token.
  destruct (i =? 0); [by apply encode_capitalize|].
  destruct (encode_lower w Hw) as [-> _]. rewrite encode_mem.
  by destruct (Py.mem _ _).
Qed.

Lemma encode_imap_normalize listed ws :
  Forall (fun t => Py.isascii t = true) ws ->
  imap (Unicode.normalize_token (map Unicode.encode listed)) (map Unicode.encode ws) =
  map Unicode.encode (imap (normalize_token listed) ws).
Proof.
  intros Hws. apply list_eq. intros i.
  rewrite list_lookup_imap, !list_lookup_fmap, list_lookup_imap.
  destruct (ws !! i) as [w|] eqn:Hw; simpl; [|done].
  f_equal. apply encode_normalize_token. exact (Forall_lookup_1 _ _ _ _ Hws Hw).
Qed.

(** The normalisers over code points are those over [str] on every
    phrase of ASCII characters. *)
Lemma normalisers_on_ascii p :
  Py.isascii p = true ->
  Unicode.fix_capitalization (Unicode.encode p) =
    Unicode.encode (add_cards.fix_capitalization p) /\
  Unicode.fix_cap (Unicode.encode p) = Unicode.encode <$> add_more_cards.fix_cap p.
Proof.
  intros Hp.
  assert (Hts : Forall (fun t => Py.isascii t = true) (Py.split p))
    by (by apply isascii_split_from).
  split.
  - rewrite ufix_capitalization_tokens, fix_capitalization_tokens, encode_split by done.
    unfold Unicode.lowercase_words. by rewrite encode_imap_normalize, encode_join.
  - rewrite ufix_cap_tokens, fix_cap_tokens, encode_split by done.
    destruct (Py.split p) as [|w ws] eqn:Hsplit; [done|].
    change (map Unicode.encode (w :: ws)) with (Unicode.encode w :: map Unicode.encode ws).
    cbv iota. change (Unicode.encode w :: map Unicode.encode ws)
      with (map Unicode.encode (w :: ws)).
    unfold Unicode.lowercases. by rewrite encode_imap_normalize, encode_join.
Qed.

(** C6, amended.  Normalising twice gives the same phrase as normalising
    once for every phrase but those whose first token begins with the
    character U+0149, which [capitalize] turns into U+02BC "N" the first
    time and into U+02BC "n" the second; in particular for every phrase
    without that character.  The same holds of [fix_cap], which raises on
    a phrase without token both times. *)
Theorem Normalize_idempotent_but_for_U0149 p :
  (Unicode.fix_capitalization (Unicode.fix_capitalization p) = Unicode.fix_capitalization p
   <-> ~ exists r ws, Unicode.split p = (0x149%N :: r) :: ws) /\
  ((Unicode.fix_cap p ≫= Unicode.fix_cap) = Unicode.fix_cap p
   <-> ~ exists r ws, Unicode.split p = (0x149%N :: r) :: ws) /\
  ((0x149%N ∉ p) ->
   Unicode.fix_capitalization (Unicode.fix_capitalization p) = Unicode.fix_capitalization p /\
   (Unicode.fix_cap p ≫= Unicode.fix_cap) = Unicode.fix_cap p).
Proof.
  assert (H1 : Unicode.fix_capitalization (Unicode.fix_capitalization p) =
                 Unicode.fix_capitalization p
               <-> ~ exists r ws, Unicode.split p = (0x149%N :: r) :: ws).
  { rewrite (ufix_capitalization_tokens (Unicode.fix_capitalization p)).
    rewrite (ufix_capitalization_tokens p).
    apply (ujoin_normalize_twice Unicode.lowercase_words p). }
  assert (H2 : (Unicode.fix_cap p ≫= Unicode.fix_cap) = Unicode.fix_cap p
               <-> ~ exists r ws, Unicode.split p = (0x149%N :: r) :: ws).
  { destruct (Unicode.split p) as [|w ws] eqn:Hp.
    { rewrite ufix_cap_tokens, Hp. split; [|done]. by intros _ (r & ws' & ?). }
    rewrite <- Hp.
    destruct (ujoin_normalize_twice Unicode.lowercases p) as [Hq Hiff].
    rewrite Hq in Hiff.
    rewrite (ufix_cap_some p) by (by rewrite Hp).
    set (q := Unicode.join (Unicode.encode (lit " "))
                (imap (Unicode.normalize_token Unicode.lowercases) (Unicode.split p))) in *.
    change (Unicode.fix_cap q = Some q <-> ~ exists r ws, Unicode.split p = (0x149%N :: r) :: ws).
    rewrite (ufix_cap_some q) by (rewrite Hq, Hp; by rewrite imap_cons).
    rewrite Hq, <- Hiff. split; [by intros [= H]|by intros ->]. }
  split_and!; [done|done|].
  intros Hp.
  assert (Hno : ~ exists r ws, Unicode.split p = (0x149%N :: r) :: ws).
  { intros (r & ws & Hsplit). apply Hp.
    apply (usplit_chars p (0x149%N :: r)); [rewrite Hsplit|]; by left. }
  split; [by apply H1|by apply H2].
Qed.

Lemma Normalize_idempotent_but_for_U0149_witness :
  Unicode.fix_capitalization (Unicode.encode (lit "Ice cream")) =
  Unicode.encode (lit "Ice cream").
Proof.
  assert (Hp : 0x149%N ∉ Unicode.encode (lit "ice  Cream")).
  { intros H. apply list_elem_of_In in H. vm_compute in H. intuition discriminate. }
  pose proof (proj1 (proj2 (proj2 (Normalize_idempotent_but_for_U0149
                (Unicode.encode (lit "ice  Cream")))) Hp)) as H.
  exact H.
Defined.

(** C6, as stated, fails: the one-character phrase U+0149 is normalised
    to U+02BC "N", and that phrase to U+02BC "n". *)
Lemma apostrophe_n_is_normalised_twice :
  Unicode.fix_capitalization [0x149%N] = [0x2BC%N; 0x4E%N] /\
  Unicode.fix_capitalization [0x2BC%N; 0x4E%N] = [0x2BC%N; 0x6E%N] /\
  Unicode.fix_cap [0x149%N] = Some [0x2BC%N; 0x4E%N] /\
  Unicode.fix_cap [0x2BC%N; 0x4E%N] = Some [0x2BC%N; 0x6E%N] /\
  ~ (Unicode.fix_capitalization (Unicode.fix_capitalization [0x149%N]) =
     Unicode.fix_capitalization [0x149%N]).
Proof. split_and!; try (vm_compute; reflexivity). vm_compute. congruence. Qed.

(** ** Stem deduplication *)

Lemma dedupe_fold l :
  exists m,
    foldl review_cards.dedupe_step (∅, []) l = (m, review_cards.dedupe_taboo_words l) /\
    forall s, is_Some (m !! s) <-> s ∈ map review_cards.get_stem l.
Proof.
  unfold review_cards.dedupe_taboo_words.
  induction l as [|t l IH] using rev_ind.
  - exists ∅. split; [done|]. intros s. rewrite lookup_empty. simpl.
    split; [by intros [? ?]|by intros ?%elem_of_nil].
  - destruct IH as (m & Hm & Hdom). rewrite foldl_app, Hm. simpl.
    destruct (m !! review_cards.get_stem t) as [v|] eqn:Ht.
    + exists m. split; [done|]. intros s. rewrite map_app, elem_of_app, <- Hdom.
      simpl. rewrite list_elem_of_singleton. split; [tauto|].
      intros [?| ->]; [done|]. by rewrite Ht.
    + eexists. split; [done|]. intros s. rewrite map_app, elem_of_app, <- Hdom.
      simpl. rewrite list_elem_of_singleton, lookup_insert_is_Some.
      destruct (decide (review_cards.get_stem t = s)); intuition congruence.
Qed.

Lemma dedupe_snoc l t :
  review_cards.dedupe_taboo_words (l ++ [t]) =
  if decide (review_cards.get_stem t ∈ map review_cards.get_stem l)
  then review_cards.dedupe_taboo_words l
  else review_cards.dedupe_taboo_words l ++ [t].
Proof.
  destruct (dedupe_fold l) as (m & Hm & Hdom).
  unfold review_cards.dedupe_taboo_words at 1. rewrite foldl_app, Hm. simpl.
  destruct (m !! review_cards.get_stem t) eqn:Ht.
  - rewrite decide_True; [done|]. apply Hdom. by rewrite Ht.
  - rewrite decide_False; [done|]. rewrite <- Hdom, Ht. by intros [? ?].
Qed.

Lemma dedupe_stems l s :
  s ∈ map review_cards.get_stem (review_cards.dedupe_taboo_words l) <->
  s ∈ map review_cards.get_stem l.
Proof.
  induction l as [|t l IH] using rev_ind; [done|].
  rewrite dedupe_snoc. case_decide as Hin.
  - rewrite IH, map_app, elem_of_app. simpl. rewrite list_elem_of_singleton.
    split; [tauto|]. intros [?| ->]; done.
  - rewrite !map_app, !elem_of_app, IH. done.
Qed.

Lemma dedupe_sublist l : sublist (review_cards.dedupe_taboo_words l) l.
Proof.
  induction l as [|t l IH] using rev_ind; [done|].
  rewrite dedupe_snoc. case_decide.
  - by apply sublist_inserts_r.
  - by apply sublist_app.
Qed.

Lemma dedupe_NoDup l :
  NoDup (map review_cards.get_stem (review_cards.dedupe_taboo_words l)).
Proof.
  induction l as [|t l IH] using rev_ind; [constructor|].
  rewrite dedupe_snoc. case_decide as Hin; [done|].
  rewrite map_app. apply NoDup_app. split_and!; [done| |apply NoDup_singleton].
  intros s Hs ->%list_elem_of_singleton. by apply Hin, dedupe_stems.
Qed.

(** C7, at a failing input.  [dedupe_taboo_words] compares the stems
    that [get_stem] computes.  It reduces ["donut"; "donuts"] to
    ["donut"], but it keeps both "box" and "boxes": [get_stem] strips "s"
    from "boxes" and finds the stems "box" and "boxe", where the table of
    the specification gives the stem "box" to both.  The result has two
    entries of one stem class. *)
Theorem dedupe_keeps_box_and_boxes :
  review_cards.dedupe_taboo_words [lit "donut"; lit "donuts"] = [lit "donut"] /\
  review_cards.dedupe_taboo_words [lit "box"; lit "boxes"] = [lit "box"; lit "boxes"] /\
  Spec.Stem (lit "box") = Spec.Stem (lit "boxes") /\
  review_cards.get_stem (lit "box") = lit "box" /\
  review_cards.get_stem (lit "boxes") = lit "boxe".
Proof. split_and!; vm_compute; reflexivity. Qed.

(** ** Merging candidates into the collection *)

Lemma word_set_category k c : word (set_category k c) = word c.
Proof. reflexivity. Qed.

Lemma words_of_app l1 l2 :
  generate_cards.words_of (l1 ++ l2) =
  generate_cards.words_of l1 ∪ generate_cards.words_of l2.
Proof. unfold generate_cards.words_of. rewrite map_app. apply list_to_set_app_L. Qed.

Lemma words_of_singleton c : generate_cards.words_of [c] = {[Py.lower (word c)]}.
Proof. unfold generate_cards.words_of. simpl. apply (right_id_L ∅ (∪)). Qed.

Lemma merge_fold k E cards :
  exists new,
    foldl (generate_cards.merge_step k) (E, []) cards =
      (generate_cards.words_of new ∪ E, new) /\
    sublist new (map (set_category k) cards) /\
    generate_cards.words_of new ∪ E = generate_cards.words_of cards ∪ E.
Proof.
  induction cards as [|c cards IH] using rev_ind.
  - exists []. split_and!; [|done|done]. simpl. f_equal.
    symmetry. apply (left_id_L ∅ (∪)).
  - destruct IH as (new & Hf & Hsub & Hw). rewrite foldl_app, Hf. simpl.
    rewrite map_app, words_of_app, words_of_singleton. case_bool_decide as Hin.
    + exists new. split_and!; [done|by apply sublist_inserts_r|].
      rewrite Hw in Hin |- *. set_solver.
    + exists (new ++ [set_category k c]).
      rewrite words_of_app, words_of_singleton, word_set_category. split_and!.
      * f_equal. set_solver.
      * by apply sublist_app.
      * set_solver.
Qed.

Lemma Merge_app k base cards :
  exists new,
    generate_cards.Merge k base cards = base ++ new /\
    generate_cards.add_batch k (base, generate_cards.words_of base) cards =
      (base ++ new, generate_cards.words_of (base ++ new)) /\
    sublist new (map (set_category k) cards) /\
    generate_cards.words_of (base ++ new) = generate_cards.words_of (base ++ cards).
Proof.
  destruct (merge_fold k (generate_cards.words_of base) cards) as (new & Hf & Hsub & Hw).
  exists new. unfold generate_cards.Merge, generate_cards.add_batch. rewrite Hf. simpl.
  rewrite !words_of_app. split_and!; [done| |done|].
  - f_equal. apply (comm_L (∪)).
  - rewrite (comm_L (∪)), Hw. apply (comm_L (∪)).
Qed.

Lemma Merge_snoc k base cards c :
  generate_cards.Merge k base (cards ++ [c]) =
  if decide (Py.lower (word c) ∈ generate_cards.words_of (generate_cards.Merge k base cards))
  then generate_cards.Merge k base cards
  else generate_cards.Merge k base cards ++ [set_category k c].
Proof.
  destruct (merge_fold k (generate_cards.words_of base) cards) as (new & Hf & Hsub & Hw).
  unfold generate_cards.Merge, generate_cards.add_batch.
  rewrite foldl_app, Hf. simpl. rewrite words_of_app, (comm_L (∪)).
  case_bool_decide; [by rewrite decide_True|rewrite decide_False by done].
  simpl. by rewrite app_assoc.
Qed.

Lemma merge_fold_acc k cards : forall E acc,
  foldl (generate_cards.merge_step k) (E, acc) cards =
  (fst (foldl (generate_cards.merge_step k) (E, []) cards),
   acc ++ snd (foldl (generate_cards.merge_step k) (E, []) cards)).
Proof.
  induction cards as [|c cards IH]; intros E acc; simpl.
  - by rewrite app_nil_r.
  - case_bool_decide.
    + apply IH.
    + rewrite IH, (IH _ [_]). simpl. by rewrite <- app_assoc.
Qed.

Lemma add_loop_add_batch k new_cards : forall all_cards E,
  add_more_cards.add_loop k (all_cards, E) new_cards =
  generate_cards.add_batch k (all_cards, E) (add_more_cards.ready_cards new_cards).
Proof.
  unfold generate_cards.add_batch.
  induction new_cards as [|c rest IH]; intros all_cards E; simpl.
  - by rewrite app_nil_r.
  - destruct (add_more_cards.prepare c) as [|c'|]; simpl.
    + apply IH.
    + case_bool_decide; [apply IH|].
      rewrite IH, (merge_fold_acc _ _ _ [_]).
      destruct (foldl _ _ _) as [E' new]. simpl. by rewrite <- app_assoc.
    + by rewrite app_nil_r.
Qed.

(** C8.  Merge goes through the candidates in order and appends a
    candidate exactly when its lowercased word is not among the
    lowercased words of the collection built so far (the base and the
    candidates appended before it); the base stays as a prefix, unchanged
    and in order, the appended cards are a sub-sequence of the
    candidates, and the result has at most [len(base) + len(candidates)]
    cards.  The set [existing_words] kept by the loop is the set of words
    of the merged collection, so the next batch starts from the same
    invariant.  The loop of add_more_cards.py is this merge applied to
    the cards of the reply that pass its validation. *)
Theorem Merge_first_occurrence_wins k base :
  generate_cards.Merge k base [] = base /\
  (forall cands c,
     generate_cards.Merge k base (cands ++ [c]) =
     if decide (Py.lower (word c) ∈
                generate_cards.words_of (generate_cards.Merge k base cands))
     then generate_cards.Merge k base cands
     else generate_cards.Merge k base cands ++ [set_category k c]) /\
  (forall cands, take (length base) (generate_cards.Merge k base cands) = base) /\
  (forall cands, exists new,
     generate_cards.Merge k base cands = base ++ new /\
     sublist new (map (set_category k) cands)) /\
  (forall cands,
     length (generate_cards.Merge k base cands) <= length base + length cands) /\
  (forall cands,
     generate_cards.add_batch k (base, generate_cards.words_of base) cands =
     (generate_cards.Merge k base cands,
      generate_cards.words_of (generate_cards.Merge k base cands))) /\
  (forall new_cards,
     fst (add_more_cards.add_loop k (base, generate_cards.words_of base) new_cards) =
     generate_cards.Merge k base (add_more_cards.ready_cards new_cards)).
Proof.
  split_and!.
  - unfold generate_cards.Merge. simpl. apply app_nil_r.
  - apply Merge_snoc.
  - intros cands. destruct (Merge_app k base cands) as (new & -> & _).
    by rewrite take_app_length.
  - intros cands. destruct (Merge_app k base cands) as (new & -> & _ & Hsub & _). eauto.
  - intros cands. destruct (Merge_app k base cands) as (new & -> & _ & Hsub & _).
    apply sublist_length in Hsub. rewrite length_map in Hsub.
    rewrite length_app. lia.
  - intros cands. destruct (Merge_app k base cands) as (new & -> & Hb & _). done.
  - intros new_cards. by rewrite add_loop_add_batch.
Qed.

(** ** The taboo validator *)

Lemma eqb_eq a b : Py.eqb a b = true <-> a = b.
Proof. unfold Py.eqb. apply bool_decide_eq_true. Qed.

Lemma startswith_spec s p : Py.startswith s p = true <-> exists post, s = p ++ post.
Proof.
  revert s. induction p as [|a p IH]; intros s; simpl.
  - destruct s; split; eauto.
  - destruct s as [|b s]; simpl.
    + split; [done|]. by intros [? ?].
    + rewrite andb_true_iff, bool_decide_eq_true, IH. split.
      * intros [-> [post ->]]. eauto.
      * intros [post [= -> ->]]. eauto.
Qed.

Lemma contains_nil sub : Py.contains sub [] = Py.startswith [] sub.
Proof. by destruct sub. Qed.

Lemma contains_cons sub b s :
  Py.contains sub (b :: s) = Py.startswith (b :: s) sub || Py.contains sub s.
Proof. reflexivity. Qed.

Lemma contains_spec sub s : Py.contains sub s = true <-> Spec.substring sub s.
Proof.
  unfold Spec.substring. induction s as [|b s IH].
  - rewrite contains_nil, startswith_spec. split.
    + intros [post ->]. by exists [], post.
    + intros (pre & post & H). symmetry in H.
      apply app_eq_nil in H as [-> H]. apply app_eq_nil in H as [-> ->]. by exists [].
  - rewrite contains_cons, orb_true_iff, startswith_spec, IH. split.
    + intros [[post ->]|(pre & post & ->)]; [by exists [], post|by exists (b :: pre), post].
    + intros ([|b' pre] & post & H); simpl in H; [left; eauto|].
      injection H as -> ->. right. eauto.
Qed.

Lemma contains_char_spec c s : Py.contains_char c s = true <-> c ∈ s.
Proof.
  unfold Py.contains_char. rewrite contains_spec. unfold Spec.substring. split.
  - intros (pre & post & ->). set_solver.
  - intros (pre & post & ->)%list_elem_of_split. by exists pre, post.
Qed.

Lemma replace_space_empty s : Py.replace SPACE [] s = remove_spaces s.
Proof.
  unfold Py.replace, remove_spaces. induction s as [|c s IH]; simpl; [done|].
  rewrite IH. by case_bool_decide.
Qed.

Lemma lower_remove_spaces s : Py.lower (remove_spaces s) = remove_spaces (Py.lower s).
Proof.
  unfold remove_spaces. induction s as [|c s IH]; simpl; [done|].
  destruct (decide (c = SPACE)) as [->|Hc].
  - exact IH.
  - rewrite !bool_decide_eq_false_2 by (done || by rewrite char_lower_space).
    simpl. by rewrite IH.
Qed.

Lemma get_stem_lower w : clean_cards.get_stem (Py.lower w) = clean_cards.get_stem w.
Proof. unfold clean_cards.get_stem. by rewrite lower_idem. Qed.

Lemma is_bad_orb t c :
  clean_cards.is_bad t c =
  Py.contains_char SPACE (Py.strip c)
  || Py.eqb (Py.lower c) (remove_spaces (Py.lower t))
  || ((3 <=? length (Py.lower c)) && Py.contains (Py.lower c) (remove_spaces (Py.lower t)))
  || ((3 <=? length (remove_spaces (Py.lower t)))
      && Py.contains (remove_spaces (Py.lower t)) (Py.lower c))
  || Py.eqb (clean_cards.get_stem (remove_spaces t)) (clean_cards.get_stem c).
Proof.
  unfold clean_cards.is_bad, clean_cards.is_problematic_taboo.
  rewrite replace_space_empty, <- lower_remove_spaces, !get_stem_lower.
  repeat (match goal with |- context [if ?b then _ else _] => destruct b end; simpl; try done).
Qed.

Lemma add_cards_is_problematic_taboo t c :
  add_cards.is_problematic_taboo t c = clean_cards.is_bad t c.
Proof.
  unfold clean_cards.is_bad, clean_cards.is_problematic_taboo, add_cards.is_problematic_taboo.
  change add_cards.get_stem with clean_cards.get_stem.
  repeat (match goal with |- context [if ?b then _ else _] => destruct b end; simpl; try done).
Qed.

(** The verdict of the validator, rule by rule.  A candidate [c] is
    judged legal for the target [t] exactly when none of these holds:
    (1) the stripped candidate contains a space character; (2) the
    lowercased candidate equals the lowercased target with its spaces
    removed; (3) the lowercased candidate has at least 3 characters and
    occurs in that target; (4) that target has at least 3 characters and
    occurs in the lowercased candidate; (5) [get_stem] gives the same
    stem for the target without spaces and for the candidate. *)
Lemma is_problematic_taboo_five_rules t c :
  clean_cards.is_bad t c = false <->
  ~ (has_internal_space c \/
     Py.lower c = remove_spaces (Py.lower t) \/
     (3 <= length (Py.lower c) /\
      Spec.substring (Py.lower c) (remove_spaces (Py.lower t))) \/
     (3 <= length (remove_spaces (Py.lower t)) /\
      Spec.substring (remove_spaces (Py.lower t)) (Py.lower c)) \/
     clean_cards.get_stem (remove_spaces t) = clean_cards.get_stem c).
Proof.
  rewrite is_bad_orb, <- not_true_iff_false, !orb_true_iff, !andb_true_iff.
  rewrite contains_char_spec, !eqb_eq, !contains_spec, !Nat.leb_le.
  unfold has_internal_space. tauto.
Qed.

(** C2, at failing inputs.  The validator looks for the space character
    only and stems with [get_stem]: the clue "hot<TAB>lava" has internal
    whitespace (condition 1) and every copy of the validator judges it
    legal for "Volcano"; "kinder" has the stem of "Kindness" in the
    specification's table (condition 5) and is judged legal, because
    [get_stem] strips "s" from "kindness"; and the copy in
    add_more_cards.py, which has no fifth rule, judges "walked" legal for
    "Walks". *)
Theorem validator_judges_illegal_clues_legal :
  Spec.rule1 hot_tab_lava /\
  clean_cards.is_problematic_taboo (lit "Volcano") hot_tab_lava = (false, None) /\
  add_cards.is_problematic_taboo (lit "Volcano") hot_tab_lava = false /\
  add_more_cards.is_bad_taboo (lit "Volcano") hot_tab_lava = false /\
  Spec.rule5 (lit "Kindness") (lit "kinder") /\
  clean_cards.is_problematic_taboo (lit "Kindness") (lit "kinder") = (false, None) /\
  add_cards.is_problematic_taboo (lit "Kindness") (lit "kinder") = false /\
  Spec.rule5 (lit "Walks") (lit "walked") /\
  add_more_cards.is_bad_taboo (lit "Walks") (lit "walked") = false.
Proof.
  split_and!; try (vm_compute; reflexivity).
  exists TAB. split; [|reflexivity].
  replace (Py.strip hot_tab_lava) with hot_tab_lava by (vm_compute; reflexivity).
  unfold hot_tab_lava. set_solver.
Qed.

Example validator_examples :
  clean_cards.is_problematic_taboo (lit "Football") (lit "ball") =
    (true, Some clean_cards.substring_of_main) /\
  clean_cards.is_problematic_taboo (lit "Run") (lit "running") =
    (true, Some clean_cards.main_is_substring) /\
  clean_cards.is_problematic_taboo (lit "Volcano") (lit "lava") = (false, None) /\
  clean_cards.is_problematic_taboo (lit "Ice cream") (lit "ice cream") =
    (true, Some clean_cards.multi_word) /\
  clean_cards.is_problematic_taboo (lit "Ice cream") (lit "IceCream") =
    (true, Some clean_cards.exact_match).
Proof. split_and!; vm_compute; reflexivity. Qed.

(** The copy of the validator in add_more_cards.py stops after the
    fourth rule: "walked" passes for "Walks" there, and is rejected for
    its stem by the other copies. *)
Example is_bad_taboo_has_no_stem_rule :
  add_more_cards.is_bad_taboo (lit "Walks") (lit "walked") = false /\
  clean_cards.is_problematic_taboo (lit "Walks") (lit "walked") =
    (true, Some clean_cards.same_stem).
Proof. split; vm_compute; reflexivity. Qed.

Lemma lstrip_lower s : Py.lstrip (Py.lower s) = Py.lower (Py.lstrip s).
Proof.
  induction s as [|c s IH]; simpl; [done|].
  rewrite isspace_char_lower. by destruct (Py.isspace c).
Qed.

Lemma rstrip_lower s : Py.rstrip (Py.lower s) = Py.lower (Py.rstrip s).
Proof.
  unfold Py.rstrip.
  replace (rev (Py.lower s)) with (Py.lower (rev s)) by apply map_rev.
  rewrite lstrip_lower. symmetry. apply map_rev.
Qed.

Lemma strip_lower s : Py.strip (Py.lower s) = Py.lower (Py.strip s).
Proof. unfold Py.strip. by rewrite lstrip_lower, rstrip_lower. Qed.

Lemma contains_space_lower s :
  Py.contains_char SPACE (Py.lower s) = Py.contains_char SPACE s.
Proof.
  apply eq_iff_eq_true. rewrite !contains_char_spec. unfold Py.lower.
  rewrite list_elem_of_fmap. split.
  - intros (c & Hc & Hin). symmetry in Hc. by apply char_lower_space in Hc as ->.
  - intros Hin. by exists SPACE.
Qed.

Lemma is_bad_lower t c : clean_cards.is_bad t (Py.lower c) = clean_cards.is_bad t c.
Proof.
  rewrite !is_bad_orb.
  by rewrite strip_lower, contains_space_lower, lower_idem, get_stem_lower.
Qed.

(** The sibling path: every entry that the validation loop of
    [generate_cards_batch] keeps is legal for the card's word. *)
Lemma validate_card_taboos_legal c c' :
  add_cards.validate_card c = Some c' ->
  Forall (fun t => add_cards.is_problematic_taboo (word c') t = false) (taboo c').
Proof.
  unfold add_cards.validate_card. intros H.
  destruct (2 <? _); [done|]. destruct (3 <=? _); [|done].
  injection H as <-. simpl. apply Forall_take, Forall_fmap, Forall_forall.
  intros t Ht. apply list_elem_of_In, filter_In in Ht as [_ Ht]. simpl in *.
  rewrite add_cards_is_problematic_taboo, is_bad_lower, <- add_cards_is_problematic_taboo.
  by apply negb_true_iff.
Qed.

(** ** The repair passes *)

(** C3, at a failing input.  [clean_cards.main] on the single card
    "Football" with the taboo word "ball": when the service supplied no
    replacement the card is saved unchanged, the illegal "ball" included;
    when it supplied "foot", that word is appended unchecked although it
    is illegal too. *)
Theorem clean_cards_leaves_illegal_taboo :
  clean_cards.saved (clean_cards.main ∅ [football]) = Some [football] /\
  lit "ball" ∈ taboo football /\
  clean_cards.is_problematic_taboo (word football) (lit "ball") =
    (true, Some clean_cards.substring_of_main) /\
  clean_cards.saved (clean_cards.main foot_for_football [football]) =
    Some [set_taboo [lit "kick"; lit "soccer"; lit "goal"; lit "field"; lit "foot"] football] /\
  clean_cards.is_problematic_taboo (word football) (lit "foot") =
    (true, Some clean_cards.substring_of_main).
Proof.
  split_and!; try (vm_compute; reflexivity).
  unfold football. simpl. set_solver.
Qed.

Lemma word_supplement m new_taboos c : word (review_cards.supplement m new_taboos c) = word c.
Proof. unfold review_cards.supplement. by destruct (new_taboos !! word c). Qed.

Lemma words_supplement_batch m cards reply :
  map word (review_cards.supplement_batch m cards reply) = map word cards.
Proof.
  destruct reply as [new_taboos|]; simpl; [|done].
  rewrite map_map. apply map_ext. intros c. apply word_supplement.
Qed.

Lemma words_supplement_batches (m : gmap str str)
    (replies : nat -> option (gmap str (list str))) (batches : list nat) :
  forall cards : list card,
  map word
    (foldl (fun cs i => review_cards.supplement_batch m cs (replies i)) cards batches) =
  map word cards.
Proof.
  induction batches as [|i batches IH]; intros cards; simpl; [done|].
  by rewrite IH, words_supplement_batch.
Qed.

Lemma review_cards_keeps_words m replies cards :
  map word (review_cards.saved (review_cards.run m replies cards)) = map word cards.
Proof.
  unfold review_cards.run. simpl. rewrite words_supplement_batches.
  by rewrite !map_map.
Qed.

(** C4, as stated, fails: the card "Football" has a one-token word, but
    only two of its taboo words are legal and the validation loop of
    [generate_cards_batch] returns no card for it. *)
Lemma card_with_two_legal_taboos_is_dropped :
  ~ (length (Py.split (word football_weak)) <= 2 ->
     exists c', c' ∈ add_cards.generate_cards_batch (Some [football_weak])).
Proof.
  intros H. destruct H as [c' Hc']; [vm_compute; lia|].
  vm_compute in Hc'. by apply elem_of_nil in Hc'.
Qed.

Lemma filter_around {A} (f : A -> bool) l k x :
  l !! k = Some x -> f x = true ->
  List.filter f l = List.filter f (take k l) ++ x :: List.filter f (drop (S k) l).
Proof.
  intros Hk Hx. rewrite <- (take_drop_middle l k x Hk) at 1.
  rewrite List.filter_app. simpl. by rewrite Hx.
Qed.

Lemma supplement_batches_all_raise (m : gmap str str) (batches : list nat) :
  forall cards : list card,
  foldl (fun cs i => review_cards.supplement_batch m cs None) cards batches = cards.
Proof. induction batches as [|i batches IH]; intros cards; simpl; [done|apply IH]. Qed.

(** C4, amended.  For a card whose word has at most two tokens:
    [generate_cards_batch] keeps it exactly when at least 3 of its taboo
    words are legal for the normalised word, with the first five legal
    ones lowercased, so a card with 3 or 4 legal words is accepted as it
    is; with fewer the card is skipped; a call that raises gives the
    empty batch.  [review_cards] drops no card, whatever the calls of the
    supplementation pass return and also when they raise: the card is
    saved at its place, and when it has fewer than 5 taboo words it is
    counted in the number of cards still short that the final summary
    prints, and printed there with its taboo words when fewer than five
    short cards come before it.  When every call raises, the cards are
    saved as deduplication and recapitalisation left them. *)
Theorem short_cards_are_kept_and_reported c (Hc : length (Py.split (word c)) <= 2) :
  let w := add_cards.fix_capitalization (word c) in
  let legal :=
    List.filter (fun t => negb (add_cards.is_problematic_taboo w t)) (taboo c) in
  add_cards.validate_card c =
    (if 3 <=? length legal
     then Some {| word := w; taboo := take 5 (map Py.lower legal);
                  difficulty := difficulty c; category := category c |}
     else None) /\
  add_cards.generate_cards_batch None = [] /\
  (forall m replies pre post,
     let cards := pre ++ c :: post in
     let r := review_cards.run m replies cards in
     let s := review_cards.summary_of cards r in
     let short := fun c' : card => length (taboo c') <? 5 in
     length (review_cards.saved r) = length cards /\
     review_cards.total_cards s = length cards /\
     review_cards.still_short_count s = length (List.filter short (review_cards.saved r)) /\
     exists c',
       review_cards.saved r !! length pre = Some c' /\ word c' = word c /\
       (length (taboo c') < 5 ->
        let j := length (List.filter short (take (length pre) (review_cards.saved r))) in
        j < review_cards.still_short_count s /\
        (j < 5 ->
         review_cards.examples s !! j = Some (word c', taboo c', length (taboo c'))) /\
        (5 <= j -> length (review_cards.examples s) = 5))) /\
  (forall m cards,
     review_cards.saved (review_cards.run m (fun _ => None) cards) =
     map (fun c0 =>
            set_taboo (map (review_cards.recapitalize m)
                         (review_cards.dedupe_taboo_words (taboo c0))) c0) cards).
Proof.
  intros w legal. split_and!.
  - unfold add_cards.validate_card.
    apply Nat.ltb_ge in Hc. rewrite Hc. simpl. fold w. fold legal.
    rewrite length_map. by destruct (3 <=? length legal).
  - reflexivity.
  - intros m replies pre post cards r s short.
    pose proof (review_cards_keeps_words m replies cards) as Hwords. fold r in Hwords.
    assert (Hlen : length (review_cards.saved r) = length cards).
    { by rewrite <- (length_map word), Hwords, length_map. }
    assert (Hat : exists c', review_cards.saved r !! length pre = Some c' /\ word c' = word c).
    { assert (H : map word (review_cards.saved r) !! length pre = Some (word c)).
      { rewrite Hwords. unfold cards. rewrite map_app. simpl.
        rewrite lookup_app_r by (rewrite length_map; lia).
        by rewrite length_map, Nat.sub_diag. }
      apply list_lookup_fmap_Some in H as (c' & Hc' & Hw). eauto. }
    destruct Hat as (c' & Hc' & Hw).
    split_and!; [done|done|done|].
    exists c'. split_and!; [done|done|]. intros Hshort j.
    assert (Hsplit : review_cards.still_short r =
              List.filter short (take (length pre) (review_cards.saved r)) ++
              c' :: List.filter short (drop (S (length pre)) (review_cards.saved r))).
    { apply (filter_around short _ _ _ Hc'). by apply Nat.ltb_lt. }
    assert (Hj : review_cards.still_short r !! j = Some c').
    { rewrite Hsplit. by apply list_lookup_middle. }
    split_and!.
    + apply lookup_lt_Some in Hj. exact Hj.
    + intros Hj5. unfold s, review_cards.summary_of. cbn [review_cards.examples].
      rewrite list_lookup_fmap, lookup_take_lt by lia. by rewrite Hj.
    + intros Hj5. unfold s, review_cards.summary_of. cbn [review_cards.examples].
      rewrite length_map, length_take. apply lookup_lt_Some in Hj. lia.
  - intros m cards. unfold review_cards.run. cbn [review_cards.saved].
    rewrite supplement_batches_all_raise. by rewrite map_map.
Qed.

Lemma short_cards_are_kept_and_reported_witness :
  length (Py.split (word football)) <= 2 /\
  add_cards.validate_card football =
    Some (set_taboo [lit "kick"; lit "soccer"; lit "goal"; lit "field"] football).
Proof.
  assert (Hc : length (Py.split (word football)) <= 2) by (vm_compute; lia).
  split; [exact Hc|].
  destruct (short_cards_are_kept_and_reported football Hc) as [H _].
  rewrite H. vm_compute. reflexivity.
Defined.

Lemma word_apply_fix repl c : word (clean_cards.apply_fix repl c) = word c.
Proof.
  unfold clean_cards.apply_fix. destruct (clean_cards.needs_fix c); [|done].
  by destruct (repl !! word c).
Qed.

Lemma clean_cards_main_words repl file :
  map word (clean_cards.cards (clean_cards.main repl file)) =
  map word (List.filter (fun c => length (Py.split (word c)) <=? 2) file).
Proof.
  unfold clean_cards.main. destruct (List.filter clean_cards.needs_fix _); simpl; [done|].
  rewrite map_map. apply map_ext. intros x. apply word_apply_fix.
Qed.

Lemma validate_card_tokens c c' :
  add_cards.validate_card c = Some c' -> length (Py.split (word c')) <= 2.
Proof.
  unfold add_cards.validate_card. intros H.
  destruct (2 <? _) eqn:Hlen; [done|]. destruct (3 <=? _); [|done].
  injection H as <-. simpl. rewrite split_fix_capitalization, length_imap.
  by apply Nat.ltb_ge.
Qed.

Lemma generate_cards_batch_tokens reply :
  Forall (fun c => length (Py.split (word c)) <= 2) (add_cards.generate_cards_batch reply).
Proof.
  destruct reply as [cards|]; simpl; [|constructor].
  apply Forall_forall. intros c' (c & _ & Hc)%list_elem_of_omap.
  by eapply validate_card_tokens.
Qed.

Lemma clean_cards_main_tokens repl file :
  Forall (fun c => length (Py.split (word c)) <= 2)
    (clean_cards.cards (clean_cards.main repl file)).
Proof.
  apply Forall_forall. intros c Hc.
  assert (Hw : word c ∈ map word (clean_cards.cards (clean_cards.main repl file)))
    by (apply list_elem_of_fmap; eauto).
  rewrite clean_cards_main_words in Hw.
  apply list_elem_of_fmap in Hw as (c0 & -> & Hc0).
  apply list_elem_of_In, filter_In in Hc0 as [_ Hc0]. by apply Nat.leb_le.
Qed.

(** What both passes compute.  A card whose word has three or more
    whitespace-separated tokens is left out without any repair: the
    validation loop of [generate_cards_batch] skips it and
    [clean_cards.main] filters it out of its variable [cards] first, so
    either pass computes what it computes without the card, and no card
    of either result has a word of three or more tokens. *)
Lemma three_token_cards_are_skipped c (Hc : 2 < length (Py.split (word c))) :
  add_cards.validate_card c = None /\
  (forall pre post,
     add_cards.generate_cards_batch (Some (pre ++ c :: post)) =
     add_cards.generate_cards_batch (Some (pre ++ post))) /\
  (forall repl pre post,
     clean_cards.main repl (pre ++ c :: post) = clean_cards.main repl (pre ++ post)) /\
  (forall reply,
     Forall (fun c' => length (Py.split (word c')) <= 2)
       (add_cards.generate_cards_batch reply)) /\
  (forall repl file,
     Forall (fun c' => length (Py.split (word c')) <= 2)
       (clean_cards.cards (clean_cards.main repl file))).
Proof.
  assert (Hv : add_cards.validate_card c = None).
  { unfold add_cards.validate_card. apply Nat.ltb_lt in Hc. by rewrite Hc. }
  split_and!.
  - exact Hv.
  - intros pre post. simpl. rewrite !omap_app. simpl. by rewrite Hv.
  - intros repl pre post. unfold clean_cards.main.
    rewrite !List.filter_app. simpl.
    apply Nat.leb_gt in Hc. by rewrite Hc.
  - apply generate_cards_batch_tokens.
  - apply clean_cards_main_tokens.
Qed.

Lemma filter_none {A} (f : A -> bool) l :
  Forall (fun x => f x = false) l -> List.filter f l = [].
Proof. induction 1 as [|x l Hx _ IH]; simpl; [done|]. by rewrite Hx. Qed.

(** C9, at failing inputs.  [clean_cards.main] removes the cards of
    three or more tokens from its variable [cards], but it writes
    cards.json in step 5 only: when none of the cards of at most two
    tokens has a problematic taboo word it returns before, nothing is
    written, and every card of three or more tokens is still in
    cards.json after the run. *)
Theorem clean_cards_leaves_long_words_on_disk repl file c
    (Hin : c ∈ file) (Hlong : 2 < length (Py.split (word c)))
    (Hclean : Forall (fun k => length (Py.split (word k)) <= 2 ->
                               clean_cards.needs_fix k = false) file) :
  let o := clean_cards.main repl file in
  (c ∉ clean_cards.cards o) /\
  clean_cards.saved o = None /\
  clean_cards.file_after file o = file /\
  c ∈ clean_cards.file_after file o.
Proof.
  intros o.
  assert (Hcards : clean_cards.cards o =
            List.filter (fun k => length (Py.split (word k)) <=? 2) file
          /\ clean_cards.saved o = None).
  { unfold o, clean_cards.main.
    rewrite filter_none; [done|]. apply Forall_forall. intros k Hk.
    apply list_elem_of_In, filter_In in Hk as [Hk Hshort].
    eapply Forall_forall in Hclean; [|apply list_elem_of_In; exact Hk].
    apply Hclean. by apply Nat.leb_le. }
  destruct Hcards as [Hcards Hsaved].
  assert (Hfile : clean_cards.file_after file o = file).
  { unfold clean_cards.file_after. by rewrite Hsaved. }
  split_and!; [|done|done|by rewrite Hfile].
  rewrite Hcards. intros Hc. apply list_elem_of_In, filter_In in Hc as [_ Hc].
  apply Nat.leb_le in Hc. lia.
Qed.

Lemma clean_cards_leaves_long_words_on_disk_witness :
  clean_cards.file_after [volcano; birthday_party_cake]
    (clean_cards.main ∅ [volcano; birthday_party_cake]) = [volcano; birthday_party_cake] /\
  clean_cards.cards (clean_cards.main ∅ [volcano; birthday_party_cake]) = [volcano].
Proof.
  assert (Hin : birthday_party_cake ∈ [volcano; birthday_party_cake])
    by (apply list_elem_of_In; simpl; auto).
  assert (Hlong : 2 < length (Py.split (word birthday_party_cake))) by (vm_compute; lia).
  assert (Hclean : Forall (fun k => length (Py.split (word k)) <= 2 ->
                                    clean_cards.needs_fix k = false)
                     [volcano; birthday_party_cake]).
  { constructor; [intros _; vm_compute; reflexivity|].
    constructor; [intros H; exfalso; lia|constructor]. }
  split.
  - exact (proj1 (proj2 (proj2
      (clean_cards_leaves_long_words_on_disk ∅ _ _ Hin Hlong Hclean)))).
  - vm_compute. reflexivity.
Defined.

(** ** The stemmer *)

Lemma endswith_spec w suffix :
  Py.endswith w suffix = true <-> exists pre, w = pre ++ suffix.
Proof.
  unfold Py.endswith. rewrite andb_true_iff, Nat.leb_le, eqb_eq. split.
  - intros [Hlen Hdrop]. exists (take (length w - length suffix) w).
    rewrite <- (take_drop (length w - length suffix) w) at 1. by rewrite Hdrop.
  - intros [pre ->]. rewrite length_app. split; [lia|].
    replace (length pre + length suffix - length suffix) with (length pre) by lia.
    by rewrite drop_app_length.
Qed.

Lemma endswith_rev w suffix :
  Py.endswith w suffix = Py.startswith (rev w) (rev suffix).
Proof.
  apply eq_iff_eq_true. rewrite endswith_spec, startswith_spec. split.
  - intros [pre ->]. exists (rev pre). apply rev_app_distr.
  - intros [post H]. exists (rev post).
    rewrite <- (rev_involutive w), H, rev_app_distr. by rewrite rev_involutive.
Qed.

(** C1, at a failing input.  Both copies of [get_stem] test the suffix
    "s" before "es", "ies" and "ness": "boxes" is stemmed to "boxe" and
    "kindness" to "kindnes", where the priority order of the
    specification gives "box" and "kind". *)
Theorem get_stem_strips_s_before_es :
  review_cards.get_stem (lit "boxes") = lit "boxe" /\
  clean_cards.get_stem (lit "boxes") = lit "boxe" /\
  Spec.Stem (lit "boxes") = lit "box" /\
  review_cards.get_stem (lit "kindness") = lit "kindnes" /\
  Spec.Stem (lit "kindness") = lit "kind".
Proof. split_and!; vm_compute; reflexivity. Qed.

Ltac split_last_chars rw :=
  destruct rw as [|? [|? [|? [|? rw]]]]; simpl;
  repeat (case_bool_decide; subst; simpl; try done; try congruence);
  try reflexivity.

(** The entries "es", "ies" and "ness" of the table of [get_stem] are
    never reached: a word that passes their test passes the test of "s",
    which comes first. *)
Lemma get_stem_shadowed_suffixes w :
  review_cards.get_stem w =
  strip_first_suffix (Py.lower w)
    [lit "ing"; lit "ed"; lit "er"; lit "est"; lit "ly"; lit "s"; lit "tion"; lit "ment"].
Proof.
  unfold review_cards.get_stem, review_cards.suffixes, strip_first_suffix.
  rewrite !endswith_rev. generalize (length (Py.lower w)). intros n.
  generalize (Py.slice_to_neg (Py.lower w)). intros slice.
  generalize (rev (Py.lower w)). intros rw.
  change (rev (lit "ing")) with (lit "gni"). change (rev (lit "ed")) with (lit "de").
  change (rev (lit "er")) with (lit "re"). change (rev (lit "est")) with (lit "tse").
  change (rev (lit "ly")) with (lit "yl"). change (rev (lit "s")) with (lit "s").
  change (rev (lit "es")) with (lit "se"). change (rev (lit "ies")) with (lit "sei").
  change (rev (lit "tion")) with (lit "noit"). change (rev (lit "ness")) with (lit "ssen").
  change (rev (lit "ment")) with (lit "tnem").
  simpl length. simpl Nat.add.
  destruct (3 <? n) eqn:H3; [|
    assert ((4 <? n) = false) as -> by (apply Nat.ltb_ge; apply Nat.ltb_ge in H3; lia);
    assert ((5 <? n) = false) as -> by (apply Nat.ltb_ge; apply Nat.ltb_ge in H3; lia);
    assert ((6 <? n) = false) as -> by (apply Nat.ltb_ge; apply Nat.ltb_ge in H3; lia);
    by rewrite !andb_false_r ].
  destruct (4 <? n), (5 <? n), (6 <? n); rewrite ?andb_true_r, ?andb_false_r;
    split_last_chars rw.
Qed.

Ltac split_last_chars_in_context rw :=
  destruct rw as [|? [|? [|? [|? rw]]]]; simpl in *;
  repeat (case_bool_decide; subst; simpl in *; try done; try congruence);
  try reflexivity; try (destruct rw; simpl in *; done).

(** Apart from the words caught by that slip, those whose lowercase ends
    in "es" (5 characters or more) or in "ness" (7 or more), [get_stem]
    is the stemmer of the specification. *)
Lemma get_stem_is_Stem_off_shadowed w :
  Py.endswith (Py.lower w) (lit "es") && (4 <? length (Py.lower w)) = false ->
  Py.endswith (Py.lower w) (lit "ness") && (6 <? length (Py.lower w)) = false ->
  review_cards.get_stem w = Spec.Stem w.
Proof.
  unfold review_cards.get_stem, Spec.Stem, review_cards.suffixes, Spec.suffixes,
    strip_first_suffix.
  rewrite !endswith_rev. generalize (length (Py.lower w)). intros n.
  generalize (Py.slice_to_neg (Py.lower w)). intros slice.
  generalize (rev (Py.lower w)). intros rw.
  change (rev (lit "ing")) with (lit "gni"). change (rev (lit "ed")) with (lit "de").
  change (rev (lit "er")) with (lit "re"). change (rev (lit "est")) with (lit "tse").
  change (rev (lit "ly")) with (lit "yl"). change (rev (lit "s")) with (lit "s").
  change (rev (lit "es")) with (lit "se"). change (rev (lit "ies")) with (lit "sei").
  change (rev (lit "tion")) with (lit "noit"). change (rev (lit "ness")) with (lit "ssen").
  change (rev (lit "ment")) with (lit "tnem").
  simpl length. simpl Nat.add. intros Hes Hness.
  destruct (3 <? n) eqn:H3; [|
    assert ((4 <? n) = false) as -> by (apply Nat.ltb_ge; apply Nat.ltb_ge in H3; lia);
    assert ((5 <? n) = false) as -> by (apply Nat.ltb_ge; apply Nat.ltb_ge in H3; lia);
    assert ((6 <? n) = false) as -> by (apply Nat.ltb_ge; apply Nat.ltb_ge in H3; lia);
    by rewrite !andb_false_r ].
  destruct (4 <? n) eqn:H4, (5 <? n) eqn:H5, (6 <? n) eqn:H6;
    rewrite ?andb_true_r, ?andb_false_r in *;
    try (exfalso; apply Nat.ltb_lt in H5 || apply Nat.ltb_lt in H6;
         apply Nat.ltb_ge in H4 || apply Nat.ltb_ge in H5; lia);
    split_last_chars_in_context rw.
Qed.

(** * Further properties of the scripts *)

(** ** Stems *)

Lemma endswith_drop w suffix :
  Py.endswith w suffix = true -> suffix <> [] ->
  w = Py.slice_to_neg w (length suffix) ++ suffix.
Proof.
  intros [pre ->]%endswith_spec Hne. unfold Py.slice_to_neg.
  destruct suffix as [|a suffix]; [done|]. simpl Nat.eqb. cbv iota.
  rewrite length_app.
  replace (length pre + length (a :: suffix) - length (a :: suffix)) with (length pre) by lia.
  by rewrite take_app_length.
Qed.

Lemma strip_first_suffix_cases w suffixes :
  Forall (fun suffix => suffix <> []) suffixes ->
  strip_first_suffix w suffixes = w \/
  exists suffix, suffix ∈ suffixes /\
    w = strip_first_suffix w suffixes ++ suffix /\
    3 <= length (strip_first_suffix w suffixes).
Proof.
  induction 1 as [|suffix suffixes Hne _ IH]; simpl; [by left|].
  destruct (Py.endswith w suffix && _) eqn:Hc.
  - right. apply andb_true_iff in Hc as [Hend Hlen]. apply Nat.ltb_lt in Hlen.
    exists suffix. pose proof (endswith_drop _ _ Hend Hne) as Hw.
    split_and!; [by left|done|].
    apply (f_equal length) in Hw. rewrite length_app in Hw. lia.
  - destruct IH as [IH|(suffix' & Hin & Hw & Hlen)]; [by left|].
    right. exists suffix'. split_and!; [by right|done|done].
Qed.

(** A stem is the lowercased word itself or what is left of it after one
    suffix of the table has been cut off its end, and in that case it
    keeps at least three characters. *)
Theorem get_stem_is_prefix w :
  (review_cards.get_stem w = Py.lower w \/
   exists suffix, suffix ∈ review_cards.suffixes /\
     Py.lower w = review_cards.get_stem w ++ suffix /\
     3 <= length (review_cards.get_stem w)) /\
  (clean_cards.get_stem w = Py.lower w \/
   exists suffix, suffix ∈ clean_cards.suffixes /\
     Py.lower w = clean_cards.get_stem w ++ suffix /\
     3 <= length (clean_cards.get_stem w)).
Proof.
  split; apply strip_first_suffix_cases; repeat constructor; discriminate.
Qed.

(** ** The validator and the normalised word *)

Lemma is_bad_target t t' c :
  remove_spaces (Py.lower t) = remove_spaces (Py.lower t') ->
  clean_cards.is_bad t c = clean_cards.is_bad t' c.
Proof.
  intros H. rewrite !is_bad_orb.
  rewrite <- (get_stem_lower (remove_spaces t)), <- (get_stem_lower (remove_spaces t')).
  by rewrite !lower_remove_spaces, H.
Qed.

Lemma remove_spaces_idem s : remove_spaces (remove_spaces s) = remove_spaces s.
Proof.
  unfold remove_spaces. induction s as [|c s IH]; simpl; [done|].
  destruct (negb _) eqn:Hc; simpl; rewrite ?Hc, IH; done.
Qed.

Lemma remove_spaces_nospace s :
  Forall (fun c => Py.isspace c = false) s -> remove_spaces s = s.
Proof.
  unfold remove_spaces. induction 1 as [|c s Hc _ IH]; simpl; [done|].
  rewrite IH. case_bool_decide as Hsp; [|done]. by rewrite Hsp in Hc.
Qed.

Lemma remove_spaces_app s1 s2 :
  remove_spaces (s1 ++ s2) = remove_spaces s1 ++ remove_spaces s2.
Proof. apply List.filter_app. Qed.

Lemma remove_spaces_join ts :
  Forall token ts -> remove_spaces (Py.join (lit " ") ts) = concat ts.
Proof.
  induction ts as [|x [|y r] IH]; intros Hts.
  - reflexivity.
  - inversion Hts as [|? ? [_ Hx] _]; subst. simpl.
    rewrite app_nil_r. by apply remove_spaces_nospace.
  - inversion Hts as [|? ? [_ Hx] Hr]; subst.
    change (Py.join (lit " ") (x :: y :: r))
      with (x ++ SPACE :: Py.join (lit " ") (y :: r)).
    rewrite remove_spaces_app, (remove_spaces_nospace x) by done.
    change (remove_spaces (SPACE :: ?s)) with (remove_spaces s).
    by rewrite IH.
Qed.

Lemma concat_split_from s : forall cur,
  concat (Py.split_from cur s) = cur ++ Spec.remove_whitespace s.
Proof.
  unfold Spec.remove_whitespace.
  induction s as [|c s IH]; intros cur; simpl.
  - destruct cur; simpl; by rewrite ?app_nil_r.
  - destruct (Py.isspace c); simpl.
    + destruct cur; simpl; by rewrite IH.
    + by rewrite IH, <- app_assoc.
Qed.

Lemma concat_split s : concat (Py.split s) = Spec.remove_whitespace s.
Proof. apply (concat_split_from s []). Qed.

Lemma lower_concat ts : Py.lower (concat ts) = concat (map Py.lower ts).
Proof.
  induction ts as [|t ts IH]; simpl; [done|].
  unfold Py.lower in *. by rewrite map_app, IH.
Qed.

Lemma char_lower_upper c : Py.char_lower (Py.char_upper c) = Py.char_lower c.
Proof. by_cases_on_char c. Qed.

(** An identity of the ASCII tables. *)
Lemma lower_capitalize t : Py.lower (Py.capitalize t) = Py.lower t.
Proof.
  destruct t as [|c r]; simpl; [done|].
  rewrite char_lower_upper. f_equal. apply lower_idem.
Qed.

Lemma lower_normalize_token listed i t :
  Py.lower (normalize_token listed i t) = Py.lower t.
Proof.
  unfold normalize_token. destruct (i =? 0); [apply lower_capitalize|].
  destruct (Py.mem _ _); [apply lower_idem|done].
Qed.

Lemma lower_join sep ts :
  Py.lower (Py.join sep ts) = Py.join (Py.lower sep) (map Py.lower ts).
Proof.
  induction ts as [|x [|y r] IH]; [done|done|].
  change (Py.join sep (x :: y :: r)) with (x ++ sep ++ Py.join sep (y :: r)).
  unfold Py.lower in *. rewrite !map_app, IH. reflexivity.
Qed.

Lemma tokens_lower ts : Forall token ts -> Forall token (map Py.lower ts).
Proof. intros Hts. apply Forall_fmap. eapply Forall_impl; [done|]. apply token_lower. Qed.

Lemma target_key_fix_capitalization w :
  remove_spaces (Py.lower (add_cards.fix_capitalization w)) =
  Py.lower (Spec.remove_whitespace w).
Proof.
  rewrite fix_capitalization_tokens, lower_join.
  change (Py.lower (lit " ")) with (lit " ").
  rewrite remove_spaces_join
    by apply tokens_lower, tokens_imap_normalize, split_tokens.
  rewrite <- concat_split, lower_concat. f_equal.
  apply list_eq. intros i. rewrite !list_lookup_fmap, list_lookup_imap.
  destruct (Py.split w !! i); simpl; [|done]. by rewrite lower_normalize_token.
Qed.

Lemma nospace_remove_whitespace s :
  Forall (fun c => Py.isspace c = false) (Spec.remove_whitespace s).
Proof.
  unfold Spec.remove_whitespace. apply Forall_forall. intros c Hc.
  apply list_elem_of_In, filter_In in Hc as [_ Hc]. by apply negb_true_iff.
Qed.

(** The validator reads its target only through the lowercased target
    without space characters, and its candidate without regard to case.
    Against the normalised form of a word of ASCII characters it
    therefore decides as it would against the original word with all its
    whitespace removed. *)
Theorem validator_ignores_case_and_blanks t c :
  clean_cards.is_bad (Py.lower t) c = clean_cards.is_bad t c /\
  clean_cards.is_bad (remove_spaces t) c = clean_cards.is_bad t c /\
  clean_cards.is_bad t (Py.lower c) = clean_cards.is_bad t c /\
  (Py.isascii t = true ->
   add_cards.is_problematic_taboo (add_cards.fix_capitalization t) c =
     add_cards.is_problematic_taboo (Spec.remove_whitespace t) c).
Proof.
  split_and!.
  - apply is_bad_target. by rewrite lower_idem.
  - apply is_bad_target. by rewrite <- lower_remove_spaces, remove_spaces_idem, lower_remove_spaces.
  - apply is_bad_lower.
  - intros _. rewrite !add_cards_is_problematic_taboo. apply is_bad_target.
    rewrite target_key_fix_capitalization. symmetry.
    apply remove_spaces_nospace, nospace_lower, nospace_remove_whitespace.
Qed.

Lemma validator_ignores_case_and_blanks_witness :
  add_cards.is_problematic_taboo (lit "Ice cream") (lit "icecream") =
  add_cards.is_problematic_taboo (lit "icecream") (lit "icecream").
Proof.
  exact (proj2 (proj2 (proj2
    (validator_ignores_case_and_blanks (lit "ice  cream") (lit "icecream")))) eq_refl).
Defined.

(** ** Duplicate forms *)

Lemma dedupe_NoDup_id l :
  NoDup (map review_cards.get_stem l) -> review_cards.dedupe_taboo_words l = l.
Proof.
  induction l as [|t l IH] using rev_ind; [done|].
  rewrite map_app. intros (Hl & Hdis & _)%NoDup_app.
  rewrite dedupe_snoc, decide_False, IH; [done|done|].
  intros Hin. eapply Hdis; [done|]. simpl. by left.
Qed.

(** Deduplicating twice changes nothing more; a list comes back
    unchanged exactly when its stems are pairwise distinct; and the
    result is never longer than the input. *)
Theorem dedupe_taboo_words_idempotent l :
  review_cards.dedupe_taboo_words (review_cards.dedupe_taboo_words l) =
    review_cards.dedupe_taboo_words l /\
  (review_cards.dedupe_taboo_words l = l <-> NoDup (map review_cards.get_stem l)) /\
  length (review_cards.dedupe_taboo_words l) <= length l.
Proof.
  split_and!.
  - apply dedupe_NoDup_id, dedupe_NoDup.
  - split; [intros <-; apply dedupe_NoDup|apply dedupe_NoDup_id].
  - apply sublist_length, dedupe_sublist.
Qed.

Lemma duplicates_fold l :
  exists m,
    foldl review_cards.dedupe_step (∅, []) l = (m, review_cards.dedupe_taboo_words l) /\
    foldl review_cards.duplicates_step (∅, []) l =
      (m, review_cards.find_duplicate_forms l) /\
    forall s first, m !! s = Some first ->
      review_cards.get_stem first = s /\ first ∈ review_cards.dedupe_taboo_words l.
Proof.
  unfold review_cards.dedupe_taboo_words, review_cards.find_duplicate_forms.
  induction l as [|t l IH] using rev_ind.
  - exists ∅. split_and!; [done|done|]. intros s first. by rewrite lookup_empty.
  - destruct IH as (m & Hd & Hf & Hm). rewrite !foldl_app, Hd, Hf. simpl.
    destruct (m !! review_cards.get_stem t) as [first|] eqn:Ht.
    + exists m. split_and!; [done|done|]. intros s f Hs.
      destruct (Hm s f Hs) as [? ?]. simpl in *. done.
    + eexists. split_and!; [done|done|]. intros s f. simpl.
      rewrite lookup_insert_Some. intros [[<- <-]|[_ Hs]].
      * split; [done|]. apply elem_of_app. right. by left.
      * destruct (Hm s f Hs) as [? ?]. split; [done|]. apply elem_of_app. by left.
Qed.

Lemma find_duplicate_forms_snoc l t :
  review_cards.find_duplicate_forms (l ++ [t]) =
  review_cards.find_duplicate_forms l ++
  (if decide (review_cards.get_stem t ∈ map review_cards.get_stem l)
   then match List.find (fun x => bool_decide (review_cards.get_stem x = review_cards.get_stem t))
                (review_cards.dedupe_taboo_words l) with
        | Some first => [(first, t)]
        | None => []
        end
   else []).
Proof.
  destruct (duplicates_fold l) as (m & Hd & Hf & Hm).
  destruct (dedupe_fold l) as (m' & Hd' & Hdom).
  rewrite Hd in Hd'. injection Hd' as <-.
  unfold review_cards.find_duplicate_forms at 1. rewrite foldl_app, Hf. simpl.
  destruct (m !! review_cards.get_stem t) as [first|] eqn:Ht; simpl.
  - rewrite decide_True by (apply Hdom; by rewrite Ht).
    destruct (Hm _ _ Ht) as [Hstem Hin].
    destruct (List.find _ _) as [x|] eqn:Hfind.
    + apply find_some in Hfind as [Hx Hsx]. apply bool_decide_eq_true in Hsx.
      do 3 f_equal.
      pose proof (dedupe_NoDup l) as Hnd.
      apply list_elem_of_In in Hx.
      apply list_elem_of_lookup in Hx as [i Hi]. apply list_elem_of_lookup in Hin as [j Hj].
      assert (i = j); [|congruence].
      eapply NoDup_lookup; [exact Hnd| |].
      * rewrite list_lookup_fmap, Hi. simpl. by rewrite Hsx.
      * rewrite list_lookup_fmap, Hj. simpl. by rewrite Hstem.
    + exfalso. eapply find_none in Hfind; [|apply list_elem_of_In; exact Hin].
      apply bool_decide_eq_false in Hfind. done.
  - rewrite decide_False; [by rewrite app_nil_r|].
    rewrite <- Hdom, Ht. by intros [? ?].
Qed.

Lemma first_with_stem l t :
  review_cards.get_stem t ∈ map review_cards.get_stem l ->
  exists first,
    List.find (fun x => bool_decide (review_cards.get_stem x = review_cards.get_stem t))
      (review_cards.dedupe_taboo_words l) = Some first /\
    review_cards.get_stem first = review_cards.get_stem t /\
    first ∈ review_cards.dedupe_taboo_words l.
Proof.
  intros Hin. apply dedupe_stems, list_elem_of_fmap in Hin as (x & Hx & Hxin).
  destruct (List.find _ _) as [first|] eqn:Hfind.
  - exists first. apply find_some in Hfind as [Hf Hs].
    apply bool_decide_eq_true in Hs. split_and!; [done|done|by apply list_elem_of_In].
  - eapply find_none in Hfind; [|apply list_elem_of_In; exact Hxin].
    apply bool_decide_eq_false in Hfind. done.
Qed.

(** [find_duplicate_forms] reports exactly the entries that
    [dedupe_taboo_words] removes, each paired with the kept entry of the
    same stem: the kept entries and the reported ones make up the input,
    and nothing is reported exactly when all stems are distinct. *)
Theorem find_duplicate_forms_reports_removed l :
  length (review_cards.find_duplicate_forms l) +
    length (review_cards.dedupe_taboo_words l) = length l /\
  Forall (fun p => review_cards.get_stem p.1 = review_cards.get_stem p.2 /\
                   p.1 ∈ review_cards.dedupe_taboo_words l /\ p.2 ∈ l)
    (review_cards.find_duplicate_forms l) /\
  review_cards.dedupe_taboo_words l ++ map snd (review_cards.find_duplicate_forms l) ≡ₚ l /\
  (review_cards.find_duplicate_forms l = [] <-> NoDup (map review_cards.get_stem l)).
Proof.
  induction l as [|t l (IHlen & IHall & IHperm & IHnil)] using rev_ind.
  - split_and!; [done|constructor|done|]. split; [constructor|done].
  - rewrite find_duplicate_forms_snoc, dedupe_snoc. case_decide as Hin.
    + destruct (first_with_stem l t Hin) as (first & -> & Hstem & Hfirst).
      split_and!.
      * rewrite !length_app. simpl. lia.
      * apply Forall_app. split.
        -- eapply Forall_impl; [exact IHall|]. intros p (? & ? & ?).
           split_and!; [done|done|]. apply elem_of_app. by left.
        -- constructor; [|constructor]. simpl. split_and!; [done|done|].
           apply elem_of_app. right. by left.
      * rewrite map_app. simpl. by rewrite app_assoc, IHperm.
      * split; [by intros ?%app_eq_nil%proj2|].
        rewrite map_app. intros (_ & Hdis & _)%NoDup_app. exfalso.
        eapply Hdis; [exact Hin|]. simpl. by left.
    + rewrite app_nil_r. split_and!.
      * rewrite !length_app. simpl. lia.
      * eapply Forall_impl; [exact IHall|]. intros p (? & ? & ?).
        split_and!; [done| |]; apply elem_of_app; by left.
      * transitivity
          ((review_cards.dedupe_taboo_words l ++
            map snd (review_cards.find_duplicate_forms l)) ++ [t]);
          [|by rewrite IHperm].
        rewrite <- !app_assoc. apply Permutation_app_head, Permutation_app_comm.
      * rewrite IHnil, map_app. split.
        -- intros Hnd. apply NoDup_app. split_and!; [done| |apply NoDup_singleton].
           intros s Hs ->%list_elem_of_singleton. done.
        -- by intros (? & _)%NoDup_app.
Qed.

(** ** Supplementing short cards *)

Lemma add_new_taboo_fold m news : forall E taboo,
  exists chosen,
    snd (foldl (review_cards.add_new_taboo m) (E, taboo) news) =
      taboo ++ map (review_cards.recapitalize m) chosen /\
    sublist chosen news /\
    length chosen <= 5 - length taboo /\
    NoDup (map Py.lower chosen) /\
    Forall (fun n => Py.lower n ∉ E) chosen.
Proof.
  induction news as [|n news IH]; intros E taboo; simpl.
  - exists []. split_and!; [by rewrite app_nil_r|done|simpl; lia|constructor|constructor].
  - destruct (negb _ && _) eqn:Hc.
    + apply andb_true_iff in Hc as [Hn Hlen].
      apply negb_true_iff, bool_decide_eq_false in Hn. apply Nat.ltb_lt in Hlen.
      destruct (IH ({[Py.lower n]} ∪ E) (taboo ++ [review_cards.recapitalize m n]))
        as (chosen & Heq & Hsub & Hlen' & Hnd & Hall).
      exists (n :: chosen). split_and!.
      * rewrite Heq. by rewrite <- app_assoc.
      * by apply sublist_skip.
      * rewrite length_app in Hlen'. simpl in *. lia.
      * simpl. apply NoDup_cons. split; [|done].
        intros (x & Hx & Hxin)%list_elem_of_fmap.
        eapply Forall_forall in Hall; [|exact Hxin]. set_solver.
      * constructor; [done|]. eapply Forall_impl; [exact Hall|]. set_solver.
    + destruct (IH E taboo) as (chosen & Heq & Hsub & Hlen' & Hnd & Hall).
      exists chosen. split_and!; [done|by apply sublist_cons|done|done|done].
Qed.

Lemma supplement_extends m new_taboos c :
  extends c (review_cards.supplement m new_taboos c).
Proof.
  unfold review_cards.supplement, extends.
  destruct (new_taboos !! word c) as [news|]; simpl; [|split_and!; try done; lia].
  match goal with
  | |- context [foldl _ (?E, ?t) news] =>
      destruct (add_new_taboo_fold m news E t) as (chosen & Heq & _ & Hlen & _)
  end.
  rewrite Heq. split_and!; try done; [by apply prefix_app_r|].
  rewrite length_app, length_map. lia.
Qed.

(** One reply of the service only appends to a card: the taboo words it
    had stay in place, the appended ones are suggestions of the reply for
    that card's word, in order, whose lowercase is new to the card and
    pairwise distinct, and the card never goes beyond five taboo words
    through it.  A card that has five already, or that the reply does
    not mention, is left as it is. *)
Theorem supplement_only_appends m new_taboos c :
  exists chosen,
    taboo (review_cards.supplement m new_taboos c) =
      taboo c ++ map (review_cards.recapitalize m) chosen /\
    sublist chosen (default [] (new_taboos !! word c)) /\
    length chosen <= 5 - length (taboo c) /\
    NoDup (map Py.lower chosen) /\
    Forall (fun n => Py.lower n ∉ map Py.lower (taboo c)) chosen /\
    extends c (review_cards.supplement m new_taboos c).
Proof.
  unfold review_cards.supplement.
  destruct (new_taboos !! word c) as [news|]; simpl.
  - match goal with
    | |- context [foldl _ (?E, ?t) news] =>
        destruct (add_new_taboo_fold m news E t) as (chosen & Heq & Hsub & Hlen & Hnd & Hall)
    end.
    exists chosen. rewrite Heq. split_and!; try done.
    + eapply Forall_impl; [exact Hall|]. intros n Hn Hin. apply Hn.
      by apply elem_of_list_to_set.
    + unfold extends. simpl. split_and!; try done.
      * by apply prefix_app_r.
      * rewrite length_app, length_map. lia.
  - exists []. rewrite app_nil_r.
    split_and!; [done|done|simpl; lia|apply NoDup_nil_2|apply Forall_nil_2|].
    unfold extends. split_and!; try done. lia.
Qed.

Lemma extends_refl c : extends c c.
Proof. unfold extends. split_and!; try done. lia. Qed.

Lemma extends_trans c1 c2 c3 : extends c1 c2 -> extends c2 c3 -> extends c1 c3.
Proof.
  unfold extends. intros (? & ? & ? & Hp1 & ?) (? & ? & ? & Hp2 & ?).
  split_and!; try congruence; [by etrans|lia].
Qed.

Lemma supplement_batch_extends m cards reply :
  Forall2 extends cards (review_cards.supplement_batch m cards reply).
Proof.
  destruct reply as [new_taboos|]; simpl.
  - apply Forall2_fmap_r, Forall_Forall2_diag, Forall_forall. intros c _.
    apply supplement_extends.
  - apply Forall_Forall2_diag, Forall_forall. intros c _. apply extends_refl.
Qed.

Lemma supplement_batches_extend (m : gmap str str)
    (replies : nat -> option (gmap str (list str))) (batches : list nat) :
  forall cards : list card,
  Forall2 extends cards
    (foldl (fun cs i => review_cards.supplement_batch m cs (replies i)) cards batches).
Proof.
  induction batches as [|i batches IH]; intros cards; simpl.
  - apply Forall_Forall2_diag, Forall_forall. intros c _. apply extends_refl.
  - eapply Forall2_trans; [|apply supplement_batch_extends|apply IH].
    intros ? ? ?. apply extends_trans.
Qed.

Lemma Forall2_map_left {A B C} (P : B -> C -> Prop) (f : A -> B) l k :
  Forall2 P (map f l) k <-> Forall2 (fun x => P (f x)) l k.
Proof.
  revert k. induction l as [|x l IH]; intros k; simpl.
  - split; inversion 1; constructor.
  - split; inversion 1; subst; constructor; try done; by apply IH.
Qed.

Lemma short_cards_shrink (l1 l2 : list card) :
  Forall2 (fun a b => length (taboo a) <= length (taboo b)) l1 l2 ->
  length (List.filter review_cards.is_short l2) <=
  length (List.filter review_cards.is_short l1).
Proof.
  induction 1 as [|a b l1 l2 Hab _ IH]; simpl; [done|].
  destruct (review_cards.is_short b) eqn:Hb, (review_cards.is_short a) eqn:Ha;
    simpl; try lia.
  unfold review_cards.is_short in *.
  apply Nat.ltb_lt in Hb. apply Nat.ltb_ge in Ha. lia.
Qed.

(** The review script keeps every card, in order, with its word,
    difficulty and category: what it saves for a card is the card with
    its taboo list deduplicated and recapitalised, followed by what the
    replies appended, never beyond five words.  The cards reported still
    short at the end are never more than those found short after
    deduplication. *)
Theorem review_run_extends_cards (m : gmap str str)
    (replies : nat -> option (gmap str (list str))) (cards : list card) :
  let r := review_cards.run m replies cards in
  Forall2
    (fun c c' =>
       extends
         (set_taboo
            (map (review_cards.recapitalize m) (review_cards.dedupe_taboo_words (taboo c))) c)
         c')
    cards (review_cards.saved r) /\
  length (review_cards.still_short r) <= length (review_cards.cards_needing_taboos r).
Proof.
  simpl.
  match goal with
  | |- context [foldl ?f ?cs ?bs] =>
      pose proof (supplement_batches_extend m replies bs cs) as H
  end.
  do 2 apply (proj1 (Forall2_map_left _ _ _ _)) in H. split.
  - eapply Forall2_impl; [exact H|]. done.
  - apply short_cards_shrink, Forall2_map_left.
    eapply Forall2_impl; [exact H|].
    intros c c' (_ & _ & _ & Hp & _). simpl in *.
    apply prefix_length in Hp. by rewrite length_map in Hp.
Qed.

(** ** Replacing problematic taboo words *)

Lemma pad_with_clue_length ts :
  length ts <= 5 -> length (clean_cards.pad_with_clue ts) = 5.
Proof.
  intros H. unfold clean_cards.pad_with_clue. rewrite length_app, length_replicate. lia.
Qed.

(** A card with a problematic taboo word for which the service sent a
    list of replacements, even an empty one, ends with exactly five taboo
    words: its legal words first, in order (the first five of them), then
    replacements, then the filler.  Only its taboo list changes. *)
Theorem apply_fix_gives_five_taboos repl c new_taboos
    (Hfix : clean_cards.needs_fix c = true) (Hnew : repl !! word c = Some new_taboos) :
  let c' := clean_cards.apply_fix repl c in
  length (taboo c') = 5 /\
  take 5 (clean_cards.good_taboos c) `prefix_of` taboo c' /\
  Forall (fun t => clean_cards.is_bad (word c) t = false) (take 5 (clean_cards.good_taboos c)) /\
  word c' = word c /\ difficulty c' = difficulty c /\ category c' = category c.
Proof.
  unfold clean_cards.apply_fix. rewrite Hfix, Hnew. simpl. split_and!; try done.
  - apply pad_with_clue_length. rewrite length_take. lia.
  - unfold clean_cards.pad_with_clue. rewrite take_app.
    rewrite <- app_assoc. by apply prefix_app_r.
  - apply Forall_take, Forall_forall. intros t Ht.
    apply list_elem_of_In, filter_In in Ht as [_ Ht]. by apply negb_true_iff.
Qed.

Lemma apply_fix_gives_five_taboos_witness :
  clean_cards.needs_fix football = true /\
  length (taboo (clean_cards.apply_fix foot_for_football football)) = 5.
Proof.
  assert (Hfix : clean_cards.needs_fix football = true) by (vm_compute; reflexivity).
  assert (Hnew : foot_for_football !! word football = Some [lit "foot"])
    by (vm_compute; reflexivity).
  split; [exact Hfix|].
  exact (proj1 (apply_fix_gives_five_taboos _ _ _ Hfix Hnew)).
Defined.

Lemma apply_fix_no_need repl c : clean_cards.needs_fix c = false -> clean_cards.apply_fix repl c = c.
Proof. intros H. unfold clean_cards.apply_fix. by rewrite H. Qed.

Lemma filter_nil_Forall {A} (f : A -> bool) l :
  List.filter f l = [] <-> Forall (fun x => f x = false) l.
Proof.
  induction l as [|x l IH]; simpl.
  - split; [constructor|done].
  - destruct (f x) eqn:Hx.
    + split; [done|]. inversion 1; congruence.
    + rewrite IH. split; [by constructor|by inversion 1].
Qed.

(** What [clean_cards.main] computes is always the cards of at most two
    tokens, each one passed through the fix of step 4; and it writes
    cards.json exactly when at least one of those cards has a problematic
    taboo word, what it writes being what it computed. *)
Theorem clean_cards_main_outcome repl file :
  let kept := List.filter (fun c => length (Py.split (word c)) <=? 2) file in
  let o := clean_cards.main repl file in
  clean_cards.cards o = map (clean_cards.apply_fix repl) kept /\
  (clean_cards.saved o = None <-> Forall (fun c => clean_cards.bad_taboos c = []) kept) /\
  (clean_cards.saved o = None \/ clean_cards.saved o = Some (clean_cards.cards o)) /\
  length (clean_cards.cards o) = length kept.
Proof.
  intros kept o. unfold o, clean_cards.main. fold kept.
  assert (Hneed : forall c, clean_cards.needs_fix c = false <-> clean_cards.bad_taboos c = []).
  { intros c. unfold clean_cards.needs_fix. by destruct (clean_cards.bad_taboos c). }
  destruct (List.filter clean_cards.needs_fix kept) as [|c0 rest] eqn:Hf; simpl.
  - apply filter_nil_Forall in Hf. split_and!; [|split; [|done]|by left|done].
    + symmetry. rewrite <- (map_id kept) at 2. apply map_ext_in.
      intros c Hc%list_elem_of_In. apply apply_fix_no_need.
      eapply Forall_forall in Hf; eauto.
    + intros _. eapply Forall_impl; [exact Hf|]. intros c. apply Hneed.
  - split_and!; [done| |by right|by rewrite length_map].
    split; [done|]. intros Hall. exfalso.
    assert (Hin : c0 ∈ List.filter clean_cards.needs_fix kept) by (rewrite Hf; by left).
    apply list_elem_of_In, filter_In in Hin as [Hin Hc0].
    eapply Forall_forall in Hall; [|apply list_elem_of_In; exact Hin].
    apply Hneed in Hall. congruence.
Qed.

(** ** Validated cards *)

(** On the ASCII tables of [Py]. *)
Lemma fix_capitalization_fixed p :
  add_cards.fix_capitalization (add_cards.fix_capitalization p) =
  add_cards.fix_capitalization p.
Proof.
  rewrite (fix_capitalization_tokens (add_cards.fix_capitalization p)).
  rewrite split_fix_capitalization, imap_normalize_idem.
  symmetry. apply fix_capitalization_tokens.
Qed.

Lemma filter_all {A} (f : A -> bool) l :
  Forall (fun x => f x = true) l -> List.filter f l = l.
Proof.
  induction 1 as [|x l Hx _ IH]; simpl; [done|]. by rewrite Hx, IH.
Qed.

Lemma map_lower_fixed ts : Forall (fun t => Py.lower t = t) ts -> map Py.lower ts = ts.
Proof. induction 1 as [|t ts Ht _ IH]; simpl; [done|]. by rewrite Ht, IH. Qed.

(** A card that passes the validation loop of [generate_cards_batch] has
    a normalised word, between three and five taboo words, all lowercase
    and legal for its word, and the difficulty and category it came with.
    When its word has ASCII characters only, validating it again returns
    it unchanged. *)
Theorem validate_card_result c c' (Hc : add_cards.validate_card c = Some c') :
  word c' = add_cards.fix_capitalization (word c) /\
  3 <= length (taboo c') <= 5 /\
  Forall (fun t => Py.lower t = t) (taboo c') /\
  Forall (fun t => add_cards.is_problematic_taboo (word c') t = false) (taboo c') /\
  difficulty c' = difficulty c /\ category c' = category c /\
  (Py.isascii (word c) = true -> add_cards.validate_card c' = Some c').
Proof.
  pose proof (validate_card_taboos_legal c c' Hc) as Hlegal.
  pose proof (validate_card_tokens c c' Hc) as Htok.
  unfold add_cards.validate_card in Hc.
  destruct (2 <? _) eqn:Hlen; [done|].
  destruct (3 <=? _) eqn:H3; [|done]. apply Nat.leb_le in H3.
  injection Hc as <-. simpl in *.
  assert (Hlow : Forall (fun t => Py.lower t = t)
            (take 5 (map Py.lower
               (List.filter
                  (fun t => negb (add_cards.is_problematic_taboo
                                    (add_cards.fix_capitalization (word c)) t))
                  (taboo c))))).
  { apply Forall_take, Forall_fmap, Forall_forall. intros t _. apply lower_idem. }
  split_and!; try done.
  - rewrite length_take. lia.
  - rewrite length_take. lia.
  - intros _. unfold add_cards.validate_card. simpl.
    apply Nat.ltb_ge in Htok. rewrite Htok.
    rewrite fix_capitalization_fixed.
    rewrite filter_all
      by (eapply Forall_impl; [exact Hlegal|]; by intros t ->).
    rewrite map_lower_fixed by done.
    rewrite take_take, Nat.min_id.
    match goal with
    | |- context [length ?l] =>
        assert (3 <= length l) as Hl by (rewrite length_take; lia);
        destruct (length l) as [|[|[|n]]]; [lia|lia|lia|reflexivity]
    end.
Qed.

Lemma validate_card_result_witness :
  add_cards.validate_card
    (set_taboo [lit "kick"; lit "soccer"; lit "goal"; lit "field"] football) =
  Some (set_taboo [lit "kick"; lit "soccer"; lit "goal"; lit "field"] football).
Proof.
  assert (Hc : add_cards.validate_card football =
               Some (set_taboo [lit "kick"; lit "soccer"; lit "goal"; lit "field"] football))
    by (vm_compute; reflexivity).
  apply (validate_card_result _ _ Hc). reflexivity.
Defined.

(** ** [is_proper_noun] *)

(** [is_proper_noun] never raises: it reads [word[0]] only when the
    phrase has exactly one token, so the phrase is not empty.  It answers
    yes only for a one-token phrase that begins with an uppercase letter,
    hence without leading whitespace, and whose lowercase is not a listed
    common word. *)
Theorem is_proper_noun_never_raises w :
  (exists b, add_cards.is_proper_noun w = Some b) /\
  (add_cards.is_proper_noun w = Some true <->
   length (Py.split w) = 1 /\ (Py.lower w ∉ add_cards.common_words) /\
   exists c r, w = c :: r /\ Py.isupper c = true).
Proof.
  unfold add_cards.is_proper_noun, Py.mem.
  destruct (length (Py.split w) =? 1) eqn:Hlen.
  - apply Nat.eqb_eq in Hlen. case_bool_decide as Hcommon; simpl.
    + split; [eauto|]. split; [done|]. by intros (_ & ? & _).
    + destruct w as [|c r]; [done|]. split; [eauto|]. split.
      * intros [= Hc]. split_and!; eauto.
      * intros (_ & _ & c' & r' & [= <- <-] & ->). done.
  - apply Nat.eqb_neq in Hlen. split; [eauto|]. split; [done|]. by intros (? & _).
Qed.

(** ** More on merging *)

Lemma NoDup_snoc_words (l : list card) c :
  NoDup (map (fun c => Py.lower (word c)) l) ->
  Py.lower (word c) ∉ generate_cards.words_of l ->
  NoDup (map (fun c => Py.lower (word c)) (l ++ [c])).
Proof.
  intros Hnd Hc. rewrite map_app. apply NoDup_app. split_and!; [done| |apply NoDup_singleton].
  intros w Hw ->%list_elem_of_singleton. apply Hc.
  unfold generate_cards.words_of. by apply elem_of_list_to_set.
Qed.

Lemma Merge_two_batches k base cands1 cands2 :
  generate_cards.Merge k (generate_cards.Merge k base cands1) cands2 =
  generate_cards.Merge k base (cands1 ++ cands2).
Proof.
  induction cands2 as [|c cands2 IH] using rev_ind.
  - rewrite app_nil_r. unfold generate_cards.Merge at 1. simpl. apply app_nil_r.
  - rewrite app_assoc, !Merge_snoc, IH. done.
Qed.

Lemma Merge_words k base cands :
  generate_cards.words_of (generate_cards.Merge k base cands) =
  generate_cards.words_of base ∪ generate_cards.words_of cands.
Proof.
  destruct (Merge_app k base cands) as (new & -> & _ & _ & ->). apply words_of_app.
Qed.

(** Merging keeps a collection free of duplicate words, loses no
    candidate word, can be done batch after batch with the result of one
    merge of the concatenated batches, and adds nothing when the same
    batch is merged again. *)
Theorem Merge_keeps_words_unique k base cands :
  (NoDup (map (fun c => Py.lower (word c)) base) ->
   NoDup (map (fun c => Py.lower (word c)) (generate_cards.Merge k base cands))) /\
  generate_cards.words_of (generate_cards.Merge k base cands) =
    generate_cards.words_of base ∪ generate_cards.words_of cands /\
  (forall cands',
     generate_cards.Merge k (generate_cards.Merge k base cands) cands' =
     generate_cards.Merge k base (cands ++ cands')) /\
  generate_cards.Merge k (generate_cards.Merge k base cands) cands =
    generate_cards.Merge k base cands.
Proof.
  split_and!.
  - intros Hbase. induction cands as [|c cands IH] using rev_ind.
    + unfold generate_cards.Merge. simpl. by rewrite app_nil_r.
    + rewrite Merge_snoc. case_decide; [done|]. by apply NoDup_snoc_words.
  - apply Merge_words.
  - intros cands'. apply Merge_two_batches.
  - assert (Hsub : forall cs, generate_cards.words_of cs ⊆ generate_cards.words_of cands ->
              generate_cards.Merge k (generate_cards.Merge k base cands) cs =
              generate_cards.Merge k base cands).
    { induction cs as [|c cs IH] using rev_ind; intros Hcs.
      - unfold generate_cards.Merge at 1. simpl. apply app_nil_r.
      - rewrite words_of_app, words_of_singleton in Hcs.
        rewrite Merge_snoc, IH by set_solver.
        rewrite decide_True; [done|]. rewrite Merge_words. set_solver. }
    by apply Hsub.
Qed.

Lemma Merge_keeps_words_unique_witness :
  NoDup (map (fun c => Py.lower (word c))
           (generate_cards.Merge (lit "Sports") [football] [football_weak; birthday_party_cake])).
Proof.
  apply (Merge_keeps_words_unique (lit "Sports") [football] [football_weak; birthday_party_cake]).
  simpl. apply NoDup_singleton.
Defined.

(** ** The loop of add_more_cards.py *)

Lemma add_loop_stops_at_raise k c post :
  add_more_cards.prepare c = add_more_cards.Raise ->
  forall pre st,
    add_more_cards.add_loop k st (pre ++ c :: post) = add_more_cards.add_loop k st pre.
Proof.
  intros Hc. induction pre as [|x pre IH]; intros st; simpl.
  - by rewrite Hc.
  - destruct (add_more_cards.prepare x); [apply IH| |done].
    case_bool_decide; apply IH.
Qed.

(** A card whose word has no token makes [fix_cap] raise, and only such
    a card does; the [except] clause then ends the batch, so the cards
    that follow it in the reply are never looked at, while those appended
    before it stay. *)
Theorem add_more_cards_batch_ends_at_empty_word c (Hc : Py.split (word c) = []) :
  add_more_cards.prepare c = add_more_cards.Raise /\
  (forall c0, add_more_cards.prepare c0 = add_more_cards.Raise -> Py.split (word c0) = []) /\
  (forall k st pre post,
     add_more_cards.add_loop k st (pre ++ c :: post) = add_more_cards.add_loop k st pre).
Proof.
  assert (Hr : add_more_cards.prepare c = add_more_cards.Raise).
  { unfold add_more_cards.prepare, add_more_cards.fix_cap. by rewrite Hc. }
  split_and!; [done| |].
  - intros c0 H0. destruct (decide (Py.split (word c0) = [])) as [|Hne]; [done|].
    exfalso. unfold add_more_cards.prepare in H0.
    destruct (2 <? _); [done|]. rewrite fix_cap_some in H0 by done.
    cbv beta iota zeta in H0.
    match type of H0 with (if ?b then _ else _) = _ => by destruct b end.
  - intros k st pre post. by apply add_loop_stops_at_raise.
Qed.

Lemma add_more_cards_batch_ends_at_empty_word_witness :
  fst (add_more_cards.add_loop (lit "Sports") ([], ∅) [football; nameless; birthday_party_cake]) =
  fst (add_more_cards.add_loop (lit "Sports") ([], ∅) [football]).
Proof.
  assert (Hc : Py.split (word nameless) = []) by reflexivity.
  destruct (add_more_cards_batch_ends_at_empty_word nameless Hc) as (_ & _ & H).
  by rewrite (H (lit "Sports") ([], ∅) [football] [birthday_party_cake]).
Defined.

Lemma is_bad_taboo_lower m t :
  add_more_cards.is_bad_taboo m (Py.lower t) = add_more_cards.is_bad_taboo m t.
Proof.
  unfold add_more_cards.is_bad_taboo.
  by rewrite strip_lower, contains_space_lower, lower_idem.
Qed.

(** A card that the loop of add_more_cards.py gets ready to append has a
    normalised word of one or two tokens and between three and five
    taboo words, all lowercase and accepted by [is_bad_taboo] for that
    word. *)
Theorem add_more_cards_ready_card c c' (Hc : add_more_cards.prepare c = add_more_cards.Ready c') :
  add_more_cards.fix_cap (word c) = Some (word c') /\
  1 <= length (Py.split (word c')) <= 2 /\
  3 <= length (taboo c') <= 5 /\
  Forall (fun t => Py.lower t = t) (taboo c') /\
  Forall (fun t => add_more_cards.is_bad_taboo (word c') t = false) (taboo c') /\
  difficulty c' = difficulty c /\ category c' = category c.
Proof.
  unfold add_more_cards.prepare in Hc.
  destruct (2 <? _) eqn:Hlen; [done|]. apply Nat.ltb_ge in Hlen.
  destruct (add_more_cards.fix_cap (word c)) as [w|] eqn:Hw; [|done].
  destruct (3 <=? _) eqn:H3; [|done]. apply Nat.leb_le in H3.
  rewrite length_map in H3. injection Hc as <-. simpl.
  assert (Hne : Py.split (word c) <> []).
  { intros E. rewrite fix_cap_tokens, E in Hw. done. }
  rewrite fix_cap_some in Hw by done. injection Hw as <-.
  rewrite split_join_normalize, length_imap. simpl in H3.
  assert (1 <= length (Py.split (word c)))
    by (destruct (Py.split (word c)); [done|simpl; lia]).
  split_and!; try done; try (rewrite ?length_take, ?length_map; lia).
  - apply Forall_take, Forall_fmap, Forall_forall. intros t _. apply lower_idem.
  - apply Forall_take, Forall_fmap, Forall_forall. intros t Ht.
    apply list_elem_of_In, filter_In in Ht as [_ Ht]. simpl in *.
    rewrite is_bad_taboo_lower. by apply negb_true_iff.
Qed.

Lemma add_more_cards_ready_card_witness :
  add_more_cards.fix_cap (word football) = Some (lit "Football").
Proof.
  assert (Hc : add_more_cards.prepare football =
               add_more_cards.Ready
                 (set_taboo [lit "kick"; lit "soccer"; lit "goal"; lit "field"] football))
    by (vm_compute; reflexivity).
  exact (proj1 (add_more_cards_ready_card _ _ Hc)).
Defined.

(** ** Fenced replies *)

Lemma lstrip_spaces ws s :
  Forall (fun c => Py.isspace c = true) ws -> Py.lstrip (ws ++ s) = Py.lstrip s.
Proof. induction 1 as [|c ws Hc _ IH]; simpl; [done|]. by rewrite Hc. Qed.

Lemma lstrip_nonspace c r : Py.isspace c = false -> Py.lstrip (c :: r) = c :: r.
Proof. intros Hc. simpl. by rewrite Hc. Qed.

Lemma lstrip_idem s : Py.lstrip (Py.lstrip s) = Py.lstrip s.
Proof.
  induction s as [|c s IH]; simpl; [done|].
  destruct (Py.isspace c) eqn:Hc; [done|]. simpl. by rewrite Hc.
Qed.

Lemma lstrip_snoc_nonspace a c :
  Py.isspace c = false -> Py.lstrip (a ++ [c]) = Py.lstrip a ++ [c].
Proof.
  intros Hc. induction a as [|x a IH]; simpl; [by rewrite Hc|].
  by destruct (Py.isspace x).
Qed.

Lemma rstrip_spaces s ws :
  Forall (fun c => Py.isspace c = true) ws -> Py.rstrip (s ++ ws) = Py.rstrip s.
Proof.
  intros Hws. unfold Py.rstrip. rewrite rev_app_distr, lstrip_spaces; [done|].
  apply Forall_forall. intros c Hc%list_elem_of_In%in_rev%list_elem_of_In.
  eapply Forall_forall in Hws; eauto.
Qed.

Lemma rstrip_snoc_nonspace s c : Py.isspace c = false -> Py.rstrip (s ++ [c]) = s ++ [c].
Proof.
  intros Hc. unfold Py.rstrip. rewrite rev_app_distr. simpl.
  rewrite Hc. simpl. by rewrite rev_involutive.
Qed.

Lemma rstrip_cons_nonspace c r : Py.isspace c = false -> Py.rstrip (c :: r) = c :: Py.rstrip r.
Proof.
  intros Hc. unfold Py.rstrip. simpl. rewrite lstrip_snoc_nonspace by done.
  by rewrite rev_app_distr.
Qed.

Lemma rstrip_idem s : Py.rstrip (Py.rstrip s) = Py.rstrip s.
Proof. unfold Py.rstrip. by rewrite rev_involutive, lstrip_idem. Qed.

Lemma strip_idem s : Py.strip (Py.strip s) = Py.strip s.
Proof.
  unfold Py.strip at 1 2.
  assert (Hl : Py.lstrip (Py.rstrip (Py.lstrip s)) = Py.rstrip (Py.lstrip s)).
  { pose proof (lstrip_idem s) as Hi.
    destruct (Py.lstrip s) as [|c r] eqn:Hs; [done|].
    simpl in Hi. destruct (Py.isspace c) eqn:Hc.
    - exfalso. apply (f_equal length) in Hi.
      assert (length (Py.lstrip r) <= length r); [|simpl in Hi; lia].
      clear. induction r as [|x r IH]; simpl; [done|].
      destruct (Py.isspace x); simpl; lia.
    - rewrite rstrip_cons_nonspace by done. by apply lstrip_nonspace. }
  unfold Py.strip. by rewrite Hl, rstrip_idem.
Qed.

Lemma strip_core ws1 core ws2 c r c' r' :
  Forall (fun c => Py.isspace c = true) ws1 ->
  Forall (fun c => Py.isspace c = true) ws2 ->
  core = c :: r -> Py.isspace c = false ->
  core = r' ++ [c'] -> Py.isspace c' = false ->
  Py.strip (ws1 ++ core ++ ws2) = core.
Proof.
  intros H1 H2 Hc Hsp Hc' Hsp'. unfold Py.strip.
  rewrite lstrip_spaces by done. rewrite Hc at 1. simpl. rewrite Hsp.
  change (c :: r ++ ws2) with ((c :: r) ++ ws2). rewrite <- Hc.
  rewrite rstrip_spaces by done. rewrite Hc'. by apply rstrip_snoc_nonspace.
Qed.

Lemma after_first_app sep pre rest :
  sep ∉ pre -> Py.after_first sep (pre ++ sep :: rest) = rest.
Proof.
  induction pre as [|x pre IH]; intros Hpre; simpl.
  - by rewrite bool_decide_eq_true_2.
  - rewrite bool_decide_eq_false_2 by set_solver. apply IH. set_solver.
Qed.

(** From a reply that consists of an opening fence line, a body and a
    closing fence, with any whitespace around, [generate_cards_batch]
    hands the stripped body to the JSON parser; a reply without fence is
    handed over stripped. *)
Theorem unfence_returns_body ws1 ws2 lang body
    (H1 : Forall (fun c => Py.isspace c = true) ws1)
    (H2 : Forall (fun c => Py.isspace c = true) ws2)
    (Hlang : LF ∉ lang) :
  generate_cards.unfence (ws1 ++ (lit "```" ++ lang ++ LF :: body ++ lit "```") ++ ws2) =
    Py.strip body /\
  (forall reply,
     Py.startswith (Py.strip reply) (lit "```") = false ->
     Py.endswith (Py.strip reply) (lit "```") = false ->
     generate_cards.unfence reply = Py.strip reply).
Proof.
  split.
  - unfold generate_cards.unfence.
    set (core := lit "```" ++ lang ++ LF :: body ++ lit "```").
    assert (Hstrip : Py.strip (ws1 ++ core ++ ws2) = core).
    { apply (strip_core ws1 core ws2 "`"%char (lit "``" ++ lang ++ LF :: body ++ lit "```")
               "`"%char (lit "```" ++ lang ++ LF :: body ++ lit "``"));
        [done|done|reflexivity|reflexivity| |reflexivity].
      unfold core. simpl. do 3 f_equal. rewrite <- !app_assoc. simpl.
      f_equal. rewrite <- app_assoc. reflexivity. }
    rewrite Hstrip.
    assert (Py.startswith core (lit "```") = true) as ->
      by (apply startswith_spec; by eexists).
    assert (Py.contains_char LF core = true) as ->.
    { apply contains_char_spec. unfold core. set_solver. }
    assert (Py.after_first LF core = body ++ lit "```") as ->.
    { unfold core. rewrite app_assoc. apply after_first_app.
      intros [Hin|Hin]%elem_of_app; [|done].
      vm_compute in Hin. set_solver. }
    assert (Py.endswith (body ++ lit "```") (lit "```") = true) as ->
      by (apply endswith_spec; by eexists).
    unfold Py.slice_to_neg. simpl Nat.eqb. cbv iota.
    rewrite length_app.
    replace (length body + length (lit "```") - 3) with (length body) by (simpl; lia).
    by rewrite take_app_length.
  - intros reply Hs He. unfold generate_cards.unfence. rewrite Hs, He. apply strip_idem.
Qed.

Lemma unfence_returns_body_witness :
  generate_cards.unfence (lit "```json" ++ LF :: lit "[] " ++ LF :: lit "```" ++ [LF]) = lit "[]".
Proof.
  assert (H1 : Forall (fun c => Py.isspace c = true) []) by constructor.
  assert (H2 : Forall (fun c => Py.isspace c = true) [LF]) by (by repeat constructor).
  assert (Hlang : LF ∉ lit "json") by (vm_compute; set_solver).
  exact (proj1 (unfence_returns_body [] [LF] (lit "json") (lit "[] " ++ [LF]) H1 H2 Hlang)).
Defined.

(** ** The generation loop of a category *)

Lemma category_loop_pass fuel k needed replies i st :
  generate_cards.category_loop (S fuel) k needed replies i st =
  if generate_cards.generated st <? needed then
    let new_cards :=
      snd (foldl (generate_cards.merge_step k)
             (generate_cards.existing_words st, []) (replies i)) in
    let st' zero :=
      {| generate_cards.all_cards := generate_cards.all_cards st ++ new_cards;
         generate_cards.existing_words :=
           fst (foldl (generate_cards.merge_step k)
                  (generate_cards.existing_words st, []) (replies i));
         generate_cards.generated := generate_cards.generated st + length new_cards;
         generate_cards.zero_count := zero |} in
    if length new_cards =? 0 then
      if 3 <=? generate_cards.zero_count st + 1
      then Some (st' (generate_cards.zero_count st + 1))
      else generate_cards.category_loop fuel k needed replies (S i)
             (st' (generate_cards.zero_count st + 1))
    else generate_cards.category_loop fuel k needed replies (S i) (st' 0)
  else Some st.
Proof.
  simpl. destruct (generate_cards.generated st <? needed); [|done].
  by destruct (foldl _ _ _).
Qed.

Lemma category_loop_fuel k needed replies fuel : forall i st,
  generate_cards.zero_count st < 3 ->
  3 * (needed - generate_cards.generated st) <= fuel + generate_cards.zero_count st ->
  exists st',
    generate_cards.category_loop fuel k needed replies i st = Some st' /\
    (needed <= generate_cards.generated st' \/ generate_cards.zero_count st' = 3) /\
    generate_cards.all_cards st `prefix_of` generate_cards.all_cards st' /\
    generate_cards.generated st <= generate_cards.generated st' /\
    length (generate_cards.all_cards st') =
      length (generate_cards.all_cards st) +
      (generate_cards.generated st' - generate_cards.generated st) /\
    (generate_cards.existing_words st = generate_cards.words_of (generate_cards.all_cards st) ->
     generate_cards.existing_words st' = generate_cards.words_of (generate_cards.all_cards st')).
Proof.
  induction fuel as [|fuel IH]; intros i st Hz Hfuel.
  - exists st. simpl.
    assert ((generate_cards.generated st <? needed) = false) as ->
      by (apply Nat.ltb_ge; lia).
    split_and!; [done|left; lia|done|done|lia|done].
  - rewrite category_loop_pass.
    destruct (generate_cards.generated st <? needed) eqn:Hg.
    2:{ apply Nat.ltb_ge in Hg. exists st. split_and!; [done|by left|done|done|lia|done]. }
    apply Nat.ltb_lt in Hg. cbv zeta.
    destruct (merge_fold k (generate_cards.existing_words st) (replies i))
      as (new & -> & _ & _).
    cbn [fst snd].
    destruct (length new =? 0) eqn:Hn.
    + apply Nat.eqb_eq in Hn.
      destruct (3 <=? generate_cards.zero_count st + 1) eqn:H3.
      * apply Nat.leb_le in H3. eexists. split; [done|]. cbn [generate_cards.all_cards generate_cards.existing_words generate_cards.generated generate_cards.zero_count].
        split_and!; [right; lia|by apply prefix_app_r|lia|rewrite length_app; lia|].
        intros ->. by rewrite words_of_app, (comm_L (∪)).
      * apply Nat.leb_gt in H3.
        edestruct IH as (st' & -> & Hexit & Hpre & Hge & Hlen & Hex);
          [| |exists st'; split; [done|]]; cbn [generate_cards.all_cards generate_cards.existing_words generate_cards.generated generate_cards.zero_count] in *; [lia|lia|].
        split_and!; [done| |lia| |].
        -- etrans; [|exact Hpre]. by apply prefix_app_r.
        -- rewrite Hlen, length_app. lia.
        -- intros Hst. apply Hex. by rewrite Hst, words_of_app, (comm_L (∪)).
    + apply Nat.eqb_neq in Hn.
      edestruct IH as (st' & -> & Hexit & Hpre & Hge & Hlen & Hex);
        [| |exists st'; split; [done|]]; cbn [generate_cards.all_cards generate_cards.existing_words generate_cards.generated generate_cards.zero_count] in *; [lia|lia|].
      split_and!; [done| |lia| |].
      * etrans; [|exact Hpre]. by apply prefix_app_r.
      * rewrite Hlen, length_app. lia.
      * intros Hst. apply Hex. by rewrite Hst, words_of_app, (comm_L (∪)).
Qed.

(** Whatever the service replies, the loop of a category stops within
    [3 * needed] passes: it ends with enough cards generated or after
    three passes in a row without a new card.  The collection it leaves
    is the one it started from followed by the generated cards, and
    [existing_words] is still the set of its lowercased words. *)
Theorem category_loop_terminates k needed replies i st
    (Hz : generate_cards.zero_count st < 3) :
  exists st',
    generate_cards.category_loop (3 * (needed - generate_cards.generated st))
      k needed replies i st = Some st' /\
    (needed <= generate_cards.generated st' \/ generate_cards.zero_count st' = 3) /\
    generate_cards.all_cards st `prefix_of` generate_cards.all_cards st' /\
    length (generate_cards.all_cards st') =
      length (generate_cards.all_cards st) +
      (generate_cards.generated st' - generate_cards.generated st) /\
    (generate_cards.existing_words st = generate_cards.words_of (generate_cards.all_cards st) ->
     generate_cards.existing_words st' = generate_cards.words_of (generate_cards.all_cards st')).
Proof.
  destruct (category_loop_fuel k needed replies
              (3 * (needed - generate_cards.generated st)) i st Hz)
    as (st' & Hrun & Hexit & Hpre & _ & Hlen & Hex); [lia|].
  exists st'. by split_and!.
Qed.

Lemma category_loop_terminates_witness :
  exists st',
    generate_cards.category_loop 6 (lit "Sports") 2 (fun _ => [football_weak]) 0
      football_only = Some st' /\
    generate_cards.zero_count st' = 3.
Proof.
  assert (Hz : generate_cards.zero_count football_only < 3) by (simpl; lia).
  destruct (category_loop_terminates (lit "Sports") 2 (fun _ => [football_weak]) 0
              football_only Hz) as (st' & Hrun & _).
  exists st'. split; [exact Hrun|].
  vm_compute in Hrun. injection Hrun as <-. reflexivity.
Defined.

(** ** Candidates from the frequency list *)

Lemma filter_sublist {A} (f : A -> bool) l : sublist (List.filter f l) l.
Proof.
  induction l as [|x l IH]; simpl; [done|].
  destruct (f x); [by apply sublist_skip|by apply sublist_cons].
Qed.

Lemma filter_filter_weaker {A} (f g : A -> bool) l :
  (forall x, f x = true -> g x = true) ->
  List.filter g (List.filter f l) = List.filter f l.
Proof.
  intros Hfg. apply filter_all, Forall_forall. intros x Hx.
  apply list_elem_of_In, filter_In in Hx as [_ Hx]. by apply Hfg.
Qed.

Lemma keep_candidate_facts E word :
  generate_from_wordlist.keep_candidate E word = true ->
  3 <= length (Py.lower word) /\ (Py.lower word ∉ E) /\
  (Py.lower word ∉ generate_from_wordlist.STOPWORDS) /\
  (Py.lower word ∉ generate_from_wordlist.FIRST_NAMES) /\
  Forall (fun c => c <> "'"%char /\ c <> "-"%char /\ Py.isdigit c = false) (Py.lower word).
Proof.
  unfold generate_from_wordlist.keep_candidate, Py.mem.
  destruct (length (Py.lower word) <? 3) eqn:Hlen; [done|].
  apply Nat.ltb_ge in Hlen.
  destruct (_ || _ || _) eqn:Hchars; [done|].
  apply orb_false_iff in Hchars as [[Hq Hh]%orb_false_iff Hd].
  case_bool_decide as Hstop; [done|]. case_bool_decide as Hname; [done|].
  case_bool_decide as Hex; [done|]. intros _. split_and!; try done.
  apply Forall_forall. intros c Hc. split_and!.
  - intros ->. apply contains_char_spec in Hc. congruence.
  - intros ->. apply contains_char_spec in Hc. congruence.
  - destruct (Py.isdigit c) eqn:Hdc; [|done].
    assert (existsb Py.isdigit (Py.lower word) = true); [|congruence].
    apply existsb_exists. exists c. split; [by apply list_elem_of_In|done].
Qed.

Lemma keep_candidate_mono E E' word :
  E ⊆ E' ->
  generate_from_wordlist.keep_candidate E' word = true ->
  generate_from_wordlist.keep_candidate E word = true.
Proof.
  intros Hsub. unfold generate_from_wordlist.keep_candidate.
  repeat (match goal with
          | |- context [if ?b then _ else _] =>
              lazymatch b with
              | bool_decide (_ ∈ E) => fail
              | bool_decide (_ ∈ E') => fail
              | _ => destruct b; [try done|]
              end
          end).
  all: repeat case_bool_decide; try done; set_solver.
Qed.

(** [filter_candidates] keeps the order of the frequency list and drops
    entries only.  The lowercase of every word it keeps has at least
    three characters, no apostrophe, hyphen or digit, and is neither a
    stop word, nor a listed first name, nor a word of the deck.  Filtering
    its own result changes nothing, and a larger deck can only remove
    candidates. *)
Theorem filter_candidates_keeps_order freq_words E :
  sublist (generate_from_wordlist.filter_candidates freq_words E) freq_words /\
  Forall
    (fun p =>
       3 <= length (Py.lower p.1) /\ (Py.lower p.1 ∉ E) /\
       (Py.lower p.1 ∉ generate_from_wordlist.STOPWORDS) /\
       (Py.lower p.1 ∉ generate_from_wordlist.FIRST_NAMES) /\
       Forall (fun c => c <> "'"%char /\ c <> "-"%char /\ Py.isdigit c = false)
         (Py.lower p.1))
    (generate_from_wordlist.filter_candidates freq_words E) /\
  generate_from_wordlist.filter_candidates
    (generate_from_wordlist.filter_candidates freq_words E) E =
    generate_from_wordlist.filter_candidates freq_words E /\
  (forall E', E ⊆ E' ->
     generate_from_wordlist.filter_candidates freq_words E' =
     generate_from_wordlist.filter_candidates
       (generate_from_wordlist.filter_candidates freq_words E) E').
Proof.
  unfold generate_from_wordlist.filter_candidates. split_and!.
  - apply filter_sublist.
  - apply Forall_forall. intros [word freq] Hin.
    apply list_elem_of_In, filter_In in Hin as [_ Hin]. by apply keep_candidate_facts.
  - by apply filter_filter_weaker.
  - intros E' Hsub. induction freq_words as [|[word freq] l IH]; simpl; [done|].
    destruct (generate_from_wordlist.keep_candidate E' word) eqn:H'.
    + rewrite (keep_candidate_mono E E' word Hsub H'). simpl. by rewrite H', IH.
    + destruct (generate_from_wordlist.keep_candidate E word); simpl; by rewrite ?H', IH.
Qed.

Lemma filter_candidates_keeps_order_witness :
  generate_from_wordlist.filter_candidates [(lit "Volcano", 7%Z); (lit "the", 9%Z)] ∅ =
  generate_from_wordlist.filter_candidates
    (generate_from_wordlist.filter_candidates [(lit "Volcano", 7%Z); (lit "the", 9%Z)] ∅) ∅.
Proof.
  destruct (filter_candidates_keeps_order [(lit "Volcano", 7%Z); (lit "the", 9%Z)] ∅)
    as (_ & _ & _ & H).
  apply H. reflexivity.
Defined.

(** In the rule for past tenses the root of a word of more than five
    characters ending in "ed" always has the length of the word minus
    two, four at least: the test [len(root) <= 3] never holds, and the
    rule drops a word only when its root is a stop word. *)
Theorem ed_rule_length_test_never_holds word
    (Hlen : 5 < length (Py.lower word)) :
  let w := Py.lower word in
  let root :=
    if negb (Py.endswith w (lit "ied")) then Py.slice_to_neg w 2
    else Py.slice_to_neg w 3 ++ lit "y" in
  length root = length w - 2 /\
  (Py.mem root generate_from_wordlist.STOPWORDS || (length root <=? 3)) =
    Py.mem root generate_from_wordlist.STOPWORDS.
Proof.
  intros w root.
  assert (Hroot : length root = length w - 2).
  { unfold root, Py.slice_to_neg. fold w in Hlen.
    destruct (negb _); simpl Nat.eqb; cbv iota.
    - rewrite length_take. lia.
    - rewrite length_app, length_take. simpl. lia. }
  split; [done|]. fold w in Hlen.
  assert ((length root <=? 3) = false) as -> by (apply Nat.leb_gt; lia).
  apply orb_false_r.
Qed.

Lemma ed_rule_length_test_never_holds_witness :
  5 < length (Py.lower (lit "walked")) /\
  length (Py.slice_to_neg (Py.lower (lit "walked")) 2) = 4.
Proof.
  assert (Hlen : 5 < length (Py.lower (lit "walked"))) by (vm_compute; lia).
  split; [exact Hlen|].
  exact (proj1 (ed_rule_length_test_never_holds (lit "walked") Hlen)).
Defined.

(** The comment of the rule names "walked", "talked", "opened" and
    "started" as words to skip; their roots are no stop words and the
    rule keeps them. *)
Example past_tenses_are_kept :
  generate_from_wordlist.filter_candidates
    [(lit "walked", 10%Z); (lit "talked", 9%Z); (lit "opened", 8%Z); (lit "started", 7%Z);
     (lit "Going", 6%Z); (lit "quickly", 5%Z); (lit "it's", 4%Z)] ∅ =
    [(lit "walked", 10%Z); (lit "talked", 9%Z); (lit "opened", 8%Z); (lit "started", 7%Z)].
Proof. vm_compute. reflexivity. Qed.

(** ** Difficulty tiers *)

Section Tiers.

Import generate_from_wordlist.

Variables a b c : nat.
Hypothesis Hab : a <= b.
Hypothesis Hbc : b <= c.
Hypothesis assign_one_eq : forall t i word,
  assign_one t i word =
  if i <? a then
    {| easy := easy t ++ [word]; medium := medium t; hard := hard t; expert := expert t |}
  else if i <? b then
    {| easy := easy t; medium := medium t ++ [word]; hard := hard t; expert := expert t |}
  else if i <? c then
    {| easy := easy t; medium := medium t; hard := hard t ++ [word]; expert := expert t |}
  else
    {| easy := easy t; medium := medium t; hard := hard t; expert := expert t ++ [word] |}.

Lemma assign_from_runs candidates : forall i t,
  easy (assign_from i t candidates) = easy t ++ take (a - i) (map fst candidates) /\
  medium (assign_from i t candidates) =
    medium t ++ take (b - max i a) (drop (a - i) (map fst candidates)) /\
  hard (assign_from i t candidates) =
    hard t ++ take (c - max i b) (drop (b - i) (map fst candidates)) /\
  expert (assign_from i t candidates) = expert t ++ drop (c - i) (map fst candidates).
Proof using Hab Hbc assign_one_eq.
  induction candidates as [|[word freq] rest IH]; intros i t.
  - simpl. rewrite !drop_nil, !take_nil, !app_nil_r. done.
  - cbn [assign_from map fst].
    destruct (IH (S i) (assign_one t i word)) as (He & Hm & Hh & Hx).
    rewrite He, Hm, Hh, Hx, assign_one_eq. clear He Hm Hh Hx IH.
    destruct (i <? a) eqn:Ha; [|destruct (i <? b) eqn:Hb; [|destruct (i <? c) eqn:Hc]];
      rewrite ?Nat.ltb_lt, ?Nat.ltb_ge in *; cbn [easy medium hard expert].
    + replace (a - i) with (S (a - S i)) by lia.
      replace (b - i) with (S (b - S i)) by lia.
      replace (c - i) with (S (c - S i)) by lia.
      replace (max (S i) a) with (max i a) by lia.
      replace (max (S i) b) with (max i b) by lia.
      simpl. rewrite <- !app_assoc. done.
    + replace (a - i) with 0 by lia. replace (a - S i) with 0 by lia.
      replace (b - i) with (S (b - S i)) by lia.
      replace (c - i) with (S (c - S i)) by lia.
      replace (b - max i a) with (S (b - max (S i) a)) by lia.
      replace (max (S i) b) with (max i b) by lia.
      simpl. rewrite <- !app_assoc. done.
    + replace (a - i) with 0 by lia. replace (a - S i) with 0 by lia.
      replace (b - i) with 0 by lia. replace (b - S i) with 0 by lia.
      replace (b - max i a) with 0 by lia. replace (b - max (S i) a) with 0 by lia.
      replace (c - i) with (S (c - S i)) by lia.
      replace (c - max i b) with (S (c - max (S i) b)) by lia.
      simpl. rewrite <- !app_assoc. done.
    + replace (a - i) with 0 by lia. replace (a - S i) with 0 by lia.
      replace (b - i) with 0 by lia. replace (b - S i) with 0 by lia.
      replace (c - i) with 0 by lia. replace (c - S i) with 0 by lia.
      replace (b - max i a) with 0 by lia. replace (b - max (S i) a) with 0 by lia.
      replace (c - max i b) with 0 by lia. replace (c - max (S i) b) with 0 by lia.
      simpl. rewrite <- !app_assoc. done.
Qed.

Lemma take_drop_three {A} (l : list A) :
  take a l ++ take (b - a) (drop a l) ++ take (c - b) (drop b l) ++ drop c l = l.
Proof using Hab Hbc.
  replace (drop c l) with (drop (c - b) (drop b l)) by (rewrite drop_drop; f_equal; lia).
  rewrite take_drop.
  replace (drop b l) with (drop (b - a) (drop a l)) by (rewrite drop_drop; f_equal; lia).
  by rewrite !take_drop.
Qed.

Lemma tiers_cut_in_order candidates :
  let ws := map fst candidates in
  let t := assign_difficulty_tier candidates in
  easy t = take a ws /\
  medium t = take (b - a) (drop a ws) /\
  hard t = take (c - b) (drop b ws) /\
  expert t = drop c ws /\
  easy t ++ medium t ++ hard t ++ expert t = ws.
Proof using Hab Hbc assign_one_eq.
  intros ws t.
  destruct (assign_from_runs candidates 0
              {| easy := []; medium := []; hard := []; expert := [] |})
    as (He & Hm & Hh & Hx).
  fold (assign_difficulty_tier candidates) in He, Hm, Hh, Hx.
  fold t in He, Hm, Hh, Hx. fold ws in He, Hm, Hh, Hx.
  cbn [easy medium hard expert app] in He, Hm, Hh, Hx.
  rewrite !Nat.sub_0_r in He, Hm, Hh, Hx.
  rewrite !Nat.max_0_l in Hm, Hh.
  split_and!; try done.
  rewrite He, Hm, Hh, Hx. apply take_drop_three.
Qed.

End Tiers.

(** [assign_difficulty_tier] cuts the candidate words, in their order,
    into four consecutive runs: the first 2000 are easy, the next 4000
    medium, the next 9000 hard and the rest expert; no word is lost. *)
Theorem assign_difficulty_tier_cuts_in_order candidates :
  let ws := map fst candidates in
  let t := generate_from_wordlist.assign_difficulty_tier candidates in
  generate_from_wordlist.easy t = take 2000 ws /\
  generate_from_wordlist.medium t = take (6000 - 2000) (drop 2000 ws) /\
  generate_from_wordlist.hard t = take (15000 - 6000) (drop 6000 ws) /\
  generate_from_wordlist.expert t = drop 15000 ws /\
  generate_from_wordlist.easy t ++ generate_from_wordlist.medium t ++
    generate_from_wordlist.hard t ++ generate_from_wordlist.expert t = ws.
Proof.
  apply (tiers_cut_in_order 2000 6000 15000).
  - apply Nat.leb_le. vm_compute. reflexivity.
  - apply Nat.leb_le. vm_compute. reflexivity.
  - reflexivity.
Qed.

(** ** Reclassifying difficulties *)

Lemma reclassify_again cls c :
  reclassify_hard_expert.reclassify cls (reclassify_hard_expert.reclassify cls c).1 =
  ((reclassify_hard_expert.reclassify cls c).1, 0).
Proof.
  unfold reclassify_hard_expert.reclassify.
  destruct (reclassify_hard_expert.lookup cls (word c)) as [new|] eqn:Hl.
  - case_bool_decide as Hd; simpl; rewrite Hl.
    + by rewrite bool_decide_eq_false_2 by (intros Hne; by apply Hne).
    + by rewrite bool_decide_eq_false_2 by (intros Hne; by apply Hne, dec_stable).
  - destruct (reclassify_hard_expert.lookup_lower cls (word c)) as [v|] eqn:Hv.
    + case_bool_decide as Hd; simpl; rewrite Hl, Hv.
      * by rewrite bool_decide_eq_false_2 by (intros Hne; by apply Hne).
      * by rewrite bool_decide_eq_false_2 by (intros Hne; by apply Hne, dec_stable).
    + simpl. by rewrite Hl, Hv.
Qed.

(** Applying the classifications changes nothing but difficulties; it
    counts each changed card once, and a second application to its own
    result changes no card and counts none. *)
Theorem apply_classifications_settles cls cards :
  let r := reclassify_hard_expert.apply_classifications cls cards in
  map word r.1 = map word cards /\
  map taboo r.1 = map taboo cards /\
  map category r.1 = map category cards /\
  r.2 <= length cards /\
  reclassify_hard_expert.apply_classifications cls r.1 = (r.1, 0).
Proof.
  assert (Hsame : forall c,
            word (reclassify_hard_expert.reclassify cls c).1 = word c /\
            taboo (reclassify_hard_expert.reclassify cls c).1 = taboo c /\
            category (reclassify_hard_expert.reclassify cls c).1 = category c /\
            (reclassify_hard_expert.reclassify cls c).2 <= 1).
  { intros c. unfold reclassify_hard_expert.reclassify.
    destruct (reclassify_hard_expert.lookup cls (word c));
      [|destruct (reclassify_hard_expert.lookup_lower cls (word c))];
      try case_bool_decide; simpl; split_and!; try done; lia. }
  unfold reclassify_hard_expert.apply_classifications. simpl.
  induction cards as [|c cards (IHw & IHt & IHc & IHn & IHr)]; simpl; [by split_and!|].
  destruct (Hsame c) as (Hw & Ht & Hc & Hn).
  split_and!; try congruence; [lia|].
  injection IHr as IH1 IH2. by rewrite reclassify_again, IH1, IH2.
Qed.

(** ** The two normalisers *)

Lemma lower_imap_normalize listed ws :
  map Py.lower (imap (normalize_token listed) ws) = map Py.lower ws.
Proof.
  apply list_eq. intros i. rewrite !list_lookup_fmap, list_lookup_imap.
  destruct (ws !! i); simpl; [|done]. by rewrite lower_normalize_token.
Qed.

(** Whenever [fix_cap] returns, its result and that of
    [fix_capitalization] differ at most in the case of letters: both are
    the tokens of the phrase joined by single spaces.  On a phrase of
    ASCII characters they are, lowercased, the lowercased tokens.  On a
    phrase of one token they are equal. *)
Theorem normalisers_agree_up_to_case p q (Hq : add_more_cards.fix_cap p = Some q) :
  Py.lower q = Py.lower (add_cards.fix_capitalization p) /\
  (Py.isascii p = true -> Py.lower q = Py.join (lit " ") (map Py.lower (Py.split p))) /\
  (length (Py.split p) = 1 -> q = add_cards.fix_capitalization p).
Proof.
  assert (Hne : Py.split p <> []).
  { intros E. rewrite fix_cap_tokens, E in Hq. done. }
  rewrite fix_cap_some in Hq by done. injection Hq as <-.
  rewrite fix_capitalization_tokens, !lower_join, !lower_imap_normalize.
  split_and!; [done|done|].
  destruct (Py.split p) as [|w [|w' ws]]; simpl; [done|done|lia].
Qed.

Lemma normalisers_agree_up_to_case_witness :
  add_cards.fix_capitalization (lit "ice Cream Shop") = lit "Ice cream shop" /\
  Py.lower (lit "Ice cream Shop") = Py.lower (add_cards.fix_capitalization (lit "ice Cream Shop")).
Proof.
  assert (Hq : add_more_cards.fix_cap (lit "ice Cream Shop") = Some (lit "Ice cream Shop"))
    by (vm_compute; reflexivity).
  split; [vm_compute; reflexivity|].
  exact (proj1 (normalisers_agree_up_to_case _ _ Hq)).
Defined.

(** ** The loop over a tier *)

Lemma add_card_fold d cards : forall E nc n,
  exists new,
    foldl (generate_from_wordlist.add_card d) (E, nc, n) cards =
    (generate_cards.words_of new ∪ E, nc ++ new, n + length new).
Proof.
  induction cards as [|c cards IH]; intros E nc n; simpl.
  - exists []. rewrite app_nil_r, Nat.add_0_r. do 2 f_equal.
    symmetry. apply (left_id_L ∅ (∪)).
  - case_bool_decide.
    + apply IH.
    + destruct (IH ({[Py.lower (word c)]} ∪ E)
                  (nc ++ [{| word := word c; taboo := taboo c; difficulty := d;
                             category := category c |}]) (n + 1)) as (new & ->).
      exists ({| word := word c; taboo := taboo c; difficulty := d;
                 category := category c |} :: new).
      rewrite <- app_assoc. simpl. f_equal; [f_equal|lia].
      unfold generate_cards.words_of. simpl. set_solver.
Qed.

Lemma tier_loop_pass fuel d target ws replies i st :
  generate_from_wordlist.tier_loop (S fuel) d target ws replies i st =
  if (generate_from_wordlist.tier_generated st <? target)
     && (generate_from_wordlist.offset st <? length ws) then
    let batch := take generate_from_wordlist.batch_size
                   (drop (generate_from_wordlist.offset st) ws) in
    let offset' := generate_from_wordlist.offset st + generate_from_wordlist.batch_size in
    match batch with
    | [] =>
        Some ({| generate_from_wordlist.new_cards := generate_from_wordlist.new_cards st;
                 generate_from_wordlist.all_existing := generate_from_wordlist.all_existing st;
                 generate_from_wordlist.tier_generated :=
                   generate_from_wordlist.tier_generated st;
                 generate_from_wordlist.offset := offset' |}, [])
    | _ =>
        let r := foldl (generate_from_wordlist.add_card d)
                   (generate_from_wordlist.all_existing st,
                    generate_from_wordlist.new_cards st, 0) (replies i) in
        match
          generate_from_wordlist.tier_loop fuel d target ws replies (S i)
            {| generate_from_wordlist.new_cards := r.1.2;
               generate_from_wordlist.all_existing := r.1.1;
               generate_from_wordlist.tier_generated :=
                 generate_from_wordlist.tier_generated st + r.2;
               generate_from_wordlist.offset := offset' |}
        with
        | Some (st', sent) => Some (st', batch :: sent)
        | None => None
        end
    end
  else Some (st, []).
Proof.
  cbn [generate_from_wordlist.tier_loop].
  destruct (_ && _); [|done]. cbv zeta.
  destruct (take _ _); [done|]. by destruct (foldl _ _ _) as [[? ?] ?].
Qed.

Lemma take_take_drop {A} (l : list A) n m : take n l ++ take m (drop n l) = take (n + m) l.
Proof.
  revert l. induction n as [|n IH]; intros l; simpl; [done|].
  destruct l; simpl; [by rewrite take_nil|]. by rewrite IH.
Qed.

Lemma tier_loop_fuel d target ws replies fuel : forall i st,
  length ws - generate_from_wordlist.offset st <= fuel ->
  exists st' sent,
    generate_from_wordlist.tier_loop fuel d target ws replies i st = Some (st', sent) /\
    generate_from_wordlist.offset st <= generate_from_wordlist.offset st' /\
    concat sent =
      take (generate_from_wordlist.offset st' - generate_from_wordlist.offset st)
        (drop (generate_from_wordlist.offset st) ws) /\
    Forall (fun batch => 1 <= length batch <= 150) sent /\
    generate_from_wordlist.new_cards st `prefix_of` generate_from_wordlist.new_cards st' /\
    length (generate_from_wordlist.new_cards st') + generate_from_wordlist.tier_generated st =
      length (generate_from_wordlist.new_cards st) + generate_from_wordlist.tier_generated st' /\
    (target <= generate_from_wordlist.tier_generated st' \/
     length ws <= generate_from_wordlist.offset st').
Proof.
  induction fuel as [|fuel IH]; intros i st Hfuel.
  - exists st, []. simpl.
    destruct (_ <? target) eqn:Ht; simpl.
    + assert ((generate_from_wordlist.offset st <? length ws) = false) as ->
        by (apply Nat.ltb_ge; lia).
      rewrite Nat.sub_diag. split_and!; try done. right. lia.
    + apply Nat.ltb_ge in Ht. rewrite Nat.sub_diag. split_and!; try done. by left.
  - rewrite tier_loop_pass.
    destruct (_ <? target) eqn:Ht; simpl andb.
    2:{ exists st, []. apply Nat.ltb_ge in Ht. rewrite Nat.sub_diag.
        split_and!; try done. by left. }
    destruct (_ <? length ws) eqn:Ho.
    2:{ exists st, []. apply Nat.ltb_ge in Ho. rewrite Nat.sub_diag.
        split_and!; try done. by right. }
    apply Nat.ltb_lt in Ho. cbv zeta.
    set (o := generate_from_wordlist.offset st) in *.
    assert (Hb : 1 <= length (take generate_from_wordlist.batch_size (drop o ws)) <= 150).
    { rewrite length_take, length_drop. unfold generate_from_wordlist.batch_size. lia. }
    destruct (take generate_from_wordlist.batch_size (drop o ws)) as [|w batch] eqn:Hbatch;
      [simpl in Hb; lia|].
    destruct (add_card_fold d (replies i) (generate_from_wordlist.all_existing st)
                (generate_from_wordlist.new_cards st) 0) as (new & ->).
    cbn [fst snd].
    match goal with
    | |- context [generate_from_wordlist.tier_loop fuel d target ws replies (S i) ?s] =>
        assert (Hs : length ws - generate_from_wordlist.offset s <= fuel)
          by (cbn [generate_from_wordlist.offset];
              unfold generate_from_wordlist.batch_size; lia);
        destruct (IH (S i) s Hs)
          as (st' & sent & -> & Hoff & Hsent & Hall & Hpre & Hlen & Hexit)
    end.
    exists st'. exists ((w :: batch) :: sent). split; [done|].
    cbn [generate_from_wordlist.new_cards generate_from_wordlist.all_existing
         generate_from_wordlist.tier_generated generate_from_wordlist.offset] in *.
    split_and!; try done.
    + unfold generate_from_wordlist.batch_size in *. lia.
    + change (concat ((w :: batch) :: sent)) with ((w :: batch) ++ concat sent).
      rewrite <- Hbatch, Hsent.
      unfold generate_from_wordlist.batch_size in *.
      replace (drop (o + 150) ws) with (drop 150 (drop o ws))
        by (rewrite drop_drop; f_equal; lia).
      rewrite take_take_drop. f_equal. lia.
    + by constructor.
    + etrans; [|exact Hpre]. by apply prefix_app_r.
    + rewrite length_app in Hlen. lia.
Qed.

(** Whatever the service replies, the loop over a tier stops within as
    many passes as there are candidate words.  It sends the words to the
    service in batches of 1 to 150, in order and each word once: the
    batches together are the words between the initial and the final
    offset.  It only appends to [new_cards], one card for each unit
    added to [tier_generated], and it ends with the target reached or
    the words used up. *)
Theorem tier_loop_sends_each_word_once d target ws replies i st :
  exists st' sent,
    generate_from_wordlist.tier_loop (length ws - generate_from_wordlist.offset st)
      d target ws replies i st = Some (st', sent) /\
    concat sent =
      take (generate_from_wordlist.offset st' - generate_from_wordlist.offset st)
        (drop (generate_from_wordlist.offset st) ws) /\
    Forall (fun batch => 1 <= length batch <= 150) sent /\
    generate_from_wordlist.new_cards st `prefix_of` generate_from_wordlist.new_cards st' /\
    length (generate_from_wordlist.new_cards st') + generate_from_wordlist.tier_generated st =
      length (generate_from_wordlist.new_cards st) + generate_from_wordlist.tier_generated st' /\
    (target <= generate_from_wordlist.tier_generated st' \/
     length ws <= generate_from_wordlist.offset st').
Proof.
  destruct (tier_loop_fuel d target ws replies
              (length ws - generate_from_wordlist.offset st) i st)
    as (st' & sent & Hrun & _ & Hsent & Hall & Hpre & Hlen & Hexit); [done|].
  exists st', sent. by split_and!.
Qed.
